(** * libwsc: the WebSocket receiver (WebSocketReceiver.cpp)

    A shallow embedding of [WebSocketReceiver]: the inbound frame loop
    [onData], the fragment handlers, close-frame sanitisation, the
    permessage-deflate transmit and receive helpers and the UTF-8 check of
    close reasons, together with the properties the specification states
    about them.

    Conventions.
    - A byte is a [Byte.byte]; [byte_val] is its unsigned value.
    - A [(pointer, length)] pair that the C++ code passes around is a
      [list byte]; the length is the length of the list.
    - [size_t], [uint64_t] and [uLong] are 64 bits wide, [uInt] is 32 bits
      wide (LP64, the platform the library is built for); casts and sums
      that can wrap are written with [Z.modulo].
    - zlib, the UTF-8 validator class and the sink interface are not part of
      WebSocketReceiver.cpp; they are interfaces (type classes) here. *)

From Stdlib Require Import String.
From Stdlib Require Import ZArith List Bool Lia Arith.
From Stdlib Require Import Strings.Byte.
Import ListNotations.
Local Open Scope Z_scope.

Set Implicit Arguments.

(* ===================================================================== *)
(** ** Bytes and machine integers *)
(* ===================================================================== *)

Definition byte : Set := Byte.byte.

Definition byte_val (b : byte) : Z := Z.of_N (Byte.to_N b).

(** The byte whose value is [z]; only used on [0 <= z < 256]. *)
Definition byte_of_Z (z : Z) : byte :=
  match Byte.of_N (Z.to_N z) with
  | Some b => b
  | None => x00
  end.

Definition SIZE_BITS : Z := 64.
Definition UINT_BITS : Z := 32.

(** [static_cast<size_t>(x)], and arithmetic in [size_t]. *)
Definition to_size_t (x : Z) : Z := x mod 2 ^ SIZE_BITS.
(** [static_cast<uInt>(x)]. *)
Definition to_uInt (x : Z) : Z := x mod 2 ^ UINT_BITS.
(** [static_cast<uint16_t>(x)]. *)
Definition to_uint16 (x : Z) : Z := x mod 2 ^ 16.

Definition len {A} (l : list A) : Z := Z.of_nat (length l).

(** [p[i]] for a byte buffer [p]; the code never reads past the length it
    has checked, so the default is not observed. *)
Definition at_ (p : list byte) (i : nat) : Z := byte_val (nth i p x00).

(** [memcpy(&net, p, 2); ntohs(net)]: the two bytes at [p] read in network
    (big-endian) order, whatever the byte order of the host. *)
Definition load_be16 (p : list byte) : Z := at_ p 0 * 256 + at_ p 1.

(** [memcpy(&u64, p, 8); ntohll(u64)]: eight bytes in network order. *)
Definition load_be64 (p : list byte) : Z :=
  fold_left (fun acc i => acc * 256 + at_ p i) (seq 0 8) 0.

(* ===================================================================== *)
(** ** WebSocketReceiver::isValidUtf8 *)
(* ===================================================================== *)

(** The [while (i < len)] loop.  [i] only grows, by at least one per round,
    so [len] rounds are enough ([isValidUtf8_suffix_form] below); [i + 3]
    cannot wrap because [i < len] and [len] is the size of a buffer in
    memory. *)
Fixpoint isValidUtf8_loop (fuel : nat) (bytes : list byte) (len i : nat)
  : bool :=
  match fuel with
  | O => true
  | S fuel' =>
    if (len <=? i)%nat then true
    else if at_ bytes i <=? 0x7F then
      isValidUtf8_loop fuel' bytes len (i + 1)
    else if (0xF5 <=? at_ bytes i)
            || ((0xC0 <=? at_ bytes i) && (at_ bytes i <=? 0xC1)) then
      false
    else if Z.land (at_ bytes i) 0xE0 =? 0xC0 then
      if (len <=? i + 1)%nat
         || negb (Z.land (at_ bytes (i + 1)) 0xC0 =? 0x80) then false
      else isValidUtf8_loop fuel' bytes len (i + 2)
    else if Z.land (at_ bytes i) 0xF0 =? 0xE0 then
      if (len <=? i + 2)%nat
         || negb (Z.land (at_ bytes (i + 1)) 0xC0 =? 0x80)
         || negb (Z.land (at_ bytes (i + 2)) 0xC0 =? 0x80) then false
      else if (at_ bytes i =? 0xE0) && (at_ bytes (i + 1) <? 0xA0) then false
      else if (at_ bytes i =? 0xED) && (0xA0 <=? at_ bytes (i + 1)) then false
      else isValidUtf8_loop fuel' bytes len (i + 3)
    else if Z.land (at_ bytes i) 0xF8 =? 0xF0 then
      if (len <=? i + 3)%nat
         || negb (Z.land (at_ bytes (i + 1)) 0xC0 =? 0x80)
         || negb (Z.land (at_ bytes (i + 2)) 0xC0 =? 0x80)
         || negb (Z.land (at_ bytes (i + 3)) 0xC0 =? 0x80) then false
      else if (at_ bytes i =? 0xF0) && (at_ bytes (i + 1) <? 0x90) then false
      else if (at_ bytes i =? 0xF4) && (0x8F <? at_ bytes (i + 1)) then false
      else isValidUtf8_loop fuel' bytes len (i + 4)
    else false
  end.

Definition isValidUtf8 (str : list byte) (len : nat) : bool :=
  isValidUtf8_loop len str len 0.

(** *** RFC 3629, for comparison

    The specification side of the UTF-8 claim: Unicode scalar values and
    their encoding, written from RFC 3629 and not from the code. *)

Definition is_scalar (c : Z) : Prop :=
  0 <= c <= 0xD7FF \/ 0xE000 <= c <= 0x10FFFF.

Definition utf8_encode (c : Z) : list byte :=
  if c <? 0x80 then [byte_of_Z c]
  else if c <? 0x800 then
    [byte_of_Z (0xC0 + c / 64); byte_of_Z (0x80 + c mod 64)]
  else if c <? 0x10000 then
    [byte_of_Z (0xE0 + c / 4096); byte_of_Z (0x80 + (c / 64) mod 64);
     byte_of_Z (0x80 + c mod 64)]
  else
    [byte_of_Z (0xF0 + c / 262144); byte_of_Z (0x80 + (c / 4096) mod 64);
     byte_of_Z (0x80 + (c / 64) mod 64); byte_of_Z (0x80 + c mod 64)].

(** A byte string is well-formed UTF-8 when it is the concatenation of the
    encodings of scalar values. *)
Definition well_formed_utf8 (bs : list byte) : Prop :=
  exists cs, Forall is_scalar cs /\ bs = flat_map utf8_encode cs.

(** The loop of [isValidUtf8] read on the unread part of the buffer: the
    same tests, with [bytes[i+k]] the [k]-th element of the suffix.  It is an
    auxiliary form for the proofs; [isValidUtf8_suffix_form] relates it to
    the loop. *)
Fixpoint utf8_ok (l : list byte) : bool :=
  match l with
  | [] => true
  | b0 :: t =>
    if byte_val b0 <=? 0x7F then utf8_ok t
    else if (0xF5 <=? byte_val b0)
            || ((0xC0 <=? byte_val b0) && (byte_val b0 <=? 0xC1)) then false
    else if Z.land (byte_val b0) 0xE0 =? 0xC0 then
      match t with
      | b1 :: t1 =>
        if negb (Z.land (byte_val b1) 0xC0 =? 0x80) then false
        else utf8_ok t1
      | _ => false
      end
    else if Z.land (byte_val b0) 0xF0 =? 0xE0 then
      match t with
      | b1 :: b2 :: t2 =>
        if negb (Z.land (byte_val b1) 0xC0 =? 0x80)
           || negb (Z.land (byte_val b2) 0xC0 =? 0x80) then false
        else if (byte_val b0 =? 0xE0) && (byte_val b1 <? 0xA0) then false
        else if (byte_val b0 =? 0xED) && (0xA0 <=? byte_val b1) then false
        else utf8_ok t2
      | _ => false
      end
    else if Z.land (byte_val b0) 0xF8 =? 0xF0 then
      match t with
      | b1 :: b2 :: b3 :: t3 =>
        if negb (Z.land (byte_val b1) 0xC0 =? 0x80)
           || negb (Z.land (byte_val b2) 0xC0 =? 0x80)
           || negb (Z.land (byte_val b3) 0xC0 =? 0x80) then false
        else if (byte_val b0 =? 0xF0) && (byte_val b1 <? 0x90) then false
        else if (byte_val b0 =? 0xF4) && (0x8F <? byte_val b1) then false
        else utf8_ok t3
      | _ => false
      end
    else false
  end.

(* ===================================================================== *)
(** ** zlib *)
(* ===================================================================== *)

(** zlib is an external library.  A [z_stream] is modelled by what
    determines its behaviour: the parameters it was initialised with and the
    calls made on it since it was initialised or reset, next to the four
    buffer fields the receiver reads and writes.  The compression algorithms
    themselves are the fields of the class [Zlib]. *)

Definition Z_OK : Z := 0.
Definition Z_STREAM_END : Z := 1.
Definition Z_DATA_ERROR : Z := -3.
Definition Z_MEM_ERROR : Z := -4.
Definition Z_BUF_ERROR : Z := -5.
Definition Z_SYNC_FLUSH : Z := 2.
Definition Z_DEFLATED : Z := 8.
Definition Z_DEFAULT_STRATEGY : Z := 0.
Definition Z_DEFAULT_COMPRESSION : Z := -1.

(** One call of [deflate] or [inflate] as the library sees it: the
    [avail_in] bytes at [next_in], the room at [next_out], the flush mode. *)
Record zcall := mkCall {
  zc_in : list byte;
  zc_avail_out : Z;
  zc_flush : Z
}.

(** What the library answers: the return code, how many input bytes it
    consumed and the bytes it wrote at [next_out]. *)
Record zresult := mkResult {
  zr_ret : Z;
  zr_consumed : Z;
  zr_out : list byte
}.

Class Zlib := {
  (** return code of [deflateInit2(level, method, windowBits, memLevel,
      strategy)], the parameters in this order *)
  deflateInit2_ret : list Z -> Z;
  (** return code of [inflateInit2(windowBits)] *)
  inflateInit2_ret : list Z -> Z;
  (** [deflateBound] on a stream with these parameters and this history *)
  deflateBound_alg : list Z -> list zcall -> Z -> Z;
  deflate_alg : list Z -> list zcall -> zcall -> zresult;
  inflate_alg : list Z -> list zcall -> zcall -> zresult
}.

Record z_stream := mkStream {
  zs_params : list Z;
  zs_calls : list zcall;
  next_in : list byte;
  avail_in : Z;
  avail_out : Z
}.

(** [std::memset(&strm, 0, sizeof(strm))], also [z_stream strm{}]. *)
Definition z_stream_zero : z_stream := mkStream [] [] [] 0 0.

Definition set_in (s : z_stream) (p : list byte) (n : Z) : z_stream :=
  mkStream (zs_params s) (zs_calls s) p n (avail_out s).

Definition set_avail_out (s : z_stream) (n : Z) : z_stream :=
  mkStream (zs_params s) (zs_calls s) (next_in s) (avail_in s) n.

(** [deflateReset] / [inflateReset]: the parameters stay, the history of
    the stream is forgotten. *)
Definition zReset (s : z_stream) : z_stream :=
  mkStream (zs_params s) [] (next_in s) (avail_in s) (avail_out s).

(** [deflateEnd] / [inflateEnd]. *)
Definition zEnd (s : z_stream) : z_stream :=
  mkStream [] [] (next_in s) (avail_in s) (avail_out s).

Section ZlibCalls.
Context {zlib : Zlib}.

(** A successful init records the parameters in the stream. *)
Definition deflateInit2 (s : z_stream) (params : list Z) : Z * z_stream :=
  let ret := deflateInit2_ret params in
  if ret =? Z_OK
  then (ret, mkStream params [] (next_in s) (avail_in s) (avail_out s))
  else (ret, s).

Definition inflateInit2 (s : z_stream) (params : list Z) : Z * z_stream :=
  let ret := inflateInit2_ret params in
  if ret =? Z_OK
  then (ret, mkStream params [] (next_in s) (avail_in s) (avail_out s))
  else (ret, s).

(** [deflateBound(&strm, sourceLen)], a [uLong]. *)
Definition deflateBound (s : z_stream) (sourceLen : Z) : Z :=
  to_size_t (deflateBound_alg (zs_params s) (zs_calls s) sourceLen).

(** One call [alg(&strm, flush)]: the library sees [avail_in] bytes, may
    consume at most those and write at most [avail_out] bytes; the stream
    fields move accordingly.  Returns the code, the stream and the bytes
    written at [next_out]. *)
Definition zcall_run (alg : list Z -> list zcall -> zcall -> zresult)
           (s : z_stream) (flush : Z) : Z * z_stream * list byte :=
  let call := mkCall (firstn (Z.to_nat (avail_in s)) (next_in s))
                     (avail_out s) flush in
  let res := alg (zs_params s) (zs_calls s) call in
  let consumed := Z.max 0 (Z.min (zr_consumed res) (len (zc_in call))) in
  let written := firstn (Z.to_nat (avail_out s)) (zr_out res) in
  (zr_ret res,
   mkStream (zs_params s) (zs_calls s ++ [call])
            (skipn (Z.to_nat consumed) (next_in s))
            (avail_in s - consumed)
            (avail_out s - len written),
   written).

Definition deflate (s : z_stream) (flush : Z) := zcall_run deflate_alg s flush.
Definition inflate (s : z_stream) (flush : Z) := zcall_run inflate_alg s flush.
End ZlibCalls.

(* ===================================================================== *)
(** ** Utf8Validator *)
(* ===================================================================== *)

(** Modelled from the spec: the class [Utf8Validator] (Utf8Validator.h is
    not among the sources).  Section 4.A gives its contract: [feed(bytes)]
    (here [validateChunk], the name the receiver calls) answers false on an
    invalid sequence, [finish()] ([validateFinal]) answers false when a
    multi-byte sequence is left incomplete, [reset()] clears the partial
    state.  The receiver is written against this interface. *)
Class Utf8Validator (V : Type) := {
  (** the state [reset()] leaves *)
  reset : V;
  validateChunk : V -> list byte -> bool * V;
  validateFinal : V -> bool * V
}.

(** Modelled from the spec: an incremental validator for RFC 3629 that
    satisfies the contract of section 4.A.  Its state is the pending bytes of
    an unfinished sequence.  [utf8_scan] consumes complete sequences and
    answers the unfinished rest, or [None] as soon as no continuation can
    make the input valid. *)
Definition is_cont (b : byte) : bool :=
  (0x80 <=? byte_val b) && (byte_val b <=? 0xBF).

(** the second byte allowed after lead byte [b0] of a 3- or 4-byte form *)
Definition second_ok (b0 b1 : byte) : bool :=
  if byte_val b0 =? 0xE0 then (0xA0 <=? byte_val b1) && (byte_val b1 <=? 0xBF)
  else if byte_val b0 =? 0xED then
    (0x80 <=? byte_val b1) && (byte_val b1 <=? 0x9F)
  else if byte_val b0 =? 0xF0 then
    (0x90 <=? byte_val b1) && (byte_val b1 <=? 0xBF)
  else if byte_val b0 =? 0xF4 then
    (0x80 <=? byte_val b1) && (byte_val b1 <=? 0x8F)
  else is_cont b1.

Fixpoint utf8_scan (l : list byte) : option (list byte) :=
  match l with
  | [] => Some []
  | b0 :: t =>
    if byte_val b0 <=? 0x7F then utf8_scan t
    else if (0xC2 <=? byte_val b0) && (byte_val b0 <=? 0xDF) then
      match t with
      | [] => Some l
      | b1 :: t1 => if is_cont b1 then utf8_scan t1 else None
      end
    else if (0xE0 <=? byte_val b0) && (byte_val b0 <=? 0xEF) then
      match t with
      | [] => Some l
      | [b1] => if second_ok b0 b1 then Some l else None
      | b1 :: b2 :: t2 =>
        if second_ok b0 b1 && is_cont b2 then utf8_scan t2 else None
      end
    else if (0xF0 <=? byte_val b0) && (byte_val b0 <=? 0xF4) then
      match t with
      | [] => Some l
      | [b1] => if second_ok b0 b1 then Some l else None
      | [b1; b2] => if second_ok b0 b1 && is_cont b2 then Some l else None
      | b1 :: b2 :: b3 :: t3 =>
        if second_ok b0 b1 && is_cont b2 && is_cont b3
        then utf8_scan t3 else None
      end
    else None
  end.

#[export] Instance IncrementalUtf8 : Utf8Validator (list byte) := {
  reset := [];
  validateChunk pending chunk :=
    match utf8_scan (pending ++ chunk) with
    | Some rest => (true, rest)
    | None => (false, pending)
    end;
  validateFinal pending :=
    (match pending with [] => true | _ => false end, pending)
}.

(* ===================================================================== *)
(** ** IWebSocketSinks *)
(* ===================================================================== *)

(** The pure virtual interface of IWebSocketSinks.h over a sink state [S]:
    the two [const] queries read the state, each callback moves it.  A
    [std::string] is its bytes.  Callbacks are taken not to re-enter the
    receiver. *)
Class IWebSocketSinks (S : Type) := {
  rxCompressionEnabled : S -> bool;
  onRxPong : list byte -> S -> S;
  onRxPing : list byte -> S -> S;
  onRxClose : Z -> list byte -> S -> S;
  onRxProtocolError : Z -> string -> S -> S;
  onRxText : list byte -> S -> S;
  onRxBinary : list byte -> S -> S;
  rxIsTerminating : S -> bool
}.

(** A sink that records the calls it receives, in order. *)
Inductive SinkCall :=
| RxPong (payload : list byte)
| RxPing (payload : list byte)
| RxClose (code : Z) (reason : list byte)
| RxProtocolError (closeCode : Z) (why : string)
| RxText (msg : list byte)
| RxBinary (msg : list byte).

Record Recorder := mkRecorder {
  rec_compression : bool;
  rec_terminating : bool;
  rec_calls : list SinkCall
}.

Definition record (c : SinkCall) (s : Recorder) : Recorder :=
  mkRecorder (rec_compression s) (rec_terminating s) (rec_calls s ++ [c]).

#[export] Instance RecorderSinks : IWebSocketSinks Recorder := {
  rxCompressionEnabled := rec_compression;
  onRxPong p := record (RxPong p);
  onRxPing p := record (RxPing p);
  onRxClose c r := record (RxClose c r);
  onRxProtocolError c w := record (RxProtocolError c w);
  onRxText m := record (RxText m);
  onRxBinary m := record (RxBinary m);
  rxIsTerminating := rec_terminating
}.

(* ===================================================================== *)
(** ** WebSocketReceiver: state *)
(* ===================================================================== *)

Record PerMessageDeflateConfig := mkConfig {
  enabled : bool;
  client_no_context_takeover : bool;
  server_no_context_takeover : bool;
  client_max_window_bits : Z;
  server_max_window_bits : Z;
  compression_level : Z
}.

(** [PerMessageDeflateConfig{}] *)
Definition default_config : PerMessageDeflateConfig :=
  mkConfig false false false 15 15 Z_DEFAULT_COMPRESSION.

(** The data members of [WebSocketReceiver] ([_sinks] is threaded through
    the functions as the sink state). *)
Record WebSocketReceiver (V : Type) := mkReceiver {
  _cfg : PerMessageDeflateConfig;
  inflate_stream : z_stream;
  deflate_stream : z_stream;
  inflate_initialized : bool;
  deflate_initialized : bool;
  tx_compressed_buf : list byte;
  tx_payload_len : Z;
  message_in_progress : bool;
  compressed_message_in_progress : bool;
  fragmented_opcode : Z;
  fragmented_message : list byte;
  utf8Validator : V
}.

Arguments mkReceiver {V}.

Section Receiver.
Context {V : Type} {validator : Utf8Validator V}.
Context {zlib : Zlib}.
Context {Sink : Type} {sinks : IWebSocketSinks Sink}.

Local Abbreviation Receiver := (WebSocketReceiver V).

(** A freshly constructed receiver. *)
Definition new_receiver (v : V) : Receiver :=
  mkReceiver default_config z_stream_zero z_stream_zero false false
             [] 0 false false 0 [] v.

(** *** Assignments to one member *)

Definition set_cfg (r : Receiver) (c : PerMessageDeflateConfig) : Receiver :=
  mkReceiver c (inflate_stream r) (deflate_stream r)
    (inflate_initialized r) (deflate_initialized r) (tx_compressed_buf r)
    (tx_payload_len r) (message_in_progress r)
    (compressed_message_in_progress r) (fragmented_opcode r)
    (fragmented_message r) (utf8Validator r).

Definition set_inflate (r : Receiver) (s : z_stream) (init : bool)
  : Receiver :=
  mkReceiver (_cfg r) s (deflate_stream r) init (deflate_initialized r)
    (tx_compressed_buf r) (tx_payload_len r) (message_in_progress r)
    (compressed_message_in_progress r) (fragmented_opcode r)
    (fragmented_message r) (utf8Validator r).

Definition set_deflate (r : Receiver) (s : z_stream) (init : bool)
  : Receiver :=
  mkReceiver (_cfg r) (inflate_stream r) s (inflate_initialized r) init
    (tx_compressed_buf r) (tx_payload_len r) (message_in_progress r)
    (compressed_message_in_progress r) (fragmented_opcode r)
    (fragmented_message r) (utf8Validator r).

Definition set_tx_buf (r : Receiver) (b : list byte) : Receiver :=
  mkReceiver (_cfg r) (inflate_stream r) (deflate_stream r)
    (inflate_initialized r) (deflate_initialized r) b
    (tx_payload_len r) (message_in_progress r)
    (compressed_message_in_progress r) (fragmented_opcode r)
    (fragmented_message r) (utf8Validator r).

Definition set_tx_payload_len (r : Receiver) (n : Z) : Receiver :=
  mkReceiver (_cfg r) (inflate_stream r) (deflate_stream r)
    (inflate_initialized r) (deflate_initialized r) (tx_compressed_buf r)
    n (message_in_progress r)
    (compressed_message_in_progress r) (fragmented_opcode r)
    (fragmented_message r) (utf8Validator r).

(** the four members that hold a message under assembly *)
Definition set_fragments (r : Receiver) (in_progress compressed : bool)
           (opcode : Z) (msg : list byte) : Receiver :=
  mkReceiver (_cfg r) (inflate_stream r) (deflate_stream r)
    (inflate_initialized r) (deflate_initialized r) (tx_compressed_buf r)
    (tx_payload_len r) in_progress compressed opcode msg (utf8Validator r).

Definition set_fragmented_message (r : Receiver) (msg : list byte)
  : Receiver :=
  set_fragments r (message_in_progress r)
                (compressed_message_in_progress r) (fragmented_opcode r) msg.

Definition set_validator (r : Receiver) (v : V) : Receiver :=
  mkReceiver (_cfg r) (inflate_stream r) (deflate_stream r)
    (inflate_initialized r) (deflate_initialized r) (tx_compressed_buf r)
    (tx_payload_len r) (message_in_progress r)
    (compressed_message_in_progress r) (fragmented_opcode r)
    (fragmented_message r) v.

(** *** Compression set-up and tear-down *)

Definition shutdownCompression (r : Receiver) : Receiver :=
  let r1 := if inflate_initialized r
            then set_inflate r (zEnd (inflate_stream r)) false else r in
  let r2 := if deflate_initialized r1
            then set_deflate r1 (zEnd (deflate_stream r1)) false else r1 in
  set_cfg (set_tx_payload_len (set_tx_buf r2 []) 0) default_config.

Definition rxInitInflate (r : Receiver) : bool * Receiver :=
  let '(ret, s) :=
    inflateInit2 z_stream_zero [- server_max_window_bits (_cfg r)] in
  if negb (ret =? Z_OK)
  then (false, set_inflate r s (inflate_initialized r))
  else (true, set_inflate r s true).

(** the parameters of both [deflateInit2] calls *)
Definition deflate_params (c : PerMessageDeflateConfig) : list Z :=
  [compression_level c; Z_DEFLATED; - client_max_window_bits c; 8;
   Z_DEFAULT_STRATEGY].

Definition txInitDeflate (r : Receiver) : bool * Receiver :=
  let '(ret, s) := deflateInit2 z_stream_zero (deflate_params (_cfg r)) in
  if negb (ret =? Z_OK)
  then (false, set_deflate r s (deflate_initialized r))
  else (true, set_deflate r s true).

Definition initializeCompression (r : Receiver)
           (cfg : PerMessageDeflateConfig) : bool * Receiver :=
  let r1 := set_cfg (shutdownCompression r) cfg in
  if negb (enabled (_cfg r1)) then (true, r1)
  else
    let '(ok, r2) := rxInitInflate r1 in
    if negb ok then (false, shutdownCompression r2)
    else
      let '(ok', r3) := txInitDeflate r2 in
      if negb ok' then
        let r4 := if inflate_initialized r3
                  then set_inflate r3 (zEnd (inflate_stream r3)) false
                  else r3 in
        (false, shutdownCompression r4)
      else (true, r3).

Definition rxResetInflate (r : Receiver) : Receiver :=
  if negb (inflate_initialized r) then r
  else
    snd (rxInitInflate (set_inflate r (zEnd (inflate_stream r)) false)).

Definition txResetDeflate (r : Receiver) : Receiver :=
  if negb (deflate_initialized r) then r
  else set_deflate r (zReset (deflate_stream r)) (deflate_initialized r).

Definition txReinitAfterNoContextTakeover (r : Receiver)
  : bool * Receiver :=
  if negb (deflate_initialized r) then (false, r)
  else
    let '(init_ret, s) :=
      deflateInit2 z_stream_zero (deflate_params (_cfg r)) in
    if negb (init_ret =? Z_OK) then (false, set_deflate r s false)
    else (true, set_deflate r s true).

(** *** txDeflate *)

(** [v.resize(n)] on a byte vector: cut, or fill with zero bytes. *)
Definition resize (v : list byte) (n : Z) : list byte :=
  firstn (Z.to_nat n) v ++ repeat x00 (Z.to_nat n - length v).

(** bytes written through [next_out = v.data()] *)
Definition write_at_start (v written : list byte) : list byte :=
  written ++ skipn (length written) v.

(** What one round of the retry loop decides. *)
Inductive attempt_result :=
| Retry (r : Receiver)                (* [continue] *)
| Return_ (ok : bool) (r : Receiver). (* [return ok] *)

(** The body of [for (attempt = 0; attempt < 4; ++attempt)]. *)
Definition txDeflate_attempt (r : Receiver) (input : list byte)
           (attempt : Z) : attempt_result :=
  let r1 := txResetDeflate r in
  let extra := 64 * (attempt + 1) in
  let bound := to_size_t (deflateBound (deflate_stream r1) (len input)
                          + extra) in
  let r2 := set_tx_buf r1 (resize (tx_compressed_buf r1) bound) in
  let s := set_avail_out
             (set_in (deflate_stream r2) input (to_uInt (len input)))
             (to_uInt bound) in
  let '(ret, s', written) := deflate s Z_SYNC_FLUSH in
  let r3 := set_tx_buf (set_deflate r2 s' (deflate_initialized r2))
                       (write_at_start (tx_compressed_buf r2) written) in
  if negb (ret =? Z_OK) then
    if (ret =? Z_BUF_ERROR) || (avail_out s' =? 0) then Retry r3
    else Return_ false r3
  else
    let produced := to_size_t (bound - avail_out s') in
    if produced <? 4 then Retry r3
    else
      let n := Z.to_nat produced in
      if negb ((at_ (tx_compressed_buf r3) (n - 4) =? 0x00)
               && (at_ (tx_compressed_buf r3) (n - 3) =? 0x00)
               && (at_ (tx_compressed_buf r3) (n - 2) =? 0xFF)
               && (at_ (tx_compressed_buf r3) (n - 1) =? 0xFF))
      then Retry r3
      else
        let r4 := set_tx_payload_len r3 (produced - 4) in
        if client_no_context_takeover (_cfg r4) then
          let '(ok, r5) := txReinitAfterNoContextTakeover r4 in
          if negb ok then Return_ false r5 else Return_ true r5
        else Return_ true r4.

(** The loop, [remaining] rounds from round [attempt] on. *)
Fixpoint txDeflate_loop (remaining : nat) (r : Receiver)
         (input : list byte) (attempt : Z) : bool * Receiver :=
  match remaining with
  | O => (false, r)
  | S k =>
    match txDeflate_attempt r input attempt with
    | Retry r' => txDeflate_loop k r' input (attempt + 1)
    | Return_ ok r' => (ok, r')
    end
  end.

Definition txDeflate (r : Receiver) (input : list byte) : bool * Receiver :=
  if negb (deflate_initialized r) then (false, r)
  else txDeflate_loop 4 r input 0.

(** *** txPrepare *)

(** Where [payload_ptr] points when [txPrepare] returns. *)
Inductive payload_source := OriginalPayload | CompressedBuf.

Record prepared := mkPrepared {
  result : bool;
  payload_ptr : payload_source;
  payload_len : Z;
  do_compress : bool
}.

Definition txPrepare (r : Receiver) (original : list byte)
           (request_compress : bool) : prepared * Receiver :=
  let raw := mkPrepared true OriginalPayload (len original) false in
  if negb request_compress then (raw, r)
  else if negb (enabled (_cfg r)) then (raw, r)
  else if negb (deflate_initialized r) then (raw, r)
  else
    let '(ok, r') := txDeflate r original in
    if negb ok then (raw, r')
    else (mkPrepared true CompressedBuf (tx_payload_len r') true, r').

(** The bytes a frame is built from: [payload_len] bytes at
    [payload_ptr]. *)
Definition prepared_bytes (p : prepared) (r : Receiver)
           (original : list byte) : list byte :=
  match payload_ptr p with
  | OriginalPayload => firstn (Z.to_nat (payload_len p)) original
  | CompressedBuf =>
    firstn (Z.to_nat (payload_len p)) (tx_compressed_buf r)
  end.

(** *** rxInflate *)

(** [sizeof(tmp)] *)
Definition TMP_SIZE : Z := 4096.

(** The [while (true)] loop of [rxInflate].  Whether it ends depends on
    zlib, so the model counts the rounds: [None] means that [fuel] calls of
    [inflate] were not enough.  The result is the value returned, the stream
    and the contents of [out]. *)
Fixpoint rxInflate_loop (fuel : nat) (s : z_stream) (out : list byte)
  : option (bool * z_stream * list byte) :=
  match fuel with
  | O => None
  | S fuel' =>
    let '(ret, s', tmp) := inflate (set_avail_out s TMP_SIZE) Z_SYNC_FLUSH in
    if ret =? Z_BUF_ERROR then
      if avail_out s' =? 0 then rxInflate_loop fuel' s' out
      else if avail_in s' =? 0 then Some (true, s', out)
      else Some (false, s', out)
    else if negb (ret =? Z_OK) && negb (ret =? Z_STREAM_END) then
      Some (false, s', out)
    else
      let produced := TMP_SIZE - avail_out s' in
      let out' := if negb (produced =? 0)
                  then out ++ firstn (Z.to_nat produced) tmp else out in
      if ret =? Z_STREAM_END then Some (true, s', out')
      else if (avail_in s' =? 0) && negb (avail_out s' =? 0) then
        Some (true, s', out')
      else rxInflate_loop fuel' s' out'
  end.

(** the four bytes a SYNC_FLUSH block ends with *)
Definition sync_tail : list byte := [x00; x00; xff; xff].

(** The stream as [rxInflate] sets it up before the loop. *)
Definition rxInflate_stream (r : Receiver) (input : list byte) : z_stream :=
  let src := input ++ sync_tail in
  let s := if server_no_context_takeover (_cfg r)
           then zReset (inflate_stream r) else inflate_stream r in
  set_in s src (to_uInt (len src)).

Definition rxInflate (fuel : nat) (r : Receiver) (input : list byte)
  : option (bool * list byte * Receiver) :=
  if negb (enabled (_cfg r)) || negb (inflate_initialized r) then
    Some (true, input, r)
  else
    match rxInflate_loop fuel (rxInflate_stream r input) [] with
    | None => None
    | Some (ok, s', out) =>
      Some (ok, out, set_inflate r s' (inflate_initialized r))
    end.

Definition decompressMessage := rxInflate.

Definition rxMaybeResetAfterMessage (r : Receiver) : Receiver :=
  if enabled (_cfg r) && server_no_context_takeover (_cfg r)
  then rxResetInflate r else r.

(** *** Frame handlers

    Each handler takes the receiver and the sink and gives them back;
    [None] only when an [rxInflate] inside ran out of [fuel]. *)

Definition handleContinuationFrame (fuel : nat) (r : Receiver) (s : Sink)
           (payload : list byte) (fin : bool) : option (Receiver * Sink) :=
  if negb (message_in_progress r) then
    Some (r, onRxProtocolError 1002
               "continuation frame without initial frame" s)
  else
    let r1 := set_fragmented_message r (fragmented_message r ++ payload) in
    (* incremental validation of an uncompressed text message *)
    let chunk :=
      if negb (compressed_message_in_progress r1)
         && (fragmented_opcode r1 =? 0x01)
      then validateChunk (utf8Validator r1) payload
      else (true, utf8Validator r1) in
    if negb (fst chunk) then
      Some (set_validator r1 reset,
            onRxProtocolError 1007 "Invalid UTF-8 in text message" s)
    else
      let r2 := set_validator r1 (snd chunk) in
      if negb fin then Some (r2, s)
      else
        let inflated :=
          if compressed_message_in_progress r2 then
            match decompressMessage fuel r2 (fragmented_message r2) with
            | None => None
            | Some (ok, output, r') =>
              if negb ok then Some (inl (set_validator r' reset))
              else Some (inr (rxMaybeResetAfterMessage
                                (set_fragmented_message r' output)))
            end
          else Some (inr r2) in
        match inflated with
        | None => None
        | Some (inl r') =>
          Some (r', onRxProtocolError 1007 "Decompression failed" s)
        | Some (inr r3) =>
          if fragmented_opcode r3 =? 0x01 then
            let '(ok, v) :=
              if compressed_message_in_progress r3 then
                let '(ok1, v1) :=
                  validateChunk reset (fragmented_message r3) in
                if ok1 then validateFinal v1 else (false, v1)
              else validateFinal (utf8Validator r3) in
            if negb ok then
              Some (set_validator r3 reset,
                    onRxProtocolError 1007 "Invalid UTF-8 in text message" s)
            else
              Some (set_fragments (set_validator r3 reset) false false 0 [],
                    onRxText (fragmented_message r3) s)
          else if fragmented_opcode r3 =? 0x02 then
            Some (set_fragments r3 false false 0 [],
                  onRxBinary (fragmented_message r3) s)
          else
            Some (r3, onRxProtocolError 1002 "Unknown fragmented opcode" s)
        end.

Definition handleDataFrame (fuel : nat) (r : Receiver) (s : Sink)
           (payload : list byte) (fin : bool) (opcode : Z) (rsv1 : bool)
  : option (Receiver * Sink) :=
  if message_in_progress r then
    Some (r, onRxProtocolError 1002
               "Received new data frame when expecting continuation frame" s)
  else
    let compressed := rsv1 && rxCompressionEnabled s in
    if negb fin then
      let r1 := set_fragments r true compressed opcode payload in
      if (opcode =? 0x01) && negb (compressed_message_in_progress r1) then
        let '(ok, v) := validateChunk reset payload in
        if negb ok then
          Some (set_validator r1 reset,
                onRxProtocolError 1007 "Invalid UTF-8 in text message" s)
        else Some (set_validator r1 v, s)
      else Some (r1, s)
    else
      (* single unfragmented message *)
      let inflated :=
        if compressed then
          match decompressMessage fuel r payload with
          | None => None
          | Some (ok, decompressed, r') =>
            if negb ok then Some (inl r')
            else Some (inr (decompressed, rxMaybeResetAfterMessage r'))
          end
        else Some (inr (payload, r)) in
      match inflated with
      | None => None
      | Some (inl r') =>
        Some (r', onRxProtocolError 1007 "Decompression failed" s)
      | Some (inr (msg, r1)) =>
        if opcode =? 0x01 then
          let '(ok, v) :=
            let '(ok1, v1) := validateChunk reset msg in
            if ok1 then validateFinal v1 else (false, v1) in
          if negb ok then
            Some (set_validator r1 reset,
                  onRxProtocolError 1007 "Invalid UTF-8 in text message" s)
          else Some (set_validator r1 v, onRxText msg s)
        else if opcode =? 0x02 then Some (r1, onRxBinary msg s)
        else Some (r1, onRxProtocolError 1002 "Unsupported opcode" s)
      end.

(** The code and reason [handleCloseFrame] hands to [onRxClose]. *)
Definition close_code_valid (c : Z) : bool :=
  ((1000 <=? c) && (c <=? 1011)
   && negb (c =? 1004) && negb (c =? 1005) && negb (c =? 1006))
  || ((3000 <=? c) && (c <=? 4999)).

Definition sanitize_close (payload : list byte) : Z * list byte :=
  let payload_len := len payload in
  (* (close_code, close_reason, protocol_error) *)
  let '(close_code, close_reason, protocol_error) :=
    if 125 <? payload_len then (1002, [], true)
    else if payload_len =? 1 then (1002, [], true)
    else if 2 <=? payload_len then
      let received := load_be16 payload in
      let '(code1, err1) :=
        if negb (close_code_valid received) then (1002, true)
        else (received, false) in
      if 2 <? payload_len then
        let reason_ptr := skipn 2 payload in
        let reason_len := payload_len - 2 in
        let reason_len := if 123 <? reason_len then 123 else reason_len in
        if negb (isValidUtf8 reason_ptr (Z.to_nat reason_len))
        then (1002, [], true)
        else (code1, firstn (Z.to_nat reason_len) reason_ptr, err1)
      else (code1, [], err1)
    else (1000, [], false) in
  let reply_code := if protocol_error then 1002 else close_code in
  let reply_reason := if protocol_error then [] else close_reason in
  (to_uint16 reply_code, reply_reason).

Definition handleCloseFrame (r : Receiver) (s : Sink) (payload : list byte)
  : Receiver * Sink :=
  let '(code, reason) := sanitize_close payload in
  (r, onRxClose code reason s).

Definition handlePingFrame (r : Receiver) (s : Sink) (payload : list byte)
  : Receiver * Sink :=
  if 125 <? len payload then
    (r, onRxProtocolError 1002 "Control frame payload too large" s)
  else (r, onRxPing payload s).

(** *** onData *)

(** [std::vector<uint8_t>::max_size()]: [reserve] beyond it throws
    [std::length_error]. *)
Definition VECTOR_MAX_SIZE : Z := 2 ^ 63 - 1.

(** [evbuffer_pullup(buf, need)] of libevent gives the first [need] bytes
    of the buffer, and NULL when [need] is zero or more than is buffered;
    running out of memory is not modelled.

    How [onData] ends: it returns (by [return] or by leaving the loop), or
    [payload.reserve] throws.  In both cases the receiver, the sink and the
    bytes left in the evbuffer are given. *)
Inductive onData_exit := Returned | ThrewLengthError.

Record onData_result := mkResultData {
  exit : onData_exit;
  receiver_after : Receiver;
  sink_after : Sink;
  buffer_after : list byte
}.

(** One round of the [for (;;)] loop. *)
Inductive round :=
| NextFrame (r : Receiver) (s : Sink) (buf : list byte)
| Stop (res : onData_result).

Definition stop (r : Receiver) (s : Sink) (buf : list byte) : round :=
  Stop (mkResultData Returned r s buf).

(** The header fields read from the first two bytes. *)
Definition hdr_fin (hdr : list byte) : bool :=
  negb (Z.land (at_ hdr 0) 0x80 =? 0).
Definition hdr_rsv1 (hdr : list byte) : bool :=
  negb (Z.land (at_ hdr 0) 0x40 =? 0).
Definition hdr_rsv2 (hdr : list byte) : bool :=
  negb (Z.land (at_ hdr 0) 0x20 =? 0).
Definition hdr_rsv3 (hdr : list byte) : bool :=
  negb (Z.land (at_ hdr 0) 0x10 =? 0).
Definition hdr_opcode (hdr : list byte) : Z := Z.land (at_ hdr 0) 0x0F.
Definition hdr_mask (hdr : list byte) : bool :=
  negb (Z.land (at_ hdr 1) 0x80 =? 0).
Definition hdr_len7 (hdr : list byte) : Z := Z.land (at_ hdr 1) 0x7F.

Definition onData_round (fuel : nat) (r : Receiver) (s : Sink)
           (buf : list byte) : option round :=
  if rxIsTerminating s then Some (stop r s buf)
  else
    let data_len := len buf in
    if data_len <? 2 then Some (stop r s buf)
    else
      let hdr := firstn 14 buf in
      let fin := hdr_fin hdr in
      let rsv1 := hdr_rsv1 hdr in
      let rsv2 := hdr_rsv2 hdr in
      let rsv3 := hdr_rsv3 hdr in
      let opcode := hdr_opcode hdr in
      let mask := hdr_mask hdr in
      let payload_len := hdr_len7 hdr in
      if (negb (rxCompressionEnabled s) && rsv1) || rsv2 || rsv3 then
        Some (stop r (onRxProtocolError 1002 "Unexpected RSV bits" s) buf)
      else if negb (Z.land opcode 0x08 =? 0) && negb fin then
        Some (stop r (onRxProtocolError 1002 "Control frame fragmented" s)
                   buf)
      else if mask then
        Some (stop r (onRxProtocolError 1002 "Masked frame from server" s)
                   buf)
      else
        (* [Some (header_len, payload_len)], or [None] for [break] *)
        let lengths :=
          if payload_len =? 126 then
            if data_len <? 2 + 2 then None
            else Some (2 + 2, load_be16 (skipn 2 hdr))
          else if payload_len =? 127 then
            if data_len <? 2 + 8 then None
            else Some (2 + 8, load_be64 (skipn 2 hdr))
          else Some (2, payload_len) in
        match lengths with
        | None => Some (stop r s buf)
        | Some (header_len, payload_len) =>
          if negb (Z.land opcode 0x08 =? 0) && (125 <? payload_len) then
            Some (stop r (onRxProtocolError 1002
                            "Control frame payload too large" s) buf)
          else
            let need := to_size_t (header_len + to_size_t payload_len) in
            if data_len <? need then Some (stop r s buf)
            else if need =? 0 then
              (* [evbuffer_pullup(buf, 0)] is NULL *)
              Some (stop r (onRxProtocolError 1002
                              "Failed to pullup frame buffer" s) buf)
            else if VECTOR_MAX_SIZE <? to_size_t payload_len then
              Some (Stop (mkResultData ThrewLengthError r s buf))
            else
              let payload :=
                firstn (Z.to_nat (to_size_t payload_len))
                       (skipn (Z.to_nat header_len) buf) in
              let rest := skipn (Z.to_nat need) buf in
              let handled :=
                if opcode =? 0x00 then
                  option_map Some (handleContinuationFrame fuel r s payload fin)
                else if (opcode =? 0x01) || (opcode =? 0x02) then
                  option_map Some
                    (handleDataFrame fuel r s payload fin opcode rsv1)
                else if opcode =? 0x08 then
                  Some (Some (handleCloseFrame r s payload))
                else if opcode =? 0x09 then
                  Some (Some (handlePingFrame r s payload))
                else if opcode =? 0x0A then Some (Some (r, s))
                else Some None in
              match handled with
              | None => None
              | Some None =>
                Some (stop r (onRxProtocolError 1002 "Unsupported opcode" s)
                           buf)
              | Some (Some (r', s')) => Some (NextFrame r' s' rest)
              end
        end.

(** The loop.  A round that goes on has drained at least two bytes, so
    [rounds] never runs out when it starts at the length of the buffer
    ([onData_rounds_enough]). *)
Fixpoint onData_loop (rounds fuel : nat) (r : Receiver) (s : Sink)
         (buf : list byte) : option onData_result :=
  match rounds with
  | O => Some (mkResultData Returned r s buf)
  | S k =>
    match onData_round fuel r s buf with
    | None => None
    | Some (Stop res) => Some res
    | Some (NextFrame r' s' buf') => onData_loop k fuel r' s' buf'
    end
  end.

Definition onData (fuel : nat) (r : Receiver) (s : Sink) (buf : list byte)
  : option onData_result :=
  onData_loop (length buf) fuel r s buf.

End Receiver.

(* ===================================================================== *)
(** ** A small zlib for examples *)
(* ===================================================================== *)

(** An instance of [Zlib] that only emits stored blocks, as zlib does at
    compression level 0: enough to run the receiver on concrete messages.
    [deflate] writes one stored block with the input and, for a SYNC_FLUSH,
    the empty stored block [00 00 00 FF FF]; it answers [Z_BUF_ERROR] when
    that does not fit.  [inflate] reads stored blocks. *)
Definition stored_block (m : list byte) : list byte :=
  match m with
  | [] => []
  | _ =>
    let n := len m in
    [x00; byte_of_Z (n mod 256); byte_of_Z ((n / 256) mod 256);
     byte_of_Z (255 - n mod 256); byte_of_Z (255 - (n / 256) mod 256)] ++ m
  end.

Definition stored_deflate (params : list Z) (calls : list zcall)
           (c : zcall) : zresult :=
  let out := stored_block (zc_in c)
             ++ (if zc_flush c =? Z_SYNC_FLUSH then x00 :: sync_tail else [])
  in
  if len out <=? zc_avail_out c then mkResult Z_OK (len (zc_in c)) out
  else mkResult Z_BUF_ERROR 0 [].

Fixpoint stored_parse (fuel : nat) (l : list byte) : option (list byte) :=
  match fuel with
  | O => match l with [] => Some [] | _ => None end
  | S k =>
    match l with
    | [] => Some []
    | h :: lo :: hi :: nlo :: nhi :: t =>
      let n := byte_val lo + 256 * byte_val hi in
      if (byte_val h =? 0) && (byte_val nlo =? 255 - byte_val lo)
         && (byte_val nhi =? 255 - byte_val hi) && (n <=? len t)
      then
        match stored_parse k (skipn (Z.to_nat n) t) with
        | Some o => Some (firstn (Z.to_nat n) t ++ o)
        | None => None
        end
      else None
    | _ => None
    end
  end.

Definition stored_inflate (params : list Z) (calls : list zcall)
           (c : zcall) : zresult :=
  match zc_in c with
  | [] => mkResult Z_BUF_ERROR 0 []
  | _ =>
    match stored_parse (length (zc_in c)) (zc_in c) with
    | Some o =>
      if len o <=? zc_avail_out c then mkResult Z_OK (len (zc_in c)) o
      else mkResult Z_DATA_ERROR 0 []
    | None => mkResult Z_DATA_ERROR 0 []
    end
  end.

#[export] Instance StoredZlib : Zlib := {
  deflateInit2_ret _ := Z_OK;
  inflateInit2_ret _ := Z_OK;
  deflateBound_alg _ _ n := n + 5;
  deflate_alg := stored_deflate;
  inflate_alg := stored_inflate
}.

(** A receiver over the recording sink, the incremental validator and the
    small zlib, with permessage-deflate negotiated. *)
Definition deflate_config : PerMessageDeflateConfig :=
  mkConfig true false false 15 15 6.

Definition example_receiver : WebSocketReceiver (list byte) :=
  snd (initializeCompression (new_receiver []) deflate_config).

Definition plain_sink : Recorder := mkRecorder false false [].
Definition deflate_sink : Recorder := mkRecorder true false [].

(** ["Hello"] *)
Definition hello : list byte := [x48; x65; x6c; x6c; x6f].

(* ===================================================================== *)
(** ** Vocabulary of the properties *)
(* ===================================================================== *)

(** The classes of a first byte in RFC 3629, section 4. *)
Definition ascii_byte (b : byte) : Prop := byte_val b <= 0x7F.
Definition lead2 (b : byte) : Prop := 0xC2 <= byte_val b <= 0xDF.
Definition lead3 (b : byte) : Prop := 0xE0 <= byte_val b <= 0xEF.
Definition lead4 (b : byte) : Prop := 0xF0 <= byte_val b <= 0xF4.
(** no sequence starts with such a byte *)
Definition never_first (b : byte) : Prop :=
  0x80 <= byte_val b <= 0xC1 \/ 0xF5 <= byte_val b.
(** a continuation byte *)
Definition cont (b : byte) : Prop := 0x80 <= byte_val b <= 0xBF.

(** the number of bytes of the sequence a first byte announces (0 when no
    sequence starts with it) *)
Definition sequence_length (b : byte) : nat :=
  if byte_val b <=? 0x7F then 1
  else if (0xC2 <=? byte_val b) && (byte_val b <=? 0xDF) then 2
  else if (0xE0 <=? byte_val b) && (byte_val b <=? 0xEF) then 3
  else if (0xF0 <=? byte_val b) && (byte_val b <=? 0xF4) then 4
  else 0.

(** *** Frames in the evbuffer *)

(** The frame at the head of the buffer, as [onData] reads it: the length
    of its header, the payload length the header gives, its payload, and the
    bytes after it. *)
Definition frame_header_len (buf : list byte) : Z :=
  if hdr_len7 buf =? 126 then 4 else if hdr_len7 buf =? 127 then 10 else 2.

Definition frame_payload_len (buf : list byte) : Z :=
  if hdr_len7 buf =? 126 then load_be16 (skipn 2 buf)
  else if hdr_len7 buf =? 127 then load_be64 (skipn 2 buf)
  else hdr_len7 buf.

Definition frame_payload (buf : list byte) : list byte :=
  firstn (Z.to_nat (frame_payload_len buf))
         (skipn (Z.to_nat (frame_header_len buf)) buf).

Definition frame_rest (buf : list byte) : list byte :=
  skipn (Z.to_nat (frame_header_len buf + frame_payload_len buf)) buf.

(** The whole frame is in the buffer (a buffer in memory, so no longer
    than [PTRDIFF_MAX]). *)
Definition frame_buffered (buf : list byte) : Prop :=
  frame_header_len buf + frame_payload_len buf <= len buf
  /\ len buf <= VECTOR_MAX_SIZE.

(** a control opcode: the high bit of the four is set *)
Definition is_control (opcode : Z) : bool := negb (Z.land opcode 0x08 =? 0).

Definition known_opcode (opcode : Z) : bool :=
  (opcode =? 0) || (opcode =? 1) || (opcode =? 2)
  || (opcode =? 8) || (opcode =? 9) || (opcode =? 10).

(** The six header rules of section 4.C, on the frame at the head of the
    buffer; [compression] is what [rxCompressionEnabled] answers. *)
Definition header_violation (compression : bool) (buf : list byte) : Prop :=
  hdr_rsv2 buf = true \/ hdr_rsv3 buf = true
  \/ (hdr_rsv1 buf = true /\ compression = false)
  \/ hdr_mask buf = true
  \/ (is_control (hdr_opcode buf) = true /\ hdr_fin buf = false)
  \/ (is_control (hdr_opcode buf) = true /\ 125 < frame_payload_len buf)
  \/ known_opcode (hdr_opcode buf) = false.

(** the reasons [onData] gives with close code 1002 *)
Definition header_error_reasons : list string :=
  ["Unexpected RSV bits"; "Control frame fragmented";
   "Masked frame from server"; "Control frame payload too large";
   "Unsupported opcode"]%string.

(** *** Close frames, in the words of section 4.F *)

Definition permitted_close_code (c : Z) : Prop :=
  (1000 <= c <= 1011 /\ c <> 1004 /\ c <> 1005 /\ c <> 1006)
  \/ 3000 <= c <= 4999.

(** [close_sanitized payload code reason]: the pair the specification
    derives from a close payload. *)
Inductive close_sanitized : list byte -> Z -> list byte -> Prop :=
| close_empty : close_sanitized [] 1000 []
| close_one_byte b : close_sanitized [b] 1002 []
| close_rejected b0 b1 rest :
    ~ permitted_close_code (byte_val b0 * 256 + byte_val b1)
    \/ ~ well_formed_utf8 (firstn 123 rest) ->
    close_sanitized (b0 :: b1 :: rest) 1002 []
| close_accepted b0 b1 rest :
    permitted_close_code (byte_val b0 * 256 + byte_val b1) ->
    well_formed_utf8 (firstn 123 rest) ->
    close_sanitized (b0 :: b1 :: rest)
                    (byte_val b0 * 256 + byte_val b1) (firstn 123 rest).

(** *** Messages as sequences of frames *)

(** A data or continuation frame as [onData] hands it to its handler. *)
Inductive message_frame :=
| Data (opcode : Z) (rsv1 fin : bool) (payload : list byte)
| Continuation (fin : bool) (payload : list byte).

Section Frames.
Context {V : Type} {validator : Utf8Validator V}.
Context {zlib : Zlib}.
Context {Sink : Type} {sinks : IWebSocketSinks Sink}.

Definition handle_frame (fuel : nat) (r : WebSocketReceiver V) (s : Sink)
           (f : message_frame) : option (WebSocketReceiver V * Sink) :=
  match f with
  | Data opcode rsv1 fin payload =>
    handleDataFrame fuel r s payload fin opcode rsv1
  | Continuation fin payload => handleContinuationFrame fuel r s payload fin
  end.

(** The handlers on the frames of a list, in order. *)
Fixpoint handle_frames (fuel : nat) (r : WebSocketReceiver V) (s : Sink)
         (fs : list message_frame) : option (WebSocketReceiver V * Sink) :=
  match fs with
  | [] => Some (r, s)
  | f :: fs' =>
    match handle_frame fuel r s f with
    | Some (r', s') => handle_frames fuel r' s' fs'
    | None => None
    end
  end.

(** The validator fed chunk after chunk, stopping at the first chunk it
    refuses. *)
Fixpoint validate_chunks (v : V) (chunks : list (list byte)) : bool * V :=
  match chunks with
  | [] => (true, v)
  | c :: cs =>
    let '(ok, v') := validateChunk v c in
    if ok then validate_chunks v' cs else (false, v')
  end.

(** the validator run on one whole message: the chunks, then [finish] *)
Definition validate_message (chunks : list (list byte)) : bool :=
  let '(ok, v) := validate_chunks reset chunks in
  if ok then fst (validateFinal v) else false.
End Frames.

(** The frames that carry the chunks of one message: the first chunk in a
    data frame, the others in continuation frames, FIN on the last one
    when [complete]. *)
Fixpoint continuation_frames (complete : bool) (chunks : list (list byte))
  : list message_frame :=
  match chunks with
  | [] => []
  | [c] => [Continuation complete c]
  | c :: cs => Continuation false c :: continuation_frames complete cs
  end.

Definition message_frames (opcode : Z) (rsv1 complete : bool)
           (chunks : list (list byte)) : list message_frame :=
  match chunks with
  | [] => []
  | [c] => [Data opcode rsv1 complete c]
  | c :: cs => Data opcode rsv1 false c :: continuation_frames complete cs
  end.

(** *** Example states and inputs *)


(** a close payload of 126 bytes: code 1000 and 124 times the letter a *)
Definition long_close_payload : list byte :=
  [x03; xe8] ++ repeat x61 124.

(** a text frame from the server with MASK and RSV2 set (scenario 5 of the
    specification): header A1 85, a mask key, five payload bytes *)
Definition masked_rsv2_frame : list byte :=
  [xa1; x85; x01; x02; x03; x04; x49; x67; x6f; x68; x6e].

Definition close_frame : list byte := [x88; x02; x03; xe8].
(** a continuation frame and a text frame, each with payload ["Hello"] *)
Definition continuation_frame : list byte := [x80; x05] ++ hello.
Definition text_frame : list byte := [x81; x05] ++ hello.

(** *** Outbound compression, in the words of section 4.D

    "Take the full message payload; run a single SYNC_FLUSH step producing
    a raw deflate block; verify the output ends in the 4-byte tail; strip
    that tail.  If the output buffer estimate (library bound + slack) proves
    insufficient, retry with progressively larger buffers." *)

Section DeflateSpec.
Context {zlib : Zlib}.

(** the room of attempt [k]: the library bound and 64, 128, 192, 256 bytes
    of slack *)
Definition slack (k : Z) : Z := 64 * (k + 1).

Definition tx_room (params : list Z) (n k : Z) : Z :=
  to_size_t (deflateBound_alg params [] n) + slack k.

(** One SYNC_FLUSH step on the whole payload by a stream without history:
    the return code and the bytes written. *)
Definition sync_flush_step (params : list Z) (input : list byte) (k : Z)
  : Z * list byte :=
  let room := tx_room params (len input) k in
  let res := deflate_alg params [] (mkCall input room Z_SYNC_FLUSH) in
  (zr_ret res, firstn (Z.to_nat room) (zr_out res)).

Definition ends_with_sync_tail (w : list byte) : bool :=
  if list_eq_dec Byte.byte_eq_dec (skipn (length w - 4) w) sync_tail
  then true else false.

Inductive attempt_verdict :=
| Accept (payload : list byte)  (* the output without its tail *)
| TryLarger
| GiveUp.

Definition judge (room : Z) (step : Z * list byte) : attempt_verdict :=
  let '(ret, written) := step in
  if negb (ret =? Z_OK) then
    if (ret =? Z_BUF_ERROR) || (len written =? room) then TryLarger
    else GiveUp
  else if len written <? 4 then TryLarger
  else if ends_with_sync_tail written
       then Accept (firstn (length written - 4) written)
       else TryLarger.

(** the verdict of the first attempt that does not ask for more room, among
    [remaining] attempts from attempt [k] on *)
Fixpoint first_verdict (remaining : nat) (params : list Z)
         (input : list byte) (k : Z) : attempt_verdict :=
  match remaining with
  | O => TryLarger
  | S m =>
    match judge (tx_room params (len input) k)
                (sync_flush_step params input k) with
    | TryLarger => first_verdict m params input (k + 1)
    | v => v
    end
  end.

(** The payload and its bound fit zlib's 32-bit [avail_in] and
    [avail_out]. *)
Definition fits_uInt (params : list Z) (input : list byte) : Prop :=
  len input < 2 ^ UINT_BITS
  /\ to_size_t (deflateBound_alg params [] (len input)) + 256
     < 2 ^ UINT_BITS.
End DeflateSpec.

Section TransmitSpec.
Context {V : Type} {zlib : Zlib}.

(** the receiver keeps its configuration and an initialised deflate stream
    with the same parameters *)
Definition tx_kept (r r' : WebSocketReceiver V) : Prop :=
  _cfg r' = _cfg r
  /\ deflate_initialized r' = true
  /\ zs_params (deflate_stream r') = zs_params (deflate_stream r).

(** the stream [deflateInit2] leaves after [memset] *)
Definition fresh_deflate_stream (c : PerMessageDeflateConfig) : z_stream :=
  mkStream (deflate_params c) [] [] 0 0.

(** What [txDeflate] does on [input], told from the verdict of the
    attempts: when attempt [j] is accepted, the attempts before it asked for
    more room, attempt [j] was one SYNC_FLUSH step that answered [Z_OK] and
    wrote [payload] followed by the tail, the transmit buffer starts with
    [payload] and [tx_payload_len] is its length; the stream then holds this
    one call, or is initialised anew when [client_no_context_takeover] is
    set.  Otherwise [txDeflate] returns false. *)
Definition txDeflate_outcome (r : WebSocketReceiver V) (input : list byte)
  : Prop :=
  let p := zs_params (deflate_stream r) in
  match first_verdict 4 p input 0 with
  | Accept payload =>
    exists r4 j,
      0 <= j <= 3
      /\ (forall i, 0 <= i < j ->
            judge (tx_room p (len input) i) (sync_flush_step p input i)
            = TryLarger)
      /\ sync_flush_step p input j = (Z_OK, payload ++ sync_tail)
      /\ tx_kept r r4
      /\ zs_calls (deflate_stream r4)
         = [mkCall input (tx_room p (len input) j) Z_SYNC_FLUSH]
      /\ tx_payload_len r4 = len payload
      /\ firstn (length payload) (tx_compressed_buf r4) = payload
      /\ (client_no_context_takeover (_cfg r) = false ->
          txDeflate r input = (true, r4))
      /\ (client_no_context_takeover (_cfg r) = true ->
          (deflateInit2_ret (deflate_params (_cfg r)) = Z_OK ->
           txDeflate r input
           = (true, set_deflate r4 (fresh_deflate_stream (_cfg r)) true))
          /\ (deflateInit2_ret (deflate_params (_cfg r)) <> Z_OK ->
              txDeflate r input
              = (false, set_deflate r4 z_stream_zero false)))
  | _ => fst (txDeflate r input) = false
  end.

(** the receiver after [txDeflate] on each message of a list, in order *)
Definition compress_all (r : WebSocketReceiver V) (ms : list (list byte))
  : WebSocketReceiver V :=
  fold_left (fun r m => snd (txDeflate r m)) ms r.

(** the bytes [txPrepare] would frame after a successful [txDeflate] *)
Definition compressed_bytes (r : WebSocketReceiver V) : list byte :=
  firstn (Z.to_nat (tx_payload_len r)) (tx_compressed_buf r).
End TransmitSpec.

(** *** Inbound decompression *)




(** *** Text messages *)

(** the error a text message that is not UTF-8 is answered with *)
Definition invalid_utf8 {Sink : Type} {sinks : IWebSocketSinks Sink}
           (s : Sink) : Sink :=
  onRxProtocolError 1007 "Invalid UTF-8 in text message" s.

Definition decompression_failed {Sink : Type} {sinks : IWebSocketSinks Sink}
           (s : Sink) : Sink :=
  onRxProtocolError 1007 "Decompression failed" s.

(** an uncompressed text message is under assembly: the one state in which
    the handlers read the validator without resetting it first *)
Definition validator_live {V : Type} (r : WebSocketReceiver V) : Prop :=
  message_in_progress r = true
  /\ compressed_message_in_progress r = false
  /\ fragmented_opcode r = 1.

(** two receivers that differ at most in a validator state that will not be
    read *)
Definition same_but_validator {V : Type} (r r' : WebSocketReceiver V)
  : Prop :=
  exists v, r' = set_validator r v /\ (validator_live r -> v = utf8Validator r).

(* ===================================================================== *)
(** ** Example messages *)
(* ===================================================================== *)

(** Scenario 3 of the specification: a text message in three fragments,
    with the four bytes F0 9F 98 80 of one character split between the
    second and the third. *)
Definition straddling_chunks : list (list byte) :=
  [[x48; x69; x20]; [x3a; xf0; x9f]; [x98; x80; x21]].

(** the same message as the server sends it: three frames, FIN on the
    last *)
Definition straddling_frames : list byte :=
  [x01; x03; x48; x69; x20] ++ [x00; x03; x3a; xf0; x9f]
  ++ [x80; x03; x98; x80; x21].

(** Scenario 4: a close frame with code 1005 *)
Definition close_1005_frame : list byte := [x88; x02; x03; xed].

(** ["Hello"] as a stored block, without the four bytes the sender
    removes *)
Definition hello_compressed : list byte :=
  [x00; x05; x00; xfa; xff] ++ hello ++ [x00].

(** A zlib whose [inflate] makes no progress: it answers [Z_BUF_ERROR],
    takes nothing and writes nothing. *)
Definition StallingZlib : Zlib := {|
  deflateInit2_ret _ := Z_OK;
  inflateInit2_ret _ := Z_OK;
  deflateBound_alg _ _ n := n + 5;
  deflate_alg := stored_deflate;
  inflate_alg _ _ _ := mkResult Z_BUF_ERROR 0 []
|}.

(* ===================================================================== *)
(** ** Tactics *)
(* ===================================================================== *)

Ltac bools :=
  repeat match goal with
  | H : _ && _ = true |- _ => apply andb_true_iff in H; destruct H
  | H : _ || _ = false |- _ => apply orb_false_iff in H; destruct H
  | H : negb _ = true |- _ => apply negb_true_iff in H
  | H : negb _ = false |- _ => apply negb_false_iff in H
  | H : (_ <=? _) = true |- _ => apply Z.leb_le in H
  | H : (_ <=? _) = false |- _ => apply Z.leb_gt in H
  | H : (_ <? _) = true |- _ => apply Z.ltb_lt in H
  | H : (_ <? _) = false |- _ => apply Z.ltb_ge in H
  | H : (_ =? _) = true |- _ => apply Z.eqb_eq in H
  | H : (_ =? _) = false |- _ => apply Z.eqb_neq in H
  end.

Ltac falses :=
  bools;
  repeat match goal with
  | H : _ && _ = false |- _ => apply andb_false_iff in H; destruct H
  | H : _ || _ = true |- _ => apply orb_true_iff in H; destruct H
  end; bools.

Ltac split_cmp :=
  repeat match goal with
  | |- context [?a <=? ?b] => destruct (Z.leb_spec a b)
  | |- context [?a <? ?b] => destruct (Z.ltb_spec a b)
  | |- context [?a =? ?b] => destruct (Z.eqb_spec a b)
  end.

Ltac cmp_lia :=
  repeat match goal with
  | |- context [?a <=? ?b] =>
    first [ rewrite (proj2 (Z.leb_le a b)) by lia
          | rewrite (proj2 (Z.leb_gt a b)) by lia ]
  | |- context [?a <? ?b] =>
    first [ rewrite (proj2 (Z.ltb_lt a b)) by lia
          | rewrite (proj2 (Z.ltb_ge a b)) by lia ]
  | |- context [?a =? ?b] =>
    first [ rewrite (proj2 (Z.eqb_eq a b)) by lia
          | rewrite (proj2 (Z.eqb_neq a b)) by lia ]
  end.

Ltac nat_cmp :=
  repeat match goal with
  | |- context [(?a <=? ?b)%nat] =>
    first [ rewrite (proj2 (Nat.leb_le a b)) by (cbn [length]; lia)
          | rewrite (proj2 (Nat.leb_gt a b)) by (cbn [length]; lia) ]
  end.

Ltac split_ifs :=
  repeat (match goal with
          | |- context [if ?c then _ else _] => destruct c eqn:?
          end;
          cbn [negb fst snd set_deflate set_tx_buf set_tx_payload_len _cfg
               deflate_initialized deflate_stream zs_params zs_calls]).

Ltac sim_done :=
  eexists; split; [reflexivity|];
  eexists; split; [reflexivity|];
  unfold validator_live;
  cbn [set_inflate set_fragmented_message set_fragments set_validator
       compressed_message_in_progress fragmented_opcode utf8Validator
       message_in_progress fragmented_message];
  intros (? & ? & ?); try congruence; try reflexivity;
  try match goal with
      | H : validator_live _ -> _ |- _ =>
        apply H; repeat split; assumption
      end.

Ltac fields :=
  cbn [set_inflate set_fragmented_message set_fragments set_validator
       _cfg inflate_stream inflate_initialized
       compressed_message_in_progress fragmented_opcode utf8Validator
       message_in_progress fragmented_message].


(* ===================================================================== *)
(** ** Further code of the library and vocabulary of further properties *)
(* ===================================================================== *)

Unset Implicit Arguments.

(** *** The macro htonll (WebSocketReceiver.h)

    [htonll(x)] is [x] when [htonl(1) == 1] and
    [((uint64_t)htonl(x & 0xFFFFFFFF) << 32) | htonl(x >> 32)] otherwise;
    [ntohll] is the same macro.  [htonl] is the C library's: on a 32-bit
    value it reverses the four bytes on a little-endian host and is the
    identity on a big-endian one. *)
Definition to_uint32 (x : Z) : Z := x mod 2 ^ 32.
Definition to_uint64 (x : Z) : Z := x mod 2 ^ 64.

Definition bswap32 (x : Z) : Z :=
  (x mod 256) * 2 ^ 24 + (x / 2 ^ 8 mod 256) * 2 ^ 16
  + (x / 2 ^ 16 mod 256) * 2 ^ 8 + x / 2 ^ 24 mod 256.

Definition htonl (little_endian : bool) (x : Z) : Z :=
  if little_endian then bswap32 x else x.

Definition htonll (little_endian : bool) (x : Z) : Z :=
  if 1 =? htonl little_endian 1 then x
  else
    Z.lor (to_uint64
             (Z.shiftl (htonl little_endian (to_uint32 (Z.land x 0xFFFFFFFF)))
                       32))
          (htonl little_endian (to_uint32 (Z.shiftr x 32))).

Definition ntohll := htonll.

(** Eight bytes read as a little-endian number, and what
    [memcpy(&u64, p, 8)] leaves in [u64] on either kind of host. *)
Definition load_le64 (p : list byte) : Z :=
  fold_right (fun i acc => at_ p i + 256 * acc) 0 (seq 0 8).

Definition memcpy_u64 (little_endian : bool) (p : list byte) : Z :=
  if little_endian then load_le64 p else load_be64 p.

(** *** Vocabulary for onData *)

Section DispatchSpec.
Context {V : Type} {validator : Utf8Validator V}.
Context {zlib : Zlib}.
Context {Sink : Type} {sinks : IWebSocketSinks Sink}.

(** The [switch (opcode)] of [onData] on the frame at the head of the
    buffer, for the opcodes it knows. *)
Definition frame_handler (fuel : nat) (r : WebSocketReceiver V) (s : Sink)
           (buf : list byte) : option (WebSocketReceiver V * Sink) :=
  let payload := frame_payload buf in
  let opcode := hdr_opcode buf in
  if opcode =? 0x00 then
    handleContinuationFrame fuel r s payload (hdr_fin buf)
  else if (opcode =? 0x01) || (opcode =? 0x02) then
    handleDataFrame fuel r s payload (hdr_fin buf) opcode (hdr_rsv1 buf)
  else if opcode =? 0x08 then Some (handleCloseFrame r s payload)
  else if opcode =? 0x09 then Some (handlePingFrame r s payload)
  else Some (r, s).
End DispatchSpec.

(** a binary frame whose 64-bit length field is all ones *)
Definition oversized_length_frame : list byte :=
  [x82; x7f; xff; xff; xff; xff; xff; xff; xff; xff].

(** The members of the receiver the transmit path uses, and those the
    receive path uses; [_cfg] is read by both. *)
Definition transmit_state {V : Type} (r : WebSocketReceiver V) :=
  (deflate_stream r, deflate_initialized r, tx_compressed_buf r,
   tx_payload_len r).

Definition receive_state {V : Type} (r : WebSocketReceiver V) :=
  (inflate_stream r, inflate_initialized r, message_in_progress r,
   compressed_message_in_progress r, fragmented_opcode r,
   fragmented_message r, utf8Validator r).


(* ===================================================================== *)
(** ** WebSocketTLSContext (WebSocketTLSContext.cpp) *)
(* ===================================================================== *)

(** *** OpenSSL, as far as the class uses it

    A context ([SSL_CTX*]) or a connection object ([SSL*]) is a handle;
    NULL is [None].  The world records the calls made with their results,
    the contexts that are allocated and not yet freed, and whether a call
    was ever made on a context that is not live (use after free, double
    free).  What a call answers is OpenSSL's business: an oracle on the
    calls made so far. *)
Inductive ssl_event :=
| Ev_SSL_CTX_new (ret : option nat)
| Ev_SSL_CTX_set_options (ctx : nat) (options : Z)
| Ev_SSL_CTX_set_cipher_list (ctx : nat) (str : string) (ret : Z)
| Ev_SSL_CTX_set_verify (ctx : nat) (mode : Z)
| Ev_SSL_CTX_set_default_verify_paths (ctx : nat) (ret : Z)
| Ev_SSL_CTX_load_verify_locations (ctx : nat) (CAfile : string) (ret : Z)
| Ev_SSL_CTX_use_certificate_file (ctx : nat) (file : string) (type : Z)
                                  (ret : Z)
| Ev_SSL_CTX_use_PrivateKey_file (ctx : nat) (file : string) (type : Z)
                                 (ret : Z)
| Ev_SSL_CTX_check_private_key (ctx : nat) (ret : Z)
| Ev_SSL_CTX_free (ctx : nat)
| Ev_SSL_new (ctx : nat) (ret : option nat)
| Ev_ERR_get_error (ret : Z).

Record ssl_world := mkWorld {
  ssl_log : list ssl_event;
  ssl_live : list nat;
  ssl_next : nat;
  ssl_fault : bool
}.

Class OpenSSL := {
  SSL_CTX_new_ok : list ssl_event -> bool;
  SSL_CTX_set_cipher_list_ret : list ssl_event -> nat -> string -> Z;
  SSL_CTX_set_default_verify_paths_ret : list ssl_event -> nat -> Z;
  SSL_CTX_load_verify_locations_ret : list ssl_event -> nat -> string -> Z;
  SSL_CTX_use_certificate_file_ret : list ssl_event -> nat -> string -> Z;
  SSL_CTX_use_PrivateKey_file_ret : list ssl_event -> nat -> string -> Z;
  SSL_CTX_check_private_key_ret : list ssl_event -> nat -> Z;
  SSL_new_ok : list ssl_event -> nat -> bool;
  ERR_get_error_ret : list ssl_event -> Z;
  (** the text [ERR_error_string_n] writes for a code *)
  ERR_error_string : Z -> string
}.

(** constants of openssl/ssl.h (OpenSSL 1.1 and 3) *)
Definition SSL_OP_NO_SSLv2 : Z := 0.
Definition SSL_OP_NO_SSLv3 : Z := 0x02000000.
Definition SSL_VERIFY_NONE : Z := 0.
Definition SSL_VERIFY_PEER : Z := 1.
Definition SSL_FILETYPE_PEM : Z := 1.

Definition is_live (c : nat) (w : ssl_world) : bool :=
  existsb (Nat.eqb c) (ssl_live w).

(** a call on context [c] that leaves it allocated *)
Definition ssl_use (c : nat) (ev : ssl_event) (w : ssl_world) : ssl_world :=
  mkWorld (ssl_log w ++ [ev]) (ssl_live w) (ssl_next w)
          (ssl_fault w || negb (is_live c w)).

Section OpenSSLCalls.
Context {openssl : OpenSSL}.

Definition SSL_CTX_new (w : ssl_world) : option nat * ssl_world :=
  if SSL_CTX_new_ok (ssl_log w) then
    (Some (ssl_next w),
     mkWorld (ssl_log w ++ [Ev_SSL_CTX_new (Some (ssl_next w))])
             (ssl_next w :: ssl_live w) (S (ssl_next w)) (ssl_fault w))
  else
    (None,
     mkWorld (ssl_log w ++ [Ev_SSL_CTX_new None]) (ssl_live w) (ssl_next w)
             (ssl_fault w)).

Definition SSL_CTX_free (c : nat) (w : ssl_world) : ssl_world :=
  mkWorld (ssl_log w ++ [Ev_SSL_CTX_free c])
          (filter (fun x => negb (Nat.eqb c x)) (ssl_live w)) (ssl_next w)
          (ssl_fault w || negb (is_live c w)).

Definition SSL_CTX_set_options (c : nat) (options : Z) (w : ssl_world)
  : ssl_world :=
  ssl_use c (Ev_SSL_CTX_set_options c options) w.

Definition SSL_CTX_set_cipher_list (c : nat) (str : string) (w : ssl_world)
  : Z * ssl_world :=
  let ret := SSL_CTX_set_cipher_list_ret (ssl_log w) c str in
  (ret, ssl_use c (Ev_SSL_CTX_set_cipher_list c str ret) w).

Definition SSL_CTX_set_verify (c : nat) (mode : Z) (w : ssl_world)
  : ssl_world :=
  ssl_use c (Ev_SSL_CTX_set_verify c mode) w.

Definition SSL_CTX_set_default_verify_paths (c : nat) (w : ssl_world)
  : Z * ssl_world :=
  let ret := SSL_CTX_set_default_verify_paths_ret (ssl_log w) c in
  (ret, ssl_use c (Ev_SSL_CTX_set_default_verify_paths c ret) w).

Definition SSL_CTX_load_verify_locations (c : nat) (CAfile : string)
           (w : ssl_world) : Z * ssl_world :=
  let ret := SSL_CTX_load_verify_locations_ret (ssl_log w) c CAfile in
  (ret, ssl_use c (Ev_SSL_CTX_load_verify_locations c CAfile ret) w).

Definition SSL_CTX_use_certificate_file (c : nat) (file : string) (type : Z)
           (w : ssl_world) : Z * ssl_world :=
  let ret := SSL_CTX_use_certificate_file_ret (ssl_log w) c file in
  (ret, ssl_use c (Ev_SSL_CTX_use_certificate_file c file type ret) w).

Definition SSL_CTX_use_PrivateKey_file (c : nat) (file : string) (type : Z)
           (w : ssl_world) : Z * ssl_world :=
  let ret := SSL_CTX_use_PrivateKey_file_ret (ssl_log w) c file in
  (ret, ssl_use c (Ev_SSL_CTX_use_PrivateKey_file c file type ret) w).

Definition SSL_CTX_check_private_key (c : nat) (w : ssl_world)
  : Z * ssl_world :=
  let ret := SSL_CTX_check_private_key_ret (ssl_log w) c in
  (ret, ssl_use c (Ev_SSL_CTX_check_private_key c ret) w).

Definition SSL_new (c : nat) (w : ssl_world) : option nat * ssl_world :=
  let ret := if SSL_new_ok (ssl_log w) c then Some (ssl_next w) else None in
  (ret,
   mkWorld (ssl_log w ++ [Ev_SSL_new c ret]) (ssl_live w)
           (match ret with Some _ => S (ssl_next w) | None => ssl_next w end)
           (ssl_fault w || negb (is_live c w))).

Definition ERR_get_error (w : ssl_world) : Z * ssl_world :=
  let ret := ERR_get_error_ret (ssl_log w) in
  (ret,
   mkWorld (ssl_log w ++ [Ev_ERR_get_error ret]) (ssl_live w) (ssl_next w)
           (ssl_fault w)).

(** [ERR_error_string_n(e, buf, sizeof(buf))] into [char buf[256]{}], then
    [std::string(buf)]: at most 255 characters of the text. *)
Definition ERR_error_string_n (e : Z) (size : nat) : string :=
  substring 0 (size - 1) (ERR_error_string e).

(** *** The class *)

(** Modelled from the spec: WebSocketTLSOptions (WebSocketTLSOptions.h is
    not among the sources).  The record holds the members [init] reads and
    what the methods it calls answer; [getDefaultCiphers] is the static
    method of that name. *)
Record WebSocketTLSOptions := mkTLSOptions {
  ciphers : string;
  caFile : string;
  certFile : string;
  keyFile : string;
  isUsingDefaultCiphers : bool;
  getDefaultCiphers : string;
  isPeerVerifyDisabled : bool;
  isUsingSystemCA : bool;
  isUsingCustomCA : bool;
  hasCertAndKey : bool
}.

Record WebSocketTLSContext := mkTLSContext {
  _ctx : option nat
}.

(** [get()] and [isInitialized()] *)
Definition tls_get (t : WebSocketTLSContext) : option nat := _ctx t.
Definition isInitialized (t : WebSocketTLSContext) : bool :=
  match _ctx t with Some _ => true | None => false end.

(** [reset()] *)
Definition tls_reset (t : WebSocketTLSContext) (w : ssl_world)
  : WebSocketTLSContext * ssl_world :=
  match _ctx t with
  | Some c => (mkTLSContext None, SSL_CTX_free c w)
  | None => (t, w)
  end.

Definition opensslLastErrorString (w : ssl_world) : string * ssl_world :=
  let '(e, w1) := ERR_get_error w in
  if e =? 0 then (EmptyString, w1)
  else (ERR_error_string_n e 256, w1).

(** [err = prefix + opensslLastErrorString(); SSL_CTX_free(ctx);
    return false;] *)
Definition tls_init_fail (prefix : string) (ctx : nat)
           (t : WebSocketTLSContext) (w : ssl_world)
  : bool * string * WebSocketTLSContext * ssl_world :=
  let '(e, w1) := opensslLastErrorString w in
  (false, String.append prefix e, t, SSL_CTX_free ctx w1).

(** The optional client certificate and the end of [init]. *)
Definition tls_init_cert (opt : WebSocketTLSOptions) (ctx : nat)
           (t : WebSocketTLSContext) (w : ssl_world)
  : bool * string * WebSocketTLSContext * ssl_world :=
  if hasCertAndKey opt then
    let '(r1, w1) :=
      SSL_CTX_use_certificate_file ctx (certFile opt) SSL_FILETYPE_PEM w in
    if negb (r1 =? 1) then
      tls_init_fail
        (String.append "SSL_CTX_use_certificate_file failed for '"
                       (String.append (certFile opt) "': "))
        ctx t w1
    else
      let '(r2, w2) :=
        SSL_CTX_use_PrivateKey_file ctx (keyFile opt) SSL_FILETYPE_PEM w1 in
      if negb (r2 =? 1) then
        tls_init_fail
          (String.append "SSL_CTX_use_PrivateKey_file failed for '"
                         (String.append (keyFile opt) "': "))
          ctx t w2
      else
        let '(r3, w3) := SSL_CTX_check_private_key ctx w2 in
        if negb (r3 =? 1) then
          tls_init_fail "SSL_CTX_check_private_key failed: " ctx t w3
        else (true, EmptyString, mkTLSContext (Some ctx), w3)
  else (true, EmptyString, mkTLSContext (Some ctx), w).

(** Verification and CA handling, then the rest. *)
Definition tls_init_verify (opt : WebSocketTLSOptions) (ctx : nat)
           (t : WebSocketTLSContext) (w : ssl_world)
  : bool * string * WebSocketTLSContext * ssl_world :=
  if isPeerVerifyDisabled opt then
    tls_init_cert opt ctx t (SSL_CTX_set_verify ctx SSL_VERIFY_NONE w)
  else
    let w1 := SSL_CTX_set_verify ctx SSL_VERIFY_PEER w in
    if isUsingSystemCA opt then
      let '(r1, w2) := SSL_CTX_set_default_verify_paths ctx w1 in
      if negb (r1 =? 1) then
        tls_init_fail "SSL_CTX_set_default_verify_paths failed: " ctx t w2
      else tls_init_cert opt ctx t w2
    else if isUsingCustomCA opt then
      let '(r1, w2) := SSL_CTX_load_verify_locations ctx (caFile opt) w1 in
      if negb (r1 =? 1) then
        tls_init_fail
          (String.append
             "SSL_CTX_load_verify_locations failed for CA file '"
             (String.append (caFile opt) "': "))
          ctx t w2
      else tls_init_cert opt ctx t w2
    else tls_init_cert opt ctx t w1.

(** [init(opt, err)]: the flag returned, [err], the object and the world. *)
Definition tls_init (t : WebSocketTLSContext) (opt : WebSocketTLSOptions)
           (w : ssl_world)
  : bool * string * WebSocketTLSContext * ssl_world :=
  let '(t1, w1) := tls_reset t w in
  let '(ctx, w2) := SSL_CTX_new w1 in
  match ctx with
  | None =>
    let '(e, w3) := opensslLastErrorString w2 in
    (false, String.append "SSL_CTX_new failed: " e, t1, w3)
  | Some ctx =>
    let w3 :=
      SSL_CTX_set_options ctx (Z.lor SSL_OP_NO_SSLv2 SSL_OP_NO_SSLv3) w2 in
    let cipherStr :=
      if isUsingDefaultCiphers opt then getDefaultCiphers opt
      else ciphers opt in
    if negb (String.eqb cipherStr EmptyString) then
      let '(r1, w4) := SSL_CTX_set_cipher_list ctx cipherStr w3 in
      if negb (r1 =? 1) then
        tls_init_fail "SSL_CTX_set_cipher_list failed: " ctx t1 w4
      else tls_init_verify opt ctx t1 w4
    else tls_init_verify opt ctx t1 w3
  end.

(** [createSsl(err)]: the object returned, [err] and the world. *)
Definition createSsl (t : WebSocketTLSContext) (w : ssl_world)
  : option nat * string * ssl_world :=
  match _ctx t with
  | None => (None, "TLS context not initialized (SSL_CTX is null)"%string, w)
  | Some c =>
    let '(ssl, w1) := SSL_new c w in
    match ssl with
    | None =>
      let '(e, w2) := opensslLastErrorString w1 in
      (None, String.append "SSL_new failed: " e, w2)
    | Some s => (Some s, EmptyString, w1)
    end
  end.

(** *** Objects of the class

    The move operations test [this != &other], so objects have an identity:
    a store maps the address of an object to the object. *)
Definition tls_store := nat -> WebSocketTLSContext.

Definition store_set (st : tls_store) (this : nat) (t : WebSocketTLSContext)
  : tls_store :=
  fun k => if Nat.eqb k this then t else st k.

(** the move constructor: a new object at [this] from [other] *)
Definition tls_move_construct (st : tls_store) (this other : nat)
  : tls_store :=
  let st1 := store_set st this (mkTLSContext (_ctx (st other))) in
  store_set st1 other (mkTLSContext None).

(** the move assignment [*this = std::move(other)] *)
Definition tls_move_assign (st : tls_store) (this other : nat)
           (w : ssl_world) : tls_store * ssl_world :=
  if negb (Nat.eqb this other) then
    let '(t1, w1) := tls_reset (st this) w in
    let st1 := store_set st this t1 in
    let st2 := store_set st1 this (mkTLSContext (_ctx (st1 other))) in
    (store_set st2 other (mkTLSContext None), w1)
  else (st, w).

(** the destructor *)
Definition tls_destroy (st : tls_store) (this : nat) (w : ssl_world)
  : tls_store * ssl_world :=
  let '(t1, w1) := tls_reset (st this) w in
  (store_set st this t1, w1).

(** [init] and [createSsl] on the object at [this] *)
Definition tls_init_at (st : tls_store) (this : nat)
           (opt : WebSocketTLSOptions) (w : ssl_world)
  : bool * string * tls_store * ssl_world :=
  let '(ok, err, t1, w1) := tls_init (st this) opt w in
  (ok, err, store_set st this t1, w1).
End OpenSSLCalls.

(** *** Ownership of contexts

    No call was made on a context that is not live; every object that
    holds a context holds a live one; no two objects hold the same one;
    and every live handle is below the next fresh one. *)
Definition tls_owned (st : tls_store) (w : ssl_world) : Prop :=
  ssl_fault w = false
  /\ (forall i c, _ctx (st i) = Some c -> is_live c w = true)
  /\ (forall i j c, _ctx (st i) = Some c -> _ctx (st j) = Some c -> i = j)
  /\ (forall c, is_live c w = true -> (c < ssl_next w)%nat).

(** What the part of [init] after [SSL_CTX_new] leaves, for the new
    context [ctx]: on success the object holds [ctx] and [err] is empty; on
    failure the object is as it was, [ctx] is freed and [err] says why.
    Either way no other context is touched. *)
Definition init_tail_post (ctx : nat) (t : WebSocketTLSContext)
           (w : ssl_world)
           (res : bool * string * WebSocketTLSContext * ssl_world) : Prop :=
  let '(ok, err, t', w') := res in
  ssl_fault w' = false
  /\ ssl_next w' = ssl_next w
  /\ (if ok
      then t' = mkTLSContext (Some ctx) /\ ssl_live w' = ssl_live w
           /\ err = EmptyString
      else t' = t
           /\ ssl_live w'
              = filter (fun x => negb (Nat.eqb ctx x)) (ssl_live w)
           /\ err <> EmptyString).

(** The calls a successful [init] makes on its new context [c], in order:
    each configured step, answered 1. *)
Definition tls_cipher_string (opt : WebSocketTLSOptions) : string :=
  if isUsingDefaultCiphers opt then getDefaultCiphers opt else ciphers opt.

Definition tls_cert_calls (opt : WebSocketTLSOptions) (c : nat)
  : list ssl_event :=
  if hasCertAndKey opt then
    [Ev_SSL_CTX_use_certificate_file c (certFile opt) SSL_FILETYPE_PEM 1;
     Ev_SSL_CTX_use_PrivateKey_file c (keyFile opt) SSL_FILETYPE_PEM 1;
     Ev_SSL_CTX_check_private_key c 1]
  else [].

Definition tls_verify_calls (opt : WebSocketTLSOptions) (c : nat)
  : list ssl_event :=
  if isPeerVerifyDisabled opt then [Ev_SSL_CTX_set_verify c SSL_VERIFY_NONE]
  else
    Ev_SSL_CTX_set_verify c SSL_VERIFY_PEER
    :: (if isUsingSystemCA opt
        then [Ev_SSL_CTX_set_default_verify_paths c 1]
        else if isUsingCustomCA opt
             then [Ev_SSL_CTX_load_verify_locations c (caFile opt) 1]
             else []).

Definition tls_init_success_calls (opt : WebSocketTLSOptions) (c : nat)
  : list ssl_event :=
  [Ev_SSL_CTX_new (Some c);
   Ev_SSL_CTX_set_options c (Z.lor SSL_OP_NO_SSLv2 SSL_OP_NO_SSLv3)]
  ++ (if String.eqb (tls_cipher_string opt) EmptyString then []
      else [Ev_SSL_CTX_set_cipher_list c (tls_cipher_string opt) 1])
  ++ tls_verify_calls opt c ++ tls_cert_calls opt c.

(** the calls made since the world [w] *)
Definition calls_since (w w' : ssl_world) : list ssl_event :=
  skipn (length (ssl_log w)) (ssl_log w').

(** the context an event is a call on *)
Definition event_ctx (ev : ssl_event) : option nat :=
  match ev with
  | Ev_SSL_CTX_new _ | Ev_ERR_get_error _ => None
  | Ev_SSL_CTX_set_options c _ | Ev_SSL_CTX_set_cipher_list c _ _
  | Ev_SSL_CTX_set_verify c _ | Ev_SSL_CTX_set_default_verify_paths c _
  | Ev_SSL_CTX_load_verify_locations c _ _
  | Ev_SSL_CTX_use_certificate_file c _ _ _
  | Ev_SSL_CTX_use_PrivateKey_file c _ _ _
  | Ev_SSL_CTX_check_private_key c _ | Ev_SSL_CTX_free c
  | Ev_SSL_new c _ => Some c
  end.

(** *** Example states for the further properties *)

(** what [onData] gives on the three frames of [straddling_frames] *)
Definition straddling_result : onData_result :=
  match onData 1 example_receiver plain_sink straddling_frames with
  | Some res => res
  | None => mkResultData Returned example_receiver plain_sink []
  end.

(** a receiver with [server_no_context_takeover] negotiated, and the same
    receiver after it has inflated a message *)
Definition no_takeover_config : PerMessageDeflateConfig :=
  mkConfig true false true 15 15 6.

Definition no_takeover_receiver : WebSocketReceiver (list byte) :=
  snd (initializeCompression (new_receiver []) no_takeover_config).

Definition used_receiver : WebSocketReceiver (list byte) :=
  match rxInflate 1 no_takeover_receiver hello_compressed with
  | Some (_, _, r) => r
  | None => no_takeover_receiver
  end.

(** An OpenSSL in which every call succeeds, and one that cannot read the
    client certificate. *)
Definition AgreeableOpenSSL : OpenSSL := {|
  SSL_CTX_new_ok _ := true;
  SSL_CTX_set_cipher_list_ret _ _ _ := 1;
  SSL_CTX_set_default_verify_paths_ret _ _ := 1;
  SSL_CTX_load_verify_locations_ret _ _ _ := 1;
  SSL_CTX_use_certificate_file_ret _ _ _ := 1;
  SSL_CTX_use_PrivateKey_file_ret _ _ _ := 1;
  SSL_CTX_check_private_key_ret _ _ := 1;
  SSL_new_ok _ _ := true;
  ERR_get_error_ret _ := 0;
  ERR_error_string _ := EmptyString
|}.

Definition empty_world : ssl_world := mkWorld [] [] 0 false.

Definition empty_store : tls_store := fun _ => mkTLSContext None.

(** default ciphers, the system CA, no client certificate *)
Definition system_ca_options : WebSocketTLSOptions :=
  mkTLSOptions EmptyString EmptyString EmptyString EmptyString
               true "HIGH:!aNULL:!MD5" false true false false.

(** the configuration and the transmit members of [r'] are those of [r] *)
Definition same_transmit {V : Type} (r r' : WebSocketReceiver V) : Prop :=
  _cfg r' = _cfg r /\ transmit_state r' = transmit_state r.

(** the configuration and the receive members of [r'] are those of [r] *)
Definition same_receive {V : Type} (r r' : WebSocketReceiver V) : Prop :=
  _cfg r' = _cfg r /\ receive_state r' = receive_state r.

(** *** Vocabulary of the transmit buffer and of the inflate loop *)

(** No byte at offset 2^32 - 1 or beyond is set.  One [deflate] call writes
    fewer than 2^32 bytes ([avail_out] is a [uInt]) at the start of the
    transmit buffer and [resize] fills with zero bytes, so this holds of the
    buffer of a constructed receiver and of every buffer [txDeflate]
    leaves. *)
Definition tx_buf_clean (b : list byte) : Prop :=
  forall i : nat, 2 ^ UINT_BITS - 1 <= Z.of_nat i -> at_ b i = 0.

Section AlikeDef.
Context {V : Type}.
(** two receivers with the same configuration, both with an initialised
    deflate stream of the same parameters, whatever the streams and the
    transmit buffers have seen *)
Definition tx_alike (r1 r2 : WebSocketReceiver V) : Prop :=
  _cfg r1 = _cfg r2
  /\ deflate_initialized r1 = true /\ deflate_initialized r2 = true
  /\ zs_params (deflate_stream r1) = zs_params (deflate_stream r2)
  /\ tx_buf_clean (tx_compressed_buf r1)
  /\ tx_buf_clean (tx_compressed_buf r2).
End AlikeDef.

(** *** The rounds of rxInflate, in the words of section 4.D

    "Run inflate with SYNC_FLUSH into a dynamically grown output buffer.
    Z_BUF_ERROR is benign when input is fully consumed; terminal on a true
    stall." *)

(** what the answer of one [inflate] call means for the loop *)
Inductive round_verdict := RoundContinue | RoundSuccess | RoundFailure.

Definition classify_round (ret : Z) (s' : z_stream) : round_verdict :=
  if ret =? Z_BUF_ERROR then
    if avail_out s' =? 0 then RoundContinue       (* the chunk was filled *)
    else if avail_in s' =? 0 then RoundSuccess    (* all input consumed *)
    else RoundFailure                             (* a true stall *)
  else if ret =? Z_STREAM_END then RoundSuccess
  else if ret =? Z_OK then
    if (avail_in s' =? 0) && negb (avail_out s' =? 0)
    then RoundSuccess else RoundContinue
  else RoundFailure.

(** the bytes of the chunk that reach the output: those of a call that
    answered [Z_OK] or [Z_STREAM_END] *)
Definition round_output (ret : Z) (tmp : list byte) : list byte :=
  if (ret =? Z_OK) || (ret =? Z_STREAM_END) then tmp else [].

Section InflateRounds.
Context {zlib : Zlib}.

(** [inflate_rounds n s out ok s' out']: from stream [s] and output [out],
    [n] calls of [inflate] with [Z_SYNC_FLUSH] into the 4096-byte chunk,
    the first [n - 1] of which ask for another round and the last of which
    ends the loop with the value [ok], leave the stream [s'] and the output
    [out']. *)
Inductive inflate_rounds
  : nat -> z_stream -> list byte -> bool -> z_stream -> list byte -> Prop :=
| last_round (s : z_stream) (out : list byte) (ret : Z) (s' : z_stream)
             (tmp : list byte) (ok : bool) :
    inflate (set_avail_out s TMP_SIZE) Z_SYNC_FLUSH = (ret, s', tmp) ->
    classify_round ret s' = (if ok then RoundSuccess else RoundFailure) ->
    inflate_rounds 1 s out ok s' (out ++ round_output ret tmp)
| next_round (n : nat) (s : z_stream) (out : list byte) (ret : Z)
             (s1 : z_stream) (tmp : list byte) (ok : bool) (s' : z_stream)
             (out' : list byte) :
    inflate (set_avail_out s TMP_SIZE) Z_SYNC_FLUSH = (ret, s1, tmp) ->
    classify_round ret s1 = RoundContinue ->
    inflate_rounds n s1 (out ++ round_output ret tmp) ok s' out' ->
    inflate_rounds (S n) s out ok s' out'.
End InflateRounds.

(** a message of 2^32 + 5 bytes, each the letter a *)
Definition four_gib_payload : list byte :=
  repeat x61 (Z.to_nat (2 ^ 32 + 5)).

(** a frame with opcode 3, which no rule of the protocol defines, and a
    64-bit length field that is all ones *)
Definition oversized_unknown_frame : list byte :=
  [x83; x7f; xff; xff; xff; xff; xff; xff; xff; xff].

(** The store and the world after [init] on object 0 of the empty store:
    object 0 owns the one live context. *)
Definition initialised_store : tls_store :=
  snd (fst (tls_init_at (openssl := AgreeableOpenSSL) empty_store 0
                        system_ca_options empty_world)).

Definition initialised_world : ssl_world :=
  snd (tls_init_at (openssl := AgreeableOpenSSL) empty_store 0
                   system_ca_options empty_world).

Ltac tx_fields :=
  unfold same_transmit, transmit_state;
  cbn [set_inflate set_fragmented_message set_fragments set_validator
       _cfg deflate_stream deflate_initialized tx_compressed_buf
       tx_payload_len]; auto.

(** one call on a live context: [facts] is the lemma on [ssl_use] *)
Ltac ssl_step facts ctx w0 :=
  match goal with
  | Hl : is_live ctx ?w = true, Hf : ssl_fault ?w = false,
    Hn : ssl_next ?w = ssl_next w0, Hv : ssl_live ?w = ssl_live w0
    |- context [ssl_use ctx ?ev ?w] =>
    let Hl' := fresh "Hl" in
    let Hf' := fresh "Hf" in
    let Hn' := fresh "Hn" in
    let Hv' := fresh "Hv" in
    destruct (facts ctx ev w w0 Hl Hf Hn Hv)
      as (Hl' & Hf' & Hn' & Hv');
    generalize dependent (ssl_use ctx ev w); clear Hl Hf Hn Hv;
    intros ? Hl Hf Hn Hv
  end.

(** a branch of [init] that fails cannot have returned true; [fails] is the
    lemma on [tls_init_fail] *)
Ltac ok_or_fail fails :=
  match goal with
  | |- context [tls_init_fail ?p ?c ?t ?w] =>
    let H := fresh in
    pose proof (fails p c t w) as H;
    destruct (tls_init_fail p c t w) as [[[? ?] ?] ?];
    cbn [fst] in H; subst; intros; discriminate
  end.

Ltac rx_fields :=
  unfold same_receive, receive_state;
  cbn [set_deflate set_tx_buf set_tx_payload_len
       _cfg inflate_stream inflate_initialized message_in_progress
       compressed_message_in_progress fragmented_opcode fragmented_message
       utf8Validator]; auto.

Set Implicit Arguments.

(* ===================================================================== *)
(** * Properties *)
(* ===================================================================== *)

(** ** Bytes *)

Lemma byte_val_range (b : byte) : 0 <= byte_val b <= 255.
Proof.
  unfold byte_val. pose proof (Byte.to_N_bounded b). lia.
Qed.

Lemma byte_of_Z_val (b : byte) : byte_of_Z (byte_val b) = b.
Proof.
  unfold byte_of_Z, byte_val. rewrite N2Z.id, Byte.of_to_N. reflexivity.
Qed.

Lemma byte_val_of_Z (z : Z) : 0 <= z <= 255 -> byte_val (byte_of_Z z) = z.
Proof.
  intros Hz. unfold byte_of_Z, byte_val.
  destruct (Byte.of_N (Z.to_N z)) as [b|] eqn:E.
  - apply Byte.to_of_N in E. rewrite E. lia.
  - apply Byte.of_N_None_iff in E. lia.
Qed.

Lemma byte_val_inj (a b : byte) : byte_val a = byte_val b -> a = b.
Proof.
  intros H. rewrite <- (byte_of_Z_val a), <- (byte_of_Z_val b), H.
  reflexivity.
Qed.

(** The bit tests of [isValidUtf8] as ranges; each is checked on the 256
    bytes. *)
Lemma mask_E0 (b : byte) :
  (Z.land (byte_val b) 0xE0 =? 0xC0)
  = (0xC0 <=? byte_val b) && (byte_val b <=? 0xDF).
Proof. destruct b; reflexivity. Qed.

Lemma mask_F0 (b : byte) :
  (Z.land (byte_val b) 0xF0 =? 0xE0)
  = (0xE0 <=? byte_val b) && (byte_val b <=? 0xEF).
Proof. destruct b; reflexivity. Qed.

Lemma mask_F8 (b : byte) :
  (Z.land (byte_val b) 0xF8 =? 0xF0)
  = (0xF0 <=? byte_val b) && (byte_val b <=? 0xF7).
Proof. destruct b; reflexivity. Qed.

Lemma mask_C0 (b : byte) :
  (Z.land (byte_val b) 0xC0 =? 0x80) = is_cont b.
Proof. destruct b; reflexivity. Qed.

(** Boolean comparisons to propositions, then linear arithmetic. *)




(** ** isValidUtf8 *)


Lemma byte_class (b : byte) :
  ascii_byte b \/ never_first b \/ lead2 b \/ lead3 b \/ lead4 b.
Proof.
  unfold ascii_byte, never_first, lead2, lead3, lead4.
  pose proof (byte_val_range b). lia.
Qed.

Lemma utf8_ok_ascii b0 t :
  ascii_byte b0 -> utf8_ok (b0 :: t) = utf8_ok t.
Proof.
  unfold ascii_byte. intros. cbn [utf8_ok]. cmp_lia. reflexivity.
Qed.

Lemma utf8_ok_never_first b0 t :
  never_first b0 -> utf8_ok (b0 :: t) = false.
Proof.
  unfold never_first. intros H. cbn [utf8_ok].
  rewrite mask_E0, mask_F0, mask_F8.
  destruct H; cmp_lia; try reflexivity.
  split_cmp; reflexivity || lia.
Qed.

Lemma utf8_ok_lead2 b0 t :
  lead2 b0 ->
  utf8_ok (b0 :: t)
  = match t with
    | b1 :: t1 => is_cont b1 && utf8_ok t1
    | _ => false
    end.
Proof.
  unfold lead2. intros. cbn [utf8_ok]. rewrite mask_E0. cmp_lia.
  cbn [orb andb]. destruct t as [|b1 t1]; [reflexivity|].
  rewrite mask_C0. destruct (is_cont b1); reflexivity.
Qed.

(** The second-byte tests of the 3- and 4-byte branches, as one condition. *)
Lemma tests3 (b0 b1 : byte) (c2 rest : bool) :
  lead3 b0 ->
  (if negb (is_cont b1) || negb c2 then false
   else if (byte_val b0 =? 0xE0) && (byte_val b1 <? 0xA0) then false
   else if (byte_val b0 =? 0xED) && (0xA0 <=? byte_val b1) then false
   else rest)
  = second_ok b0 b1 && c2 && rest.
Proof.
  unfold lead3, second_ok, is_cont. intros.
  pose proof (byte_val_range b1).
  destruct c2, rest;
  (destruct (Z.eq_dec (byte_val b0) 0xE0);
    [|destruct (Z.eq_dec (byte_val b0) 0xED)]);
    cmp_lia; split_cmp; cbn [negb andb orb]; reflexivity || lia.
Qed.

Lemma tests4 (b0 b1 : byte) (c2 c3 rest : bool) :
  lead4 b0 ->
  (if negb (is_cont b1) || negb c2 || negb c3 then false
   else if (byte_val b0 =? 0xF0) && (byte_val b1 <? 0x90) then false
   else if (byte_val b0 =? 0xF4) && (0x8F <? byte_val b1) then false
   else rest)
  = second_ok b0 b1 && c2 && c3 && rest.
Proof.
  unfold lead4, second_ok, is_cont. intros.
  pose proof (byte_val_range b1).
  destruct c2, c3, rest;
  (destruct (Z.eq_dec (byte_val b0) 0xF0);
    [|destruct (Z.eq_dec (byte_val b0) 0xF4)]);
    cmp_lia; split_cmp; cbn [negb andb orb]; reflexivity || lia.
Qed.

Lemma utf8_ok_lead3 b0 t :
  lead3 b0 ->
  utf8_ok (b0 :: t)
  = match t with
    | b1 :: b2 :: t2 => second_ok b0 b1 && is_cont b2 && utf8_ok t2
    | _ => false
    end.
Proof.
  unfold lead3. intros. cbn [utf8_ok]. rewrite mask_E0, mask_F0. cmp_lia.
  cbn [orb andb]. destruct t as [|b1 [|b2 t2]]; try reflexivity.
  rewrite !mask_C0. apply tests3. assumption.
Qed.

Lemma utf8_ok_lead4 b0 t :
  lead4 b0 ->
  utf8_ok (b0 :: t)
  = match t with
    | b1 :: b2 :: b3 :: t3 =>
      second_ok b0 b1 && is_cont b2 && is_cont b3 && utf8_ok t3
    | _ => false
    end.
Proof.
  unfold lead4. intros. cbn [utf8_ok]. rewrite mask_E0, mask_F0, mask_F8.
  cmp_lia. cbn [orb andb].
  destruct t as [|b1 [|b2 [|b3 t3]]]; try reflexivity.
  rewrite !mask_C0. apply tests4. assumption.
Qed.

(** *** The loop and the suffix form *)

Lemma at_app (pre l post : list byte) (k : nat) (d : byte) :
  nth_error l k = Some d ->
  at_ (pre ++ l ++ post) (length pre + k) = byte_val d.
Proof.
  intros H. unfold at_. rewrite app_nth2_plus.
  assert (k < length l)%nat by (apply nth_error_Some; congruence).
  rewrite app_nth1 by assumption.
  f_equal. apply nth_error_nth. assumption.
Qed.

Lemma at_app0 (pre t post : list byte) (b0 : byte) :
  at_ (pre ++ (b0 :: t) ++ post) (length pre) = byte_val b0.
Proof.
  rewrite <- (Nat.add_0_r (length pre)). apply at_app. reflexivity.
Qed.


(** The loop at index [length pre] of [pre ++ l ++ post], with
    [len = length pre + length l], computes [utf8_ok l]. *)
Lemma isValidUtf8_loop_suffix (fuel : nat) :
  forall pre l post,
    (length l <= fuel)%nat ->
    isValidUtf8_loop fuel (pre ++ l ++ post)
                     (length pre + length l) (length pre)
    = utf8_ok l.
Proof.
  induction fuel as [|fuel IH]; intros pre l post Hf.
  - destruct l; [reflexivity|cbn in Hf; lia].
  - destruct l as [|b0 t].
    { cbn [isValidUtf8_loop length]. nat_cmp. reflexivity. }
    assert (Hstep : forall k hd tl,
               b0 :: t = hd ++ tl -> length hd = k -> (1 <= k)%nat ->
               isValidUtf8_loop fuel (pre ++ (b0 :: t) ++ post)
                 (length pre + length (b0 :: t)) (length pre + k)
               = utf8_ok tl).
    { intros k hd tl E Hk Hk1. rewrite E.
      replace (pre ++ (hd ++ tl) ++ post) with ((pre ++ hd) ++ tl ++ post)
        by (rewrite <- !app_assoc; reflexivity).
      replace (length pre + length (hd ++ tl))%nat
        with (length (pre ++ hd) + length tl)%nat
        by (rewrite !length_app; lia).
      replace (length pre + k)%nat with (length (pre ++ hd))
        by (rewrite length_app; lia).
      apply IH.
      assert (length (b0 :: t) = length (hd ++ tl)) by congruence.
      rewrite length_app in *. cbn [length] in *. lia. }
    cbn [isValidUtf8_loop]. nat_cmp.
    rewrite !at_app0.
    destruct (byte_class b0) as [A|[A|[A|[A|A]]]].
    + rewrite utf8_ok_ascii by assumption. unfold ascii_byte in A. cmp_lia.
      apply (Hstep 1%nat [b0] t); auto.
    + rewrite utf8_ok_never_first by assumption.
      unfold never_first in A.
      rewrite mask_E0, mask_F0, mask_F8.
      destruct A; cmp_lia; try reflexivity.
      split_cmp; cbn [andb orb]; reflexivity || lia.
    + rewrite utf8_ok_lead2 by assumption. unfold lead2 in A.
      rewrite mask_E0. cmp_lia. cbn [andb orb].
      destruct t as [|b1 t1]; [nat_cmp; reflexivity|].
      nat_cmp. cbn [orb].
      rewrite (at_app pre (b0 :: b1 :: t1) post 1 (d := b1)) by reflexivity.
      rewrite mask_C0. destruct (is_cont b1); cbn [negb andb]; auto.
      apply (Hstep 2%nat [b0; b1] t1); auto.
    + rewrite utf8_ok_lead3 by assumption. unfold lead3 in A.
      rewrite mask_E0, mask_F0. cmp_lia. cbn [andb orb].
      destruct t as [|b1 [|b2 t2]]; try (nat_cmp; reflexivity).
      nat_cmp. cbn [orb].
      rewrite !(at_app pre (b0 :: b1 :: b2 :: t2) post 1 (d := b1))
        by reflexivity.
      rewrite (at_app pre (b0 :: b1 :: b2 :: t2) post 2 (d := b2))
        by reflexivity.
      rewrite (Hstep 3%nat [b0; b1; b2] t2) by auto.
      rewrite !mask_C0. apply tests3. assumption.
    + rewrite utf8_ok_lead4 by assumption. unfold lead4 in A.
      rewrite mask_E0, mask_F0, mask_F8. cmp_lia. cbn [andb orb].
      destruct t as [|b1 [|b2 [|b3 t3]]]; try (nat_cmp; reflexivity).
      nat_cmp. cbn [orb].
      rewrite !(at_app pre (b0 :: b1 :: b2 :: b3 :: t3) post 1 (d := b1))
        by reflexivity.
      rewrite (at_app pre (b0 :: b1 :: b2 :: b3 :: t3) post 2 (d := b2))
        by reflexivity.
      rewrite (at_app pre (b0 :: b1 :: b2 :: b3 :: t3) post 3 (d := b3))
        by reflexivity.
      rewrite (Hstep 4%nat [b0; b1; b2; b3] t3) by auto.
      rewrite !mask_C0. apply tests4. assumption.
Qed.

(** [isValidUtf8(str, len)] reads the first [len] bytes of [str]. *)
Lemma isValidUtf8_suffix_form (str : list byte) (n : nat) :
  (n <= length str)%nat ->
  isValidUtf8 str n = utf8_ok (firstn n str).
Proof.
  intros H. unfold isValidUtf8.
  pose proof (isValidUtf8_loop_suffix (fuel := n) [] (firstn n str)
                                      (skipn n str)) as L.
  cbn [app length Nat.add] in L.
  rewrite length_firstn, Nat.min_l in L by assumption.
  rewrite firstn_skipn in L. apply L. lia.
Qed.

Lemma isValidUtf8_whole (bs : list byte) :
  isValidUtf8 bs (length bs) = utf8_ok bs.
Proof.
  rewrite isValidUtf8_suffix_form by lia. rewrite firstn_all. reflexivity.
Qed.

Lemma is_cont_iff (b : byte) : is_cont b = true <-> cont b.
Proof.
  unfold is_cont, cont. rewrite andb_true_iff, !Z.leb_le. tauto.
Qed.

(** *** Sequences and concatenation *)

Lemma list_length_ind (A : Type) (P : list A -> Prop) :
  (forall l, (forall l', (length l' < length l)%nat -> P l') -> P l) ->
  forall l, P l.
Proof.
  intros H l.
  assert (G : forall n l, (length l < n)%nat -> P l).
  { induction n as [|n IHn]; intros l0 Hl; [lia|].
    apply H. intros l' Hl'. apply IHn. lia. }
  apply (G (Datatypes.S (length l))). lia.
Qed.

(** A valid prefix can be dropped. *)
Lemma utf8_ok_app (pre l : list byte) :
  utf8_ok pre = true -> utf8_ok (pre ++ l) = utf8_ok l.
Proof.
  induction pre as [pre IH] using list_length_ind.
  destruct pre as [|b0 t]; [reflexivity|]. intros H.
  rewrite <- app_comm_cons.
  destruct (byte_class b0) as [A|[A|[A|[A|A]]]].
  - rewrite utf8_ok_ascii in * by assumption.
    apply IH; [cbn; lia|assumption].
  - rewrite utf8_ok_never_first in H by assumption. discriminate.
  - rewrite utf8_ok_lead2 in * by assumption.
    destruct t as [|b1 t1]; [discriminate|]. cbn [app].
    apply andb_true_iff in H. destruct H as [H1 H2]. rewrite H1.
    cbn [andb]. apply IH; [cbn; lia|assumption].
  - rewrite utf8_ok_lead3 in * by assumption.
    destruct t as [|b1 [|b2 t2]]; try discriminate. cbn [app].
    apply andb_true_iff in H. destruct H as [H1 H2]. rewrite H1.
    cbn [andb]. apply IH; [cbn; lia|assumption].
  - rewrite utf8_ok_lead4 in * by assumption.
    destruct t as [|b1 [|b2 [|b3 t3]]]; try discriminate. cbn [app].
    apply andb_true_iff in H. destruct H as [H1 H2]. rewrite H1.
    cbn [andb]. apply IH; [cbn; lia|assumption].
Qed.

(** In a valid string a byte that is not a continuation byte begins a
    sequence: the string splits before it into two valid strings. *)
Lemma utf8_ok_boundary (pre : list byte) :
  forall x rest,
    utf8_ok (pre ++ x :: rest) = true ->
    is_cont x = false ->
    utf8_ok pre = true /\ utf8_ok (x :: rest) = true.
Proof.
  induction pre as [pre IH] using list_length_ind.
  intros x rest H Hx.
  destruct pre as [|b0 t]; [split; [reflexivity|assumption]|].
  rewrite <- app_comm_cons in H.
  destruct (byte_class b0) as [A|[A|[A|[A|A]]]].
  - rewrite utf8_ok_ascii in * by assumption.
    apply IH; [cbn; lia|assumption|assumption].
  - rewrite utf8_ok_never_first in H by assumption. discriminate.
  - rewrite utf8_ok_lead2 in * by assumption.
    destruct t as [|b1 t1]; cbn [app] in H;
      apply andb_true_iff in H; destruct H as [H1 H2].
    + congruence.
    + rewrite H1. cbn [andb]. apply IH; [cbn; lia|assumption|assumption].
  - rewrite utf8_ok_lead3 in * by assumption.
    destruct t as [|b1 [|b2 t2]]; cbn [app] in H.
    + destruct rest as [|r0 rest]; [discriminate|].
      apply andb_true_iff in H. destruct H as [H1 H2].
      apply andb_true_iff in H1. destruct H1 as [H1 H3].
      unfold second_ok in H1. unfold is_cont in *.
      revert H1. split_cmp; cbn [andb] in *; try discriminate; try lia.
    + apply andb_true_iff in H. destruct H as [H1 H2].
      apply andb_true_iff in H1. destruct H1 as [H1 H3]. congruence.
    + apply andb_true_iff in H. destruct H as [H1 H2]. rewrite H1.
      cbn [andb]. apply IH; [cbn; lia|assumption|assumption].
  - rewrite utf8_ok_lead4 in * by assumption.
    destruct t as [|b1 [|b2 [|b3 t3]]]; cbn [app] in H.
    + destruct rest as [|r0 [|r1 rest]]; try discriminate.
      apply andb_true_iff in H. destruct H as [H1 H2].
      apply andb_true_iff in H1. destruct H1 as [H1 H3].
      apply andb_true_iff in H1. destruct H1 as [H1 H4].
      unfold second_ok in H1. unfold is_cont in *.
      revert H1. split_cmp; cbn [andb] in *; try discriminate; try lia.
    + destruct rest as [|r0 rest]; try discriminate.
      apply andb_true_iff in H. destruct H as [H1 H2].
      apply andb_true_iff in H1. destruct H1 as [H1 H3].
      apply andb_true_iff in H1. destruct H1 as [H1 H4]. congruence.
    + apply andb_true_iff in H. destruct H as [H1 H2].
      apply andb_true_iff in H1. destruct H1 as [H1 H3]. congruence.
    + apply andb_true_iff in H. destruct H as [H1 H2]. rewrite H1.
      cbn [andb]. apply IH; [cbn; lia|assumption|assumption].
Qed.

(** *** Encoding and decoding one scalar value *)

Lemma second_ok_spec (b0 b1 : byte) :
  second_ok b0 b1 = true ->
  0x80 <= byte_val b1 <= 0xBF
  /\ (byte_val b0 = 0xE0 -> 0xA0 <= byte_val b1)
  /\ (byte_val b0 = 0xED -> byte_val b1 <= 0x9F)
  /\ (byte_val b0 = 0xF0 -> 0x90 <= byte_val b1)
  /\ (byte_val b0 = 0xF4 -> byte_val b1 <= 0x8F).
Proof.
  unfold second_ok, is_cont.
  split_cmp; cbn [andb]; intros; try discriminate; lia.
Qed.

Lemma encode_ascii (b0 : byte) :
  ascii_byte b0 ->
  is_scalar (byte_val b0) /\ utf8_encode (byte_val b0) = [b0].
Proof.
  unfold ascii_byte, is_scalar, utf8_encode. intros.
  pose proof (byte_val_range b0). split; [lia|].
  cmp_lia. rewrite byte_of_Z_val. reflexivity.
Qed.

Lemma encode_lead2 (b0 b1 : byte) :
  lead2 b0 -> is_cont b1 = true ->
  exists c, is_scalar c /\ utf8_encode c = [b0; b1].
Proof.
  unfold lead2, is_scalar, utf8_encode. intros A C.
  apply is_cont_iff in C. unfold cont in C.
  exists ((byte_val b0 - 0xC0) * 64 + (byte_val b1 - 0x80)).
  split; [lia|]. cmp_lia.
  replace (_ / 64) with (byte_val b0 - 0xC0)
    by (Z.div_mod_to_equations; lia).
  replace (_ mod 64) with (byte_val b1 - 0x80)
    by (Z.div_mod_to_equations; lia).
  replace (192 + (byte_val b0 - 192)) with (byte_val b0) by lia.
  replace (128 + (byte_val b1 - 128)) with (byte_val b1) by lia.
  rewrite !byte_of_Z_val. reflexivity.
Qed.

Lemma encode_lead3 (b0 b1 b2 : byte) :
  lead3 b0 -> second_ok b0 b1 = true -> is_cont b2 = true ->
  exists c, is_scalar c /\ utf8_encode c = [b0; b1; b2].
Proof.
  unfold lead3, is_scalar, utf8_encode. intros A C1 C2.
  apply is_cont_iff in C2. unfold cont in C2.
  apply second_ok_spec in C1. destruct C1 as (R1 & E0 & ED & _ & _).
  exists ((byte_val b0 - 0xE0) * 4096 + (byte_val b1 - 0x80) * 64
          + (byte_val b2 - 0x80)).
  split.
  - destruct (Z.eq_dec (byte_val b0) 0xE0);
      destruct (Z.eq_dec (byte_val b0) 0xED); lia.
  - assert (0x800 <= (byte_val b0 - 0xE0) * 4096 + (byte_val b1 - 0x80) * 64
                     + (byte_val b2 - 0x80) < 0x10000)
      by (destruct (Z.eq_dec (byte_val b0) 0xE0); lia).
    cmp_lia.
    replace (_ / 4096) with (byte_val b0 - 0xE0)
      by (Z.div_mod_to_equations; lia).
    replace ((_ / 64) mod 64) with (byte_val b1 - 0x80)
      by (Z.div_mod_to_equations; lia).
    replace (_ mod 64) with (byte_val b2 - 0x80)
      by (Z.div_mod_to_equations; lia).
    replace (224 + (byte_val b0 - 224)) with (byte_val b0) by lia.
    replace (128 + (byte_val b1 - 128)) with (byte_val b1) by lia.
    replace (128 + (byte_val b2 - 128)) with (byte_val b2) by lia.
    rewrite !byte_of_Z_val. reflexivity.
Qed.

Lemma encode_lead4 (b0 b1 b2 b3 : byte) :
  lead4 b0 -> second_ok b0 b1 = true -> is_cont b2 = true ->
  is_cont b3 = true ->
  exists c, is_scalar c /\ utf8_encode c = [b0; b1; b2; b3].
Proof.
  unfold lead4, is_scalar, utf8_encode. intros A C1 C2 C3.
  apply is_cont_iff in C2, C3. unfold cont in C2, C3.
  apply second_ok_spec in C1. destruct C1 as (R1 & _ & _ & F0 & F4).
  set (c := (byte_val b0 - 0xF0) * 262144 + (byte_val b1 - 0x80) * 4096
            + (byte_val b2 - 0x80) * 64 + (byte_val b3 - 0x80)).
  assert (Hc : 0x10000 <= c <= 0x10FFFF).
  { subst c. destruct (Z.eq_dec (byte_val b0) 0xF0);
      destruct (Z.eq_dec (byte_val b0) 0xF4); lia. }
  exists c. split; [lia|]. cmp_lia.
  replace (c / 262144) with (byte_val b0 - 0xF0)
    by (subst c; Z.div_mod_to_equations; lia).
  replace ((c / 4096) mod 64) with (byte_val b1 - 0x80)
    by (subst c; Z.div_mod_to_equations; lia).
  replace ((c / 64) mod 64) with (byte_val b2 - 0x80)
    by (subst c; Z.div_mod_to_equations; lia).
  replace (c mod 64) with (byte_val b3 - 0x80)
    by (subst c; Z.div_mod_to_equations; lia).
  replace (240 + (byte_val b0 - 240)) with (byte_val b0) by lia.
  replace (128 + (byte_val b1 - 128)) with (byte_val b1) by lia.
  replace (128 + (byte_val b2 - 128)) with (byte_val b2) by lia.
  replace (128 + (byte_val b3 - 128)) with (byte_val b3) by lia.
  rewrite !byte_of_Z_val. reflexivity.
Qed.

Lemma second_ok_intro (b0 b1 : byte) :
  0x80 <= byte_val b1 <= 0xBF ->
  (byte_val b0 = 0xE0 -> 0xA0 <= byte_val b1) ->
  (byte_val b0 = 0xED -> byte_val b1 <= 0x9F) ->
  (byte_val b0 = 0xF0 -> 0x90 <= byte_val b1) ->
  (byte_val b0 = 0xF4 -> byte_val b1 <= 0x8F) ->
  second_ok b0 b1 = true.
Proof.
  unfold second_ok, is_cont. intros.
  split_cmp; cbn [andb]; try reflexivity; lia.
Qed.

Lemma is_cont_intro (z : Z) :
  0x80 <= z <= 0xBF -> is_cont (byte_of_Z z) = true.
Proof.
  intros. apply is_cont_iff. unfold cont. rewrite byte_val_of_Z; lia.
Qed.

(** The encoding of a scalar value is accepted and the scan goes on after
    it. *)
Lemma utf8_ok_encode (c : Z) (rest : list byte) :
  is_scalar c -> utf8_ok (utf8_encode c ++ rest) = utf8_ok rest.
Proof.
  unfold is_scalar, utf8_encode. intros Hc.
  destruct (Z.ltb_spec c 0x80).
  { cbn [app]. apply utf8_ok_ascii. unfold ascii_byte.
    rewrite byte_val_of_Z; lia. }
  destruct (Z.ltb_spec c 0x800).
  { cbn [app].
    assert (2 <= c / 64 <= 31) by (Z.div_mod_to_equations; lia).
    assert (0 <= c mod 64 <= 63) by (Z.div_mod_to_equations; lia).
    rewrite utf8_ok_lead2 by (unfold lead2; rewrite byte_val_of_Z; lia).
    rewrite is_cont_intro by lia. reflexivity. }
  destruct (Z.ltb_spec c 0x10000).
  { cbn [app].
    assert (0 <= c / 4096 <= 15) by (Z.div_mod_to_equations; lia).
    assert (0 <= (c / 64) mod 64 <= 63) by (Z.div_mod_to_equations; lia).
    assert (0 <= c mod 64 <= 63) by (Z.div_mod_to_equations; lia).
    assert (c / 4096 = 0 -> 32 <= (c / 64) mod 64)
      by (Z.div_mod_to_equations; lia).
    assert (c / 4096 = 13 -> (c / 64) mod 64 <= 31)
      by (Z.div_mod_to_equations; lia).
    rewrite utf8_ok_lead3 by (unfold lead3; rewrite byte_val_of_Z; lia).
    rewrite second_ok_intro, is_cont_intro;
      rewrite ?byte_val_of_Z; try reflexivity; lia. }
  cbn [app].
  assert (0 <= c / 262144 <= 4) by (Z.div_mod_to_equations; lia).
  assert (0 <= (c / 4096) mod 64 <= 63) by (Z.div_mod_to_equations; lia).
  assert (0 <= (c / 64) mod 64 <= 63) by (Z.div_mod_to_equations; lia).
  assert (0 <= c mod 64 <= 63) by (Z.div_mod_to_equations; lia).
  assert (c / 262144 = 0 -> 16 <= (c / 4096) mod 64)
    by (Z.div_mod_to_equations; lia).
  assert (c / 262144 = 4 -> (c / 4096) mod 64 <= 15)
    by (Z.div_mod_to_equations; lia).
  rewrite utf8_ok_lead4 by (unfold lead4; rewrite byte_val_of_Z; lia).
  rewrite second_ok_intro, !is_cont_intro;
    rewrite ?byte_val_of_Z; try reflexivity; lia.
Qed.

Lemma utf8_ok_complete (cs : list Z) :
  Forall is_scalar cs -> utf8_ok (flat_map utf8_encode cs) = true.
Proof.
  induction 1 as [|c cs Hc _ IH]; [reflexivity|].
  cbn [flat_map]. rewrite utf8_ok_encode by assumption. exact IH.
Qed.

Lemma utf8_ok_sound (l : list byte) :
  utf8_ok l = true -> well_formed_utf8 l.
Proof.
  induction l as [l IH] using list_length_ind. intros H.
  destruct l as [|b0 t]; [exists []; split; [constructor|reflexivity]|].
  assert (K : forall c hd tl,
             is_scalar c -> utf8_encode c = hd -> b0 :: t = hd ++ tl ->
             (1 <= length hd)%nat -> utf8_ok tl = true ->
             well_formed_utf8 (b0 :: t)).
  { intros c hd tl Hc He Hl Hn Hok.
    destruct (IH tl) as (cs & Hcs & Ecs); [|assumption|].
    - assert (length (b0 :: t) = length (hd ++ tl)) by congruence.
      rewrite length_app in *. lia.
    - exists (c :: cs). split; [constructor; assumption|].
      cbn [flat_map]. rewrite He, <- Ecs. assumption. }
  destruct (byte_class b0) as [A|[A|[A|[A|A]]]].
  - rewrite utf8_ok_ascii in H by assumption.
    destruct (@encode_ascii b0 A) as [Hc He].
    apply (K _ [b0] t Hc He); auto.
  - rewrite utf8_ok_never_first in H by assumption. discriminate.
  - rewrite utf8_ok_lead2 in H by assumption.
    destruct t as [|b1 t1]; [discriminate|].
    apply andb_true_iff in H. destruct H as [H1 H2].
    destruct (@encode_lead2 b0 b1 A H1) as (c & Hc & He).
    apply (K _ [b0; b1] t1 Hc He); cbn [length]; auto; lia.
  - rewrite utf8_ok_lead3 in H by assumption.
    destruct t as [|b1 [|b2 t2]]; try discriminate.
    apply andb_true_iff in H. destruct H as [H1 H2].
    apply andb_true_iff in H1. destruct H1 as [H1 H3].
    destruct (@encode_lead3 b0 b1 b2 A H1 H3) as (c & Hc & He).
    apply (K _ [b0; b1; b2] t2 Hc He); cbn [length]; auto; lia.
  - rewrite utf8_ok_lead4 in H by assumption.
    destruct t as [|b1 [|b2 [|b3 t3]]]; try discriminate.
    apply andb_true_iff in H. destruct H as [H1 H2].
    apply andb_true_iff in H1. destruct H1 as [H1 H3].
    apply andb_true_iff in H1. destruct H1 as [H1 H4].
    destruct (@encode_lead4 b0 b1 b2 b3 A H1 H4 H3) as (c & Hc & He).
    apply (K _ [b0; b1; b2; b3] t3 Hc He); cbn [length]; auto; lia.
Qed.

Lemma isValidUtf8_iff (bs : list byte) :
  isValidUtf8 bs (length bs) = true <-> well_formed_utf8 bs.
Proof.
  rewrite isValidUtf8_whole. split.
  - apply utf8_ok_sound.
  - intros (cs & Hcs & ->). apply utf8_ok_complete. assumption.
Qed.

(** *** What is rejected *)

Lemma utf8_ok_at_boundary (pre : list byte) (x : byte) (rest : list byte) :
  is_cont x = false ->
  utf8_ok (x :: rest) = false ->
  utf8_ok (pre ++ x :: rest) = false.
Proof.
  intros Hx Hbad.
  destruct (utf8_ok (pre ++ x :: rest)) eqn:E; [|reflexivity].
  destruct (utf8_ok_boundary pre x rest E Hx). congruence.
Qed.

Lemma not_cont_above (x : byte) : 0xC0 <= byte_val x -> is_cont x = false.
Proof. unfold is_cont. intros. cmp_lia. apply andb_false_r. Qed.

Lemma second_ok_cont (b0 b1 : byte) :
  is_cont b1 = false -> second_ok b0 b1 = false.
Proof.
  intros H. destruct (second_ok b0 b1) eqn:E; [|reflexivity].
  apply second_ok_spec in E. destruct E as [E _].
  apply is_cont_iff in E. congruence.
Qed.

(** A sequence cut short, or interrupted by a byte that is no continuation
    byte, is rejected. *)
Lemma utf8_ok_short (b0 : byte) (mid : list byte) :
  (2 <= sequence_length b0)%nat ->
  (length mid < sequence_length b0 - 1)%nat ->
  utf8_ok (b0 :: mid) = false.
Proof.
  unfold sequence_length.
  destruct (byte_class b0) as [A|[A|[A|[A|A]]]];
    unfold ascii_byte, never_first, lead2, lead3, lead4 in A.
  - cmp_lia. lia.
  - destruct A; cmp_lia; cbn [andb]; lia.
  - cmp_lia. cbn [andb]. intros _ Hm. rewrite utf8_ok_lead2 by exact A.
    destruct mid; [reflexivity|cbn in Hm; lia].
  - cmp_lia. cbn [andb]. intros _ Hm. rewrite utf8_ok_lead3 by exact A.
    destruct mid as [|? [|? ?]]; try reflexivity. cbn in Hm; lia.
  - cmp_lia. cbn [andb]. intros _ Hm. rewrite utf8_ok_lead4 by exact A.
    destruct mid as [|? [|? [|? ?]]]; try reflexivity. cbn in Hm; lia.
Qed.

Lemma utf8_ok_interrupted (b0 x : byte) (mid post : list byte) :
  (2 <= sequence_length b0)%nat ->
  (length mid < sequence_length b0 - 1)%nat ->
  is_cont x = false ->
  utf8_ok (b0 :: mid ++ x :: post) = false.
Proof.
  unfold sequence_length. intros H2 Hm Hx. revert H2 Hm.
  destruct (byte_class b0) as [A|[A|[A|[A|A]]]];
    unfold ascii_byte, never_first, lead2, lead3, lead4 in A.
  - cmp_lia. lia.
  - destruct A; cmp_lia; cbn [andb]; lia.
  - cmp_lia. cbn [andb]. intros _ Hm. rewrite utf8_ok_lead2 by exact A.
    destruct mid; [|cbn in Hm; lia]. cbn [app]. rewrite Hx. reflexivity.
  - cmp_lia. cbn [andb]. intros _ Hm. rewrite utf8_ok_lead3 by exact A.
    destruct mid as [|m0 [|? ?]]; cbn [app]; [| |cbn in Hm; lia].
    + destruct post; [reflexivity|].
      rewrite second_ok_cont by assumption. reflexivity.
    + rewrite Hx, andb_false_r. reflexivity.
  - cmp_lia. cbn [andb]. intros _ Hm. rewrite utf8_ok_lead4 by exact A.
    destruct mid as [|m0 [|m1 [|? ?]]]; cbn [app]; [| | |cbn in Hm; lia].
    + destruct post as [|? [|? ?]]; try reflexivity.
      rewrite second_ok_cont by assumption. reflexivity.
    + destruct post; [reflexivity|].
      rewrite Hx, andb_false_r. reflexivity.
    + rewrite Hx, andb_false_r. reflexivity.
Qed.

(** a lead byte followed by a second byte outside the range it allows *)
Lemma utf8_ok_second (b0 b1 : byte) (post : list byte) :
  (3 <= sequence_length b0)%nat ->
  second_ok b0 b1 = false ->
  utf8_ok (b0 :: b1 :: post) = false.
Proof.
  unfold sequence_length. intros H3 H2. revert H3.
  destruct (byte_class b0) as [A|[A|[A|[A|A]]]];
    unfold ascii_byte, never_first, lead2, lead3, lead4 in A.
  - cmp_lia. lia.
  - destruct A; cmp_lia; cbn [andb]; lia.
  - cmp_lia. cbn [andb]. lia.
  - intros _. rewrite utf8_ok_lead3 by exact A.
    destruct post; [reflexivity|]. rewrite H2. reflexivity.
  - intros _. rewrite utf8_ok_lead4 by exact A.
    destruct post as [|? [|? ?]]; try reflexivity. rewrite H2. reflexivity.
Qed.

Lemma isValidUtf8_second (pre post : list byte) (b0 b1 : byte) :
  (3 <= sequence_length b0)%nat ->
  second_ok b0 b1 = false ->
  isValidUtf8 (pre ++ b0 :: b1 :: post) (length (pre ++ b0 :: b1 :: post))
  = false.
Proof.
  intros H3 H2. rewrite isValidUtf8_whole.
  apply utf8_ok_at_boundary; [|apply utf8_ok_second; assumption].
  apply not_cont_above. revert H3. unfold sequence_length.
  split_cmp; cbn [andb]; lia.
Qed.

(** ** Claim C9 *)

(** C9. [isValidUtf8] answers true exactly on well-formed UTF-8 (RFC 3629):
    the concatenations of encodings of Unicode scalar values.  In particular
    it answers false on a string that holds one of the bytes C0, C1,
    F5..FF; an overlong form (E0 followed by a byte below A0, F0 followed by
    a byte below 90); a surrogate (ED followed by a byte from A0 on); a value
    above U+10FFFF (F4 followed by a byte above 8F); a byte that is no
    continuation byte where the sequence begun after a well-formed prefix
    needs one; a sequence that the end of the string cuts short. *)
Theorem isValidUtf8_rfc3629 :
  (forall bs, isValidUtf8 bs (length bs) = true <-> well_formed_utf8 bs)
  /\ (forall cs, Forall is_scalar cs ->
        isValidUtf8 (flat_map utf8_encode cs)
                    (length (flat_map utf8_encode cs)) = true)
  /\ (forall bs b, In b bs ->
        byte_val b = 0xC0 \/ byte_val b = 0xC1 \/ 0xF5 <= byte_val b ->
        isValidUtf8 bs (length bs) = false)
  /\ (forall pre b0 b1 post,
        (byte_val b0 = 0xE0 /\ byte_val b1 < 0xA0)
        \/ (byte_val b0 = 0xF0 /\ byte_val b1 < 0x90)
        \/ (byte_val b0 = 0xED /\ 0xA0 <= byte_val b1)
        \/ (byte_val b0 = 0xF4 /\ 0x8F < byte_val b1) ->
        isValidUtf8 (pre ++ b0 :: b1 :: post)
                    (length (pre ++ b0 :: b1 :: post)) = false)
  /\ (forall pre b0 mid x post,
        well_formed_utf8 pre ->
        (2 <= sequence_length b0)%nat ->
        (length mid < sequence_length b0 - 1)%nat ->
        ~ cont x ->
        isValidUtf8 (pre ++ b0 :: mid ++ x :: post)
                    (length (pre ++ b0 :: mid ++ x :: post)) = false)
  /\ (forall pre b0 mid,
        well_formed_utf8 pre ->
        (2 <= sequence_length b0)%nat ->
        (length mid < sequence_length b0 - 1)%nat ->
        isValidUtf8 (pre ++ b0 :: mid) (length (pre ++ b0 :: mid)) = false).
Proof.
  split; [exact isValidUtf8_iff|].
  split; [intros cs Hcs; apply isValidUtf8_iff; exists cs; auto|].
  split.
  { intros bs b Hin Hb. rewrite isValidUtf8_whole.
    apply in_split in Hin. destruct Hin as (pre & rest & ->).
    apply utf8_ok_at_boundary.
    - apply not_cont_above. lia.
    - apply utf8_ok_never_first. unfold never_first. lia. }
  split.
  { intros pre b0 b1 post H. apply isValidUtf8_second.
    - unfold sequence_length.
      destruct H as [[-> _]|[[-> _]|[[-> _]|[-> _]]]]; cbn; lia.
    - unfold second_ok, is_cont.
      destruct H as [[-> ?]|[[-> ?]|[[-> ?]|[-> ?]]]]; cbn [Z.eqb Pos.eqb];
        cmp_lia; rewrite ?andb_false_r; reflexivity. }
  split.
  { intros pre b0 mid x post Hpre H2 Hm Hx. rewrite isValidUtf8_whole.
    apply isValidUtf8_iff in Hpre. rewrite isValidUtf8_whole in Hpre.
    rewrite utf8_ok_app by assumption.
    apply utf8_ok_interrupted; try assumption.
    destruct (is_cont x) eqn:E; [|reflexivity].
    apply is_cont_iff in E. contradiction. }
  intros pre b0 mid Hpre H2 Hm. rewrite isValidUtf8_whole.
  apply isValidUtf8_iff in Hpre. rewrite isValidUtf8_whole in Hpre.
  rewrite utf8_ok_app by assumption.
  apply utf8_ok_short; assumption.
Qed.

(** ** Close frames *)

Lemma close_code_valid_iff (c : Z) :
  close_code_valid c = true <-> permitted_close_code c.
Proof.
  unfold close_code_valid, permitted_close_code.
  rewrite orb_true_iff, !andb_true_iff, !negb_true_iff, !Z.leb_le,
    !Z.eqb_neq.
  tauto.
Qed.

Lemma load_be16_cons (b0 b1 : byte) (rest : list byte) :
  load_be16 (b0 :: b1 :: rest) = byte_val b0 * 256 + byte_val b1.
Proof. reflexivity. Qed.

Lemma load_be16_range (p : list byte) : 0 <= load_be16 p <= 65535.
Proof.
  unfold load_be16, at_.
  pose proof (byte_val_range (nth 0 p x00)).
  pose proof (byte_val_range (nth 1 p x00)). lia.
Qed.

Lemma len_cons (A : Type) (a : A) (l : list A) : len (a :: l) = 1 + len l.
Proof. unfold len. cbn [length]. lia. Qed.

Lemma len_nonneg (A : Type) (l : list A) : 0 <= len l.
Proof. unfold len. lia. Qed.


(** A payload of more than 125 bytes is answered with 1002. *)
Lemma sanitize_close_long (payload : list byte) :
  125 < len payload -> sanitize_close payload = (1002, []).
Proof.
  intros H. unfold sanitize_close.
  rewrite (proj2 (Z.ltb_lt 125 (len payload))) by assumption. reflexivity.
Qed.

Lemma sanitize_close_two (b0 b1 : byte) (rest : list byte) :
  len rest <= 123 ->
  sanitize_close (b0 :: b1 :: rest)
  = if close_code_valid (byte_val b0 * 256 + byte_val b1) && utf8_ok rest
    then (byte_val b0 * 256 + byte_val b1, rest)
    else (1002, []).
Proof.
  intros H. unfold sanitize_close. pose proof (len_nonneg rest) as Hn.
  rewrite !len_cons, load_be16_cons. cbn [skipn].
  set (code := byte_val b0 * 256 + byte_val b1).
  assert (Hcode : code mod 2 ^ 16 = code).
  { apply Z.mod_small. subst code. pose proof (byte_val_range b0).
    pose proof (byte_val_range b1). lia. }
  unfold to_uint16.
  destruct rest as [|b2 rest'].
  - cbn [len length Z.of_nat]. cbn [Z.add Z.ltb Z.eqb Z.leb Z.compare
      Pos.compare Pos.compare_cont Pos.add Pos.succ Pos.eqb].
    cbn [utf8_ok]. rewrite andb_true_r.
    destruct (close_code_valid code); cbn [negb]; rewrite ?Hcode; reflexivity.
  - set (rest := b2 :: rest') in *.
    assert (1 <= len rest) by (subst rest; rewrite len_cons;
                               pose proof (len_nonneg rest'); lia).
    cmp_lia.
    replace (1 + (1 + len rest) - 2) with (len rest) by lia.
    unfold len at 1 2. rewrite Nat2Z.id.
    rewrite isValidUtf8_whole, firstn_all.
    destruct (close_code_valid code), (utf8_ok rest); cbn [negb andb];
      rewrite ?Hcode; reflexivity.
Qed.

(** Up to 125 bytes, [sanitize_close] computes the pair of section 4.F. *)
Lemma sanitize_close_short (payload : list byte) :
  len payload <= 125 ->
  close_sanitized payload (fst (sanitize_close payload))
                  (snd (sanitize_close payload)).
Proof.
  intros H.
  destruct payload as [|b0 [|b1 rest]].
  - cbn. constructor.
  - cbn. constructor.
  - rewrite !len_cons in H.
    assert (Hrest : firstn 123 rest = rest).
    { apply firstn_all2. unfold len in H. lia. }
    rewrite sanitize_close_two by lia.
    destruct (close_code_valid _) eqn:Ev; cbn [andb];
      [destruct (utf8_ok rest) eqn:Eu|]; cbn [fst snd].
    + rewrite <- Hrest at 2. apply close_accepted.
      * apply close_code_valid_iff. assumption.
      * rewrite Hrest. apply utf8_ok_sound. assumption.
    + apply close_rejected. right. rewrite Hrest. intros W.
      apply isValidUtf8_iff in W. rewrite isValidUtf8_whole in W.
      congruence.
    + apply close_rejected. left. intros W.
      apply close_code_valid_iff in W. congruence.
Qed.

(** [close_sanitized] determines the pair. *)
Lemma close_sanitized_fun (payload : list byte) (c1 c2 : Z)
      (r1 r2 : list byte) :
  close_sanitized payload c1 r1 -> close_sanitized payload c2 r2 ->
  c1 = c2 /\ r1 = r2.
Proof.
  intros H1 H2.
  inversion H1; subst; inversion H2; subst; auto; tauto.
Qed.

(** ** Reading a frame header *)

Lemma at_firstn (n i : nat) (p : list byte) :
  (i < n)%nat -> at_ (firstn n p) i = at_ p i.
Proof.
  intros H. unfold at_. rewrite nth_firstn.
  rewrite (proj2 (Nat.ltb_lt i n)) by assumption. reflexivity.
Qed.

Lemma at_skipn_firstn (n k i : nat) (p : list byte) :
  (k + i < n)%nat -> at_ (skipn k (firstn n p)) i = at_ (skipn k p) i.
Proof.
  intros H. unfold at_. rewrite !nth_skipn, nth_firstn.
  rewrite (proj2 (Nat.ltb_lt (k + i) n)) by assumption. reflexivity.
Qed.

Lemma hdr_fin_firstn buf : hdr_fin (firstn 14 buf) = hdr_fin buf.
Proof. unfold hdr_fin. rewrite at_firstn by lia. reflexivity. Qed.
Lemma hdr_rsv1_firstn buf : hdr_rsv1 (firstn 14 buf) = hdr_rsv1 buf.
Proof. unfold hdr_rsv1. rewrite at_firstn by lia. reflexivity. Qed.
Lemma hdr_rsv2_firstn buf : hdr_rsv2 (firstn 14 buf) = hdr_rsv2 buf.
Proof. unfold hdr_rsv2. rewrite at_firstn by lia. reflexivity. Qed.
Lemma hdr_rsv3_firstn buf : hdr_rsv3 (firstn 14 buf) = hdr_rsv3 buf.
Proof. unfold hdr_rsv3. rewrite at_firstn by lia. reflexivity. Qed.
Lemma hdr_opcode_firstn buf : hdr_opcode (firstn 14 buf) = hdr_opcode buf.
Proof. unfold hdr_opcode. rewrite at_firstn by lia. reflexivity. Qed.
Lemma hdr_mask_firstn buf : hdr_mask (firstn 14 buf) = hdr_mask buf.
Proof. unfold hdr_mask. rewrite at_firstn by lia. reflexivity. Qed.
Lemma hdr_len7_firstn buf : hdr_len7 (firstn 14 buf) = hdr_len7 buf.
Proof. unfold hdr_len7. rewrite at_firstn by lia. reflexivity. Qed.

Lemma load_be16_firstn buf :
  load_be16 (skipn 2 (firstn 14 buf)) = load_be16 (skipn 2 buf).
Proof.
  unfold load_be16. rewrite !at_skipn_firstn by lia. reflexivity.
Qed.

Lemma load_be64_firstn buf :
  load_be64 (skipn 2 (firstn 14 buf)) = load_be64 (skipn 2 buf).
Proof.
  unfold load_be64. cbn [seq fold_left].
  rewrite !at_skipn_firstn by lia. reflexivity.
Qed.

Lemma at_range (p : list byte) (i : nat) : 0 <= at_ p i <= 255.
Proof. apply byte_val_range. Qed.

Lemma load_be64_range (p : list byte) : 0 <= load_be64 p < 2 ^ 64.
Proof.
  unfold load_be64. cbn [seq fold_left].
  pose proof (at_range p 0). pose proof (at_range p 1).
  pose proof (at_range p 2). pose proof (at_range p 3).
  pose proof (at_range p 4). pose proof (at_range p 5).
  pose proof (at_range p 6). pose proof (at_range p 7).
  change (2 ^ 64) with 18446744073709551616. lia.
Qed.

Lemma land_7F_range (b : byte) : 0 <= Z.land (byte_val b) 0x7F <= 127.
Proof.
  assert ((0 <=? Z.land (byte_val b) 0x7F)
          && (Z.land (byte_val b) 0x7F <=? 127) = true)
    by (destruct b; reflexivity).
  bools. lia.
Qed.

Lemma land_0F_range (b : byte) : 0 <= Z.land (byte_val b) 0x0F <= 15.
Proof.
  assert ((0 <=? Z.land (byte_val b) 0x0F)
          && (Z.land (byte_val b) 0x0F <=? 15) = true)
    by (destruct b; reflexivity).
  bools. lia.
Qed.

Lemma hdr_len7_range buf : 0 <= hdr_len7 buf <= 127.
Proof. apply land_7F_range. Qed.

Lemma hdr_opcode_range buf : 0 <= hdr_opcode buf <= 15.
Proof. apply land_0F_range. Qed.

Lemma frame_header_len_range buf :
  2 <= frame_header_len buf <= 10.
Proof. unfold frame_header_len. split_cmp; lia. Qed.

Lemma frame_payload_len_range buf :
  0 <= frame_payload_len buf < 2 ^ 64.
Proof.
  unfold frame_payload_len.
  pose proof (hdr_len7_range buf). pose proof (load_be16_range (skipn 2 buf)).
  pose proof (load_be64_range (skipn 2 buf)).
  change (2 ^ 64) with 18446744073709551616 in *.
  split_cmp; lia.
Qed.


Section OnData.
Context {V : Type} {validator : Utf8Validator V}.
Context {zlib : Zlib}.
Context {Sink : Type} {sinks : IWebSocketSinks Sink}.

Local Abbreviation Receiver := (WebSocketReceiver V).

(** What [onData] does with a frame that is wholly in the buffer: the four
    header tests in the order of the code, then the handler of the opcode on
    the payload, and the frame is drained. *)
Lemma onData_round_buffered (fuel : nat) (r : Receiver) (s : Sink)
      (buf : list byte) :
  rxIsTerminating s = false ->
  frame_buffered buf ->
  onData_round fuel r s buf
  = if (negb (rxCompressionEnabled s) && hdr_rsv1 buf)
       || hdr_rsv2 buf || hdr_rsv3 buf then
      Some (stop r (onRxProtocolError 1002 "Unexpected RSV bits" s) buf)
    else if is_control (hdr_opcode buf) && negb (hdr_fin buf) then
      Some (stop r (onRxProtocolError 1002 "Control frame fragmented" s) buf)
    else if hdr_mask buf then
      Some (stop r (onRxProtocolError 1002 "Masked frame from server" s) buf)
    else if is_control (hdr_opcode buf) && (125 <? frame_payload_len buf)
    then
      Some (stop r (onRxProtocolError 1002
                      "Control frame payload too large" s) buf)
    else
      let payload := frame_payload buf in
      let opcode := hdr_opcode buf in
      if opcode =? 0x00 then
        option_map (fun '(r', s') => NextFrame r' s' (frame_rest buf))
          (handleContinuationFrame fuel r s payload (hdr_fin buf))
      else if (opcode =? 0x01) || (opcode =? 0x02) then
        option_map (fun '(r', s') => NextFrame r' s' (frame_rest buf))
          (handleDataFrame fuel r s payload (hdr_fin buf) opcode
                           (hdr_rsv1 buf))
      else if opcode =? 0x08 then
        Some (let '(r', s') := handleCloseFrame r s payload in
              NextFrame r' s' (frame_rest buf))
      else if opcode =? 0x09 then
        Some (let '(r', s') := handlePingFrame r s payload in
              NextFrame r' s' (frame_rest buf))
      else if opcode =? 0x0A then Some (NextFrame r s (frame_rest buf))
      else Some (stop r (onRxProtocolError 1002 "Unsupported opcode" s) buf).
Proof.
  intros Hterm [Hfull Hmax].
  pose proof (frame_header_len_range buf) as Hh.
  pose proof (frame_payload_len_range buf) as Hp.
  unfold VECTOR_MAX_SIZE in *.
  change (2 ^ 63 - 1) with 9223372036854775807 in *.
  change (2 ^ 64) with 18446744073709551616 in *.
  unfold onData_round. rewrite Hterm.
  rewrite (proj2 (Z.ltb_ge (len buf) 2)) by lia.
  rewrite hdr_fin_firstn, hdr_rsv1_firstn, hdr_rsv2_firstn, hdr_rsv3_firstn,
    hdr_opcode_firstn, hdr_mask_firstn, hdr_len7_firstn,
    load_be16_firstn, load_be64_firstn.
  fold (is_control (hdr_opcode buf)).
  destruct ((negb (rxCompressionEnabled s) && hdr_rsv1 buf)
            || hdr_rsv2 buf || hdr_rsv3 buf); [reflexivity|].
  destruct (is_control (hdr_opcode buf) && negb (hdr_fin buf));
    [reflexivity|].
  destruct (hdr_mask buf); [reflexivity|].
  assert (E : (if hdr_len7 buf =? 126
               then if len buf <? 2 + 2 then None
                    else Some (2 + 2, load_be16 (skipn 2 buf))
               else if hdr_len7 buf =? 127
                    then if len buf <? 2 + 8 then None
                         else Some (2 + 8, load_be64 (skipn 2 buf))
                    else Some (2, hdr_len7 buf))
              = Some (frame_header_len buf, frame_payload_len buf)).
  { unfold frame_header_len, frame_payload_len in *.
    destruct (hdr_len7 buf =? 126); [|destruct (hdr_len7 buf =? 127)].
    - rewrite (proj2 (Z.ltb_ge (len buf) (2 + 2))) by lia. reflexivity.
    - rewrite (proj2 (Z.ltb_ge (len buf) (2 + 8))) by lia. reflexivity.
    - reflexivity. }
  rewrite E. clear E.
  destruct (is_control (hdr_opcode buf) && (125 <? frame_payload_len buf));
    [reflexivity|].
  unfold to_size_t, SIZE_BITS.
  change (2 ^ 64) with 18446744073709551616.
  rewrite (Z.mod_small (frame_payload_len buf)) by lia.
  rewrite (Z.mod_small (frame_header_len buf + frame_payload_len buf))
    by lia.
  rewrite (proj2 (Z.ltb_ge (len buf) _)) by lia.
  rewrite (proj2 (Z.eqb_neq (frame_header_len buf + frame_payload_len buf) 0))
    by lia.
  unfold VECTOR_MAX_SIZE. change (2 ^ 63 - 1) with 9223372036854775807.
  rewrite (proj2 (Z.ltb_ge 9223372036854775807 (frame_payload_len buf)))
    by lia.
  fold (frame_payload buf). fold (frame_rest buf).
  cbv zeta.
  destruct (hdr_opcode buf =? 0).
  { destruct (handleContinuationFrame fuel r s (frame_payload buf)
                                      (hdr_fin buf)) as [[r' s']|];
      reflexivity. }
  destruct ((hdr_opcode buf =? 1) || (hdr_opcode buf =? 2)).
  { destruct (handleDataFrame fuel r s (frame_payload buf) (hdr_fin buf)
                              (hdr_opcode buf) (hdr_rsv1 buf))
      as [[r' s']|]; reflexivity. }
  destruct (hdr_opcode buf =? 8).
  { destruct (handleCloseFrame r s (frame_payload buf)); reflexivity. }
  destruct (hdr_opcode buf =? 9).
  { destruct (handlePingFrame r s (frame_payload buf)); reflexivity. }
  destruct (hdr_opcode buf =? 10); reflexivity.
Qed.

(** A round that goes on has drained a whole frame, two bytes at least. *)
Lemma onData_round_drains (fuel : nat) (r : Receiver) (s : Sink)
      (buf : list byte) (r' : Receiver) (s' : Sink) (buf' : list byte) :
  onData_round fuel r s buf = Some (NextFrame r' s' buf') ->
  (length buf' + 2 <= length buf)%nat.
Proof.
  unfold onData_round, stop.
  destruct (rxIsTerminating s); [discriminate|].
  destruct (Z.ltb_spec (len buf) 2) as [|Hl]; [discriminate|].
  cbv zeta.
  match goal with |- context [if ?c then _ else _] => destruct c end;
    [discriminate|].
  match goal with |- context [if ?c then _ else _] => destruct c end;
    [discriminate|].
  destruct (hdr_mask (firstn 14 buf)); [discriminate|].
  pose proof (load_be16_range (skipn 2 (firstn 14 buf))) as R16.
  pose proof (load_be64_range (skipn 2 (firstn 14 buf))) as R64.
  pose proof (hdr_len7_range (firstn 14 buf)) as R7.
  match goal with
  | |- match ?L with Some _ => _ | None => _ end = _ -> _ =>
    assert (HL : L = None \/ exists h p, 2 <= h <= 10 /\ L = Some (h, p))
      by (repeat match goal with
                 | |- context [if ?c then _ else _] => destruct c
                 end; auto; right; do 2 eexists;
          (split; [|reflexivity]); lia);
    destruct HL as [HL | (h & p & Hh & HL)]; rewrite HL; clear HL
  end; [discriminate|].
  match goal with |- context [if ?c then _ else _] => destruct c end;
    [discriminate|].
  destruct (Z.ltb_spec (len buf) (to_size_t (h + to_size_t p))) as [|Hn];
    [discriminate|].
  destruct (Z.eqb_spec (to_size_t (h + to_size_t p)) 0) as [|Hz];
    [discriminate|].
  destruct (Z.ltb_spec VECTOR_MAX_SIZE (to_size_t p)) as [|Hv];
    [discriminate|].
  intros H.
  assert (E : buf' = skipn (Z.to_nat (to_size_t (h + to_size_t p))) buf).
  { repeat match type of H with
           | context [if ?c then _ else _] => destruct c
           end;
      repeat match type of H with
             | context [handleContinuationFrame ?a ?b ?c ?d ?e] =>
               destruct (handleContinuationFrame a b c d e) as [[? ?]|]
             | context [handleDataFrame ?a ?b ?c ?d ?e ?f ?g] =>
               destruct (handleDataFrame a b c d e f g) as [[? ?]|]
             | context [handleCloseFrame ?a ?b ?c] =>
               destruct (handleCloseFrame a b c)
             | context [handlePingFrame ?a ?b ?c] =>
               destruct (handlePingFrame a b c)
             end; cbn [option_map] in H; try discriminate;
        inversion H; reflexivity. }
  subst buf'. rewrite length_skipn.
  assert (Hp : 0 <= to_size_t p < 2 ^ 64)
    by (unfold to_size_t, SIZE_BITS; apply Z.mod_pos_bound; lia).
  unfold VECTOR_MAX_SIZE in Hv.
  change (2 ^ 63 - 1) with 9223372036854775807 in Hv.
  change (2 ^ 64) with 18446744073709551616 in Hp.
  assert (En : to_size_t (h + to_size_t p) = h + to_size_t p).
  { unfold to_size_t at 1. unfold SIZE_BITS.
    change (2 ^ 64) with 18446744073709551616.
    apply Z.mod_small. lia. }
  rewrite En in *. unfold len in Hn. lia.
Qed.

(** [onData] starts the loop with as many rounds as the buffer has bytes:
    they never run out, more rounds give the same result. *)
Lemma onData_rounds_enough (fuel : nat) (k : nat) :
  forall (r : Receiver) (s : Sink) (buf : list byte) (more : nat),
    (length buf <= k)%nat ->
    onData_loop (k + more) fuel r s buf = onData_loop k fuel r s buf.
Proof.
  induction k as [|k IH]; intros r s buf more Hk.
  - destruct buf; [|cbn in Hk; lia].
    destruct more; [reflexivity|].
    cbn [Nat.add onData_loop]. unfold onData_round, stop.
    destruct (rxIsTerminating s); reflexivity.
  - cbn [Nat.add onData_loop].
    destruct (onData_round fuel r s buf) as [[r' s' buf'|res]|] eqn:E;
      try reflexivity.
    apply IH. apply onData_round_drains in E. lia.
Qed.

(** When a round stops, [onData] returns what the round gives. *)
Lemma onData_stops (fuel : nat) (r : Receiver) (s : Sink) (buf : list byte)
      (res : onData_result (V := V) (Sink := Sink)) :
  onData_round fuel r s buf = Some (Stop res) ->
  2 <= len buf ->
  onData fuel r s buf = Some res.
Proof.
  intros H Hl. unfold onData. destruct buf as [|b buf'].
  - unfold len in Hl. cbn in Hl. lia.
  - cbn [length onData_loop]. rewrite H. reflexivity.
Qed.


(** ** The header rules on a buffered frame *)

(** X22. A frame that is wholly buffered and breaks one of the six header
    rules (RSV2 or RSV3 set; RSV1 set without negotiated compression; MASK
    set; a control opcode with FIN clear; a control opcode with a payload
    longer than 125; an opcode other than 0, 1, 2, 8, 9, 10) makes [onData]
    call [onRxProtocolError] with close code 1002 and return: no handler
    runs, the receiver is as before, nothing is drained and the sink has
    seen this one call. *)
Theorem onData_header_violation (fuel : nat) (r : Receiver) (s : Sink)
        (buf : list byte) :
  rxIsTerminating s = false ->
  frame_buffered buf ->
  header_violation (rxCompressionEnabled s) buf ->
  exists why,
    In why header_error_reasons
    /\ onData_round fuel r s buf
       = Some (stop r (onRxProtocolError 1002 why s) buf)
    /\ onData fuel r s buf
       = Some (mkResultData Returned r (onRxProtocolError 1002 why s) buf).
Proof.
  intros Hterm Hbuf Hv.
  assert (exists why,
             In why header_error_reasons
             /\ onData_round fuel r s buf
                = Some (stop r (onRxProtocolError 1002 why s) buf))
    as (why & Hin & Hr).
  { rewrite onData_round_buffered by assumption.
    unfold header_violation in Hv.
    destruct (rxCompressionEnabled s), (hdr_rsv1 buf) eqn:R1,
      (hdr_rsv2 buf) eqn:R2, (hdr_rsv3 buf) eqn:R3; cbn [negb andb orb];
      try (eexists; split; [|reflexivity]; cbn; auto 10).
    all: destruct (is_control (hdr_opcode buf)) eqn:C,
           (hdr_fin buf) eqn:F; cbn [negb andb orb];
      try (eexists; split; [|reflexivity]; cbn; auto 10).
    all: destruct (hdr_mask buf) eqn:M;
      try (eexists; split; [|reflexivity]; cbn; auto 10).
    all: destruct (125 <? frame_payload_len buf) eqn:L; cbn [negb andb orb];
      try (eexists; split; [|reflexivity]; cbn; auto 10).
    all: destruct Hv as [H|[H|[[H1 H2]|[H|[[H1 H2]|[[H1 H2]|H]]]]]];
      try discriminate; try (bools; lia).
    all: unfold known_opcode in H; falses; cbv zeta;
      repeat match goal with
             | E : ?a <> ?b |- context [?a =? ?b] =>
               rewrite (proj2 (Z.eqb_neq a b) E)
             end; cbn [orb];
      eexists; split; [|reflexivity]; cbn; auto 10. }
  exists why. split; [assumption|]. split; [assumption|].
  apply onData_stops with (1 := Hr).
  destruct Hbuf as [Hfull _].
  pose proof (frame_header_len_range buf).
  pose proof (frame_payload_len_range buf). lia.
Qed.

End OnData.

(** ** Claim C2 *)

(** C2, as the code has it.  [handleCloseFrame] calls [onRxClose] once,
    with the pair [sanitize_close] computes, and leaves the receiver as it
    is.  For a payload of at most 125 bytes that pair is the one of section
    4.F: 1000 and no reason for an empty payload; 1002 for one byte; for two
    bytes or more the big-endian code and the reason bytes, unless the code
    is not a permitted one or the reason is not well-formed UTF-8, and then
    1002 and no reason.  A payload of more than 125 bytes gets 1002 and no
    reason, whatever it holds. *)
Theorem handleCloseFrame_sanitized (V Sink : Type)
        (sinks : IWebSocketSinks Sink)
        (r : WebSocketReceiver V) (s : Sink) (payload : list byte) :
  exists code reason,
    handleCloseFrame r s payload = (r, onRxClose code reason s)
    /\ (len payload <= 125 -> close_sanitized payload code reason)
    /\ (125 < len payload -> code = 1002 /\ reason = []).
Proof.
  exists (fst (sanitize_close payload)), (snd (sanitize_close payload)).
  split; [|split].
  - unfold handleCloseFrame. destruct (sanitize_close payload). reflexivity.
  - apply sanitize_close_short.
  - intros H. rewrite sanitize_close_long by assumption. auto.
Qed.

(** C2 as the claim is worded fails on a close payload of 126 bytes with
    code 1000 and a reason of letters: section 4.F gives the pair (1000,
    the first 123 reason bytes), [handleCloseFrame] delivers (1002, no
    reason). *)
Lemma handleCloseFrame_long_payload :
  close_sanitized long_close_payload 1000 (repeat x61 123)
  /\ ~ close_sanitized long_close_payload 1002 []
  /\ rec_calls (snd (handleCloseFrame example_receiver plain_sink
                                      long_close_payload))
     = [RxClose 1002 []].
Proof.
  assert (Hs : close_sanitized long_close_payload 1000 (repeat x61 123)).
  { change long_close_payload with (x03 :: xe8 :: repeat x61 124).
    change 1000 with (byte_val x03 * 256 + byte_val xe8).
    change (repeat x61 123) with (firstn 123 (repeat x61 124)).
    apply close_accepted.
    - unfold permitted_close_code. cbn. lia.
    - apply isValidUtf8_iff. vm_compute. reflexivity. }
  split; [exact Hs|]. split.
  - intros H. destruct (close_sanitized_fun Hs H) as [E _]. discriminate.
  - vm_compute. reflexivity.
Qed.

Lemma onData_header_violation_witness :
  exists why,
    In why header_error_reasons
    /\ onData_round 0 example_receiver plain_sink masked_rsv2_frame
       = Some (stop example_receiver
                    (onRxProtocolError 1002 why plain_sink)
                    masked_rsv2_frame)
    /\ onData 0 example_receiver plain_sink masked_rsv2_frame
       = Some (mkResultData Returned example_receiver
                            (onRxProtocolError 1002 why plain_sink)
                            masked_rsv2_frame).
Proof.
  apply (@onData_header_violation _ _ _ _ _ 0%nat example_receiver plain_sink
                                  masked_rsv2_frame).
  - reflexivity.
  - split; vm_compute; discriminate.
  - left. reflexivity.
Defined.

(** ** Claim C1 *)

(** C1. The frame 83 7F FF FF FF FF FF FF FF FF has opcode 3, which the
    sixth header rule refuses, and a 64-bit length of 2^64 - 1.  [need]
    wraps to 9, so the ten bytes pass for a whole frame, and
    [payload.reserve] throws [std::length_error] before the [switch]
    reaches its [default]: [onData] is left by the exception, the sink has
    seen no [onRxProtocolError] and nothing is drained. *)
Theorem onData_unknown_opcode_oversized :
  known_opcode (hdr_opcode oversized_unknown_frame) = false
  /\ onData 0 example_receiver plain_sink oversized_unknown_frame
     = Some (mkResultData ThrewLengthError example_receiver plain_sink
                          oversized_unknown_frame)
  /\ rec_calls plain_sink = [].
Proof. split; [|split]; vm_compute; reflexivity. Qed.

(** ** Frames that pass the header tests *)

Section Dispatch.
Context {V : Type} {validator : Utf8Validator V}.
Context {zlib : Zlib}.
Context {Sink : Type} {sinks : IWebSocketSinks Sink}.

Local Abbreviation Receiver := (WebSocketReceiver V).

Lemma no_violation (c : bool) (buf : list byte) :
  ~ header_violation c buf ->
  ((negb c && hdr_rsv1 buf) || hdr_rsv2 buf || hdr_rsv3 buf = false)
  /\ is_control (hdr_opcode buf) && negb (hdr_fin buf) = false
  /\ hdr_mask buf = false
  /\ is_control (hdr_opcode buf) && (125 <? frame_payload_len buf) = false
  /\ known_opcode (hdr_opcode buf) = true.
Proof.
  unfold header_violation. intros H.
  destruct c, (hdr_rsv1 buf), (hdr_rsv2 buf), (hdr_rsv3 buf),
    (hdr_mask buf), (is_control (hdr_opcode buf)), (hdr_fin buf),
    (known_opcode (hdr_opcode buf));
    cbn [negb andb orb]; try tauto;
    destruct (Z.ltb_spec 125 (frame_payload_len buf)); tauto.
Qed.

(** A frame that is wholly buffered and breaks no header rule goes to the
    handler of its opcode and is drained. *)
Lemma onData_round_dispatch (fuel : nat) (r : Receiver) (s : Sink)
      (buf : list byte) :
  rxIsTerminating s = false ->
  frame_buffered buf ->
  ~ header_violation (rxCompressionEnabled s) buf ->
  onData_round fuel r s buf
  = let payload := frame_payload buf in
    let opcode := hdr_opcode buf in
    if opcode =? 0x00 then
      option_map (fun '(r', s') => NextFrame r' s' (frame_rest buf))
        (handleContinuationFrame fuel r s payload (hdr_fin buf))
    else if (opcode =? 0x01) || (opcode =? 0x02) then
      option_map (fun '(r', s') => NextFrame r' s' (frame_rest buf))
        (handleDataFrame fuel r s payload (hdr_fin buf) opcode
                         (hdr_rsv1 buf))
    else if opcode =? 0x08 then
      Some (let '(r', s') := handleCloseFrame r s payload in
            NextFrame r' s' (frame_rest buf))
    else if opcode =? 0x09 then
      Some (let '(r', s') := handlePingFrame r s payload in
            NextFrame r' s' (frame_rest buf))
    else Some (NextFrame r s (frame_rest buf)).
Proof.
  intros Hterm Hbuf Hv.
  rewrite onData_round_buffered by assumption.
  destruct (no_violation Hv) as (E1 & E2 & E3 & E4 & E5).
  rewrite E1, E2, E3, E4. cbv zeta.
  unfold known_opcode in E5.
  destruct (hdr_opcode buf =? 0); [reflexivity|].
  destruct (hdr_opcode buf =? 1); [reflexivity|].
  destruct (hdr_opcode buf =? 2); [reflexivity|].
  destruct (hdr_opcode buf =? 8); [reflexivity|].
  destruct (hdr_opcode buf =? 9); [reflexivity|].
  destruct (hdr_opcode buf =? 10); [reflexivity|discriminate].
Qed.


(** ** Claim C7 *)

(** C7. A continuation frame while no message is under assembly, and a
    data frame (opcode 1 or 2) while one is, are answered with
    [onRxProtocolError] and close code 1002; the receiver, and with it the
    assembly buffer, stays as it was.  This holds of the two handlers and of
    [onData] handing them a buffered frame. *)
Theorem fragment_sequencing (fuel : nat) (r : Receiver) (s : Sink) :
  (forall payload fin,
      message_in_progress r = false ->
      handleContinuationFrame fuel r s payload fin
      = Some (r, onRxProtocolError
                   1002 "continuation frame without initial frame" s))
  /\ (forall payload fin opcode rsv1,
         message_in_progress r = true ->
         handleDataFrame fuel r s payload fin opcode rsv1
         = Some (r, onRxProtocolError 1002
              "Received new data frame when expecting continuation frame" s))
  /\ (forall buf,
         rxIsTerminating s = false ->
         frame_buffered buf ->
         ~ header_violation (rxCompressionEnabled s) buf ->
         (hdr_opcode buf = 0 -> message_in_progress r = false ->
          onData_round fuel r s buf
          = Some (NextFrame r
                    (onRxProtocolError
                       1002 "continuation frame without initial frame" s)
                    (frame_rest buf)))
         /\ (hdr_opcode buf = 1 \/ hdr_opcode buf = 2 ->
             message_in_progress r = true ->
             onData_round fuel r s buf
             = Some (NextFrame r
                       (onRxProtocolError 1002
              "Received new data frame when expecting continuation frame" s)
                       (frame_rest buf)))).
Proof.
  assert (A : forall payload fin,
             message_in_progress r = false ->
             handleContinuationFrame fuel r s payload fin
             = Some (r, onRxProtocolError
                          1002 "continuation frame without initial frame" s)).
  { intros payload fin H. unfold handleContinuationFrame. rewrite H.
    reflexivity. }
  assert (B : forall payload fin opcode rsv1,
             message_in_progress r = true ->
             handleDataFrame fuel r s payload fin opcode rsv1
             = Some (r, onRxProtocolError 1002
              "Received new data frame when expecting continuation frame" s)).
  { intros payload fin opcode rsv1 H. unfold handleDataFrame. rewrite H.
    reflexivity. }
  split; [exact A|]. split; [exact B|].
  intros buf Hterm Hbuf Hv. split.
  - intros Hop Hm. rewrite onData_round_dispatch by assumption.
    cbv zeta. rewrite Hop. cbn [Z.eqb]. rewrite A by assumption. reflexivity.
  - intros Hop Hm. rewrite onData_round_dispatch by assumption.
    cbv zeta. rewrite B by assumption.
    destruct Hop as [-> | ->]; reflexivity.
Qed.

(** ** Claim C8 *)


End Dispatch.



(** ** The transmit path *)

Unset Implicit Arguments.

Section Transmit.
Context {V : Type} {validator : Utf8Validator V}.
Context {zlib : Zlib}.
Context {Sink : Type} {sinks : IWebSocketSinks Sink}.

Local Abbreviation Receiver := (WebSocketReceiver V).

Lemma to_uInt_small (x : Z) : 0 <= x < 2 ^ UINT_BITS -> to_uInt x = x.
Proof. intros. unfold to_uInt. apply Z.mod_small. assumption. Qed.

Lemma to_size_t_small (x : Z) : 0 <= x < 2 ^ SIZE_BITS -> to_size_t x = x.
Proof. intros. unfold to_size_t. apply Z.mod_small. assumption. Qed.

Lemma to_size_t_range (x : Z) : 0 <= to_size_t x < 2 ^ SIZE_BITS.
Proof. unfold to_size_t. apply Z.mod_pos_bound. reflexivity. Qed.

Lemma at_app_l (w rest : list byte) (i : nat) :
  (i < length w)%nat -> at_ (w ++ rest) i = at_ w i.
Proof. intros. unfold at_. rewrite app_nth1 by assumption. reflexivity. Qed.

(** The four tests on the end of the buffer. *)
Lemma tail_tests (w : list byte) :
  (4 <= length w)%nat ->
  (at_ w (length w - 4) =? 0x00) && (at_ w (length w - 3) =? 0x00)
  && (at_ w (length w - 2) =? 0xFF) && (at_ w (length w - 1) =? 0xFF)
  = ends_with_sync_tail w.
Proof.
  intros H. unfold ends_with_sync_tail, at_.
  assert (L' : length (skipn (length w - 4) w) = 4%nat)
    by (rewrite length_skipn; lia).
  replace (length w - 3)%nat with (length w - 4 + 1)%nat by lia.
  replace (length w - 2)%nat with (length w - 4 + 2)%nat by lia.
  replace (length w - 1)%nat with (length w - 4 + 3)%nat by lia.
  rewrite <- (Nat.add_0_r (length w - 4)) at 1.
  rewrite <- !nth_skipn.
  destruct (skipn (length w - 4) w) as [|a [|b [|c [|d [|e t]]]]];
    try discriminate.
  cbn [nth].
  destruct (list_eq_dec byte_eq_dec [a; b; c; d] sync_tail) as [E|E].
  - inversion E; subst. reflexivity.
  - destruct (Z.eqb_spec (byte_val a) 0), (Z.eqb_spec (byte_val b) 0),
      (Z.eqb_spec (byte_val c) 255), (Z.eqb_spec (byte_val d) 255);
      try reflexivity.
    exfalso. apply E. unfold sync_tail.
    f_equal; [|f_equal; [|f_equal; [|f_equal]]];
      apply byte_val_inj; assumption.
Qed.

Lemma len_firstn_le (A : Type) (n : Z) (l : list A) :
  0 <= n -> len (firstn (Z.to_nat n) l) <= n.
Proof. intros. unfold len. rewrite length_firstn. lia. Qed.

Lemma firstn_len (A : Type) (l : list A) : firstn (Z.to_nat (len l)) l = l.
Proof. unfold len. rewrite Nat2Z.id. apply firstn_all. Qed.

Lemma to_nat_len (A : Type) (l : list A) : Z.to_nat (len l) = length l.
Proof. unfold len. apply Nat2Z.id. Qed.

Lemma tx_room_range (p : list Z) (n k : Z) :
  0 <= k <= 3 ->
  to_size_t (deflateBound_alg p [] n) + 256 < 2 ^ UINT_BITS ->
  64 <= tx_room p n k < 2 ^ UINT_BITS.
Proof.
  intros Hk H. unfold tx_room, slack.
  pose proof (to_size_t_range (deflateBound_alg p [] n)). lia.
Qed.

(** One round of the retry loop is one SYNC_FLUSH step on the whole
    payload by the stream just reset, judged as section 4.D says. *)
Lemma txDeflate_attempt_refines (r : Receiver) (input : list byte) (k : Z) :
  deflate_initialized r = true ->
  fits_uInt (zs_params (deflate_stream r)) input ->
  0 <= k <= 3 ->
  let p := zs_params (deflate_stream r) in
  let room := tx_room p (len input) k in
  let call := mkCall input room Z_SYNC_FLUSH in
  match judge room (sync_flush_step p input k) with
  | TryLarger =>
    exists r', txDeflate_attempt r input k = Retry r'
               /\ tx_kept r r' /\ zs_calls (deflate_stream r') = [call]
  | GiveUp =>
    exists r', txDeflate_attempt r input k = Return_ false r'
               /\ tx_kept r r' /\ zs_calls (deflate_stream r') = [call]
  | Accept payload =>
    exists r4,
      tx_kept r r4 /\ zs_calls (deflate_stream r4) = [call]
      /\ tx_payload_len r4 = len payload
      /\ firstn (length payload) (tx_compressed_buf r4) = payload
      /\ txDeflate_attempt r input k
         = if client_no_context_takeover (_cfg r)
           then let '(ok, r5) := txReinitAfterNoContextTakeover r4 in
                Return_ ok r5
           else Return_ true r4
  end.
Proof.
  intros Hinit [Hin Hout] Hk p room call.
  pose proof (tx_room_range p (len input) k Hk Hout) as Hroom. fold p room in Hroom.
  pose proof (len_nonneg input) as Hn.
  assert (Hsz : 2 ^ UINT_BITS < 2 ^ SIZE_BITS) by reflexivity.
  unfold txDeflate_attempt, txResetDeflate. rewrite Hinit. cbn [negb].
  cbn [deflate_stream set_deflate set_tx_buf tx_compressed_buf
       deflate_initialized _cfg].
  unfold deflateBound. cbn [zReset zs_params zs_calls]. fold p.
  replace (to_size_t (to_size_t (deflateBound_alg p [] (len input))
                      + 64 * (k + 1))) with room
    by (symmetry; apply to_size_t_small; unfold room, tx_room, slack in *;
        lia).
  rewrite !to_uInt_small by lia.
  unfold deflate, zcall_run.
  cbn [set_avail_out set_in zs_params zs_calls next_in avail_in avail_out
       zReset app].
  rewrite !firstn_len. fold p call.
  unfold sync_flush_step. fold p room call.
  set (res := deflate_alg p [] call).
  set (written := firstn (Z.to_nat room) (zr_out res)).
  pose proof (len_firstn_le _ room (zr_out res) ltac:(lia)) as Hw.
  fold written in Hw. pose proof (len_nonneg written) as Hw0.
  cbn [judge].
  replace (to_size_t (room - (room - len written))) with (len written)
    by (symmetry; replace (room - (room - len written)) with (len written)
          by lia; apply to_size_t_small; lia).
  replace (room - len written =? 0) with (len written =? room)
    by (destruct (Z.eqb_spec (len written) room),
          (Z.eqb_spec (room - len written) 0); lia || reflexivity).
  unfold tx_kept.
  destruct (negb (zr_ret res =? Z_OK)) eqn:Eret.
  { destruct ((zr_ret res =? Z_BUF_ERROR) || (len written =? room));
      eexists; (split; [reflexivity|]); cbn; auto. }
  destruct (len written <? 4) eqn:E4.
  { eexists; (split; [reflexivity|]); cbn; auto. }
  apply Z.ltb_ge in E4.
  rewrite !to_nat_len.
  unfold write_at_start.
  assert (Hl : (4 <= length written)%nat) by (unfold len in E4; lia).
  rewrite !at_app_l by lia. rewrite tail_tests by assumption.
  destruct (ends_with_sync_tail written) eqn:Et; cbn [negb].
  2:{ eexists; (split; [reflexivity|]); cbn; auto. }
  match goal with
  | |- context [set_tx_payload_len ?x ?y] => exists (set_tx_payload_len x y)
  end.
  split; [|split; [|split; [|split]]].
  5:{ cbn [_cfg set_tx_payload_len set_tx_buf set_deflate].
      destruct (client_no_context_takeover (_cfg r)); [|reflexivity].
      match goal with
      | |- context [txReinitAfterNoContextTakeover ?x] =>
        destruct (txReinitAfterNoContextTakeover x) as [[|] r5]
      end; reflexivity. }
  - cbn. auto.
  - cbn. reflexivity.
  - cbn. unfold len. rewrite length_firstn. lia.
  - cbn. rewrite length_firstn.
    rewrite firstn_app.
    replace (Nat.min (length written - 4) (length written)
             - length written)%nat with 0%nat by lia.
    cbn [firstn]. rewrite app_nil_r. f_equal. lia.
Qed.

Lemma judge_accept (room ret : Z) (written payload : list byte) :
  judge room (ret, written) = Accept payload ->
  ret = Z_OK /\ written = payload ++ sync_tail.
Proof.
  cbn [judge].
  destruct (Z.eqb_spec ret Z_OK) as [E|E]; cbn [negb].
  2:{ destruct ((ret =? Z_BUF_ERROR) || (len written =? room));
      discriminate. }
  destruct (len written <? 4); [discriminate|].
  unfold ends_with_sync_tail.
  destruct (list_eq_dec byte_eq_dec (skipn (length written - 4) written)
                        sync_tail) as [T|T]; [|discriminate].
  intros H. inversion H. split; [assumption|].
  rewrite <- T. symmetry. apply firstn_skipn.
Qed.

Lemma txReinit_spec (r : Receiver) :
  deflate_initialized r = true ->
  (deflateInit2_ret (deflate_params (_cfg r)) = Z_OK ->
   txReinitAfterNoContextTakeover r
   = (true, set_deflate r (fresh_deflate_stream (_cfg r)) true))
  /\ (deflateInit2_ret (deflate_params (_cfg r)) <> Z_OK ->
      txReinitAfterNoContextTakeover r
      = (false, set_deflate r z_stream_zero false)).
Proof.
  intros Hinit. unfold txReinitAfterNoContextTakeover, deflateInit2.
  rewrite Hinit. cbn [negb]. split; intros H.
  - rewrite H. reflexivity.
  - rewrite (proj2 (Z.eqb_neq _ _) H). cbn [negb].
    rewrite (proj2 (Z.eqb_neq _ _) H). reflexivity.
Qed.

(** The retry loop refines the search for the first verdict. *)
Lemma txDeflate_loop_refines (input : list byte) (m : nat) :
  forall (r : Receiver) (k : Z),
    deflate_initialized r = true ->
    fits_uInt (zs_params (deflate_stream r)) input ->
    0 <= k -> k + Z.of_nat m <= 4 ->
    let p := zs_params (deflate_stream r) in
    match first_verdict m p input k with
    | Accept payload =>
      exists r4 j,
        k <= j <= 3
        /\ (forall i, k <= i < j ->
              judge (tx_room p (len input) i) (sync_flush_step p input i)
              = TryLarger)
        /\ sync_flush_step p input j = (Z_OK, payload ++ sync_tail)
        /\ tx_kept r r4
        /\ zs_calls (deflate_stream r4)
           = [mkCall input (tx_room p (len input) j) Z_SYNC_FLUSH]
        /\ tx_payload_len r4 = len payload
        /\ firstn (length payload) (tx_compressed_buf r4) = payload
        /\ txDeflate_loop m r input k
           = if client_no_context_takeover (_cfg r)
             then txReinitAfterNoContextTakeover r4
             else (true, r4)
    | _ => fst (txDeflate_loop m r input k) = false
    end.
Proof.
  induction m as [|m IH]; intros r k Hinit Hfit Hk0 Hk4 p.
  - reflexivity.
  - pose proof (txDeflate_attempt_refines r input k Hinit Hfit
                                          ltac:(lia)) as A.
    cbv zeta in A. fold p in A.
    cbn [first_verdict txDeflate_loop].
    destruct (judge (tx_room p (len input) k) (sync_flush_step p input k))
      as [payload| |] eqn:J.
    + destruct A as (r4 & K & C & L & B & A).
      exists r4, k. split; [lia|]. split; [intros; lia|].
      destruct (sync_flush_step p input k) as [ret written] eqn:St.
      destruct (judge_accept _ _ _ _ J) as [-> ->].
      split; [reflexivity|]. split; [assumption|]. split; [assumption|].
      split; [assumption|]. split; [assumption|].
      rewrite A. destruct (client_no_context_takeover (_cfg r));
        [|reflexivity].
      destruct (txReinitAfterNoContextTakeover r4); reflexivity.
    + destruct A as (r' & -> & (Kc & Ki & Kp) & _).
      specialize (IH r' (k + 1) Ki).
      rewrite Kp in IH. fold p in IH.
      specialize (IH Hfit ltac:(lia) ltac:(lia)). cbv zeta in IH.
      destruct (first_verdict m p input (k + 1)) as [payload| |];
        try exact IH.
      destruct IH as (r4 & j & Hj & Hbefore & Hstep & (Tc & Ti & Tp) & Hc
                      & Hl & Hb & Hr).
      exists r4, j. split; [lia|]. split.
      { intros i Hi. destruct (Z.eq_dec i k) as [->|]; [assumption|].
        apply Hbefore. lia. }
      split; [assumption|]. split.
      { unfold tx_kept. rewrite Tc, Tp, Kc, Kp. auto. }
      split; [assumption|]. split; [assumption|]. split; [assumption|].
      rewrite Hr, Kc. reflexivity.
    + destruct A as (r' & -> & _). reflexivity.
Qed.

(** [txDeflate] on an initialised stream does what [first_verdict]
    tells. *)
Lemma txDeflate_refines (r : Receiver) (input : list byte) :
  deflate_initialized r = true ->
  fits_uInt (zs_params (deflate_stream r)) input ->
  txDeflate_outcome r input.
Proof.
  intros Hinit Hfit. unfold txDeflate_outcome.
  pose proof (txDeflate_loop_refines input 4 r 0 Hinit Hfit
                                     ltac:(lia) ltac:(lia)) as L.
  cbv zeta in *. unfold txDeflate. rewrite Hinit. cbn [negb].
  destruct (first_verdict 4 (zs_params (deflate_stream r)) input 0)
    as [payload| |]; try exact L.
  destruct L as (r4 & j & Hj & Hbefore & Hstep & K & Hc & Hl & Hb & Hr).
  exists r4, j. repeat (split; [assumption|]).
  destruct K as (Kc & Ki & Kp).
  destruct (txReinit_spec r4 Ki) as [R1 R2]. rewrite Kc in R1, R2.
  rewrite Hr. split.
  - intros ->. reflexivity.
  - intros ->. split; assumption.
Qed.

(** ** txDeflate within the 32-bit counters of zlib *)

(** X21. On a payload that fits zlib's 32-bit counters, [txDeflate] makes
    up to four attempts, attempt [k] with the output room
    [deflateBound + 64 * (k + 1)]; each attempt resets the stream and runs
    one [deflate] call with [Z_SYNC_FLUSH] on the whole payload.  It goes to
    the next attempt when the step asks for more room, writes fewer than 4
    bytes or does not end in 00 00 FF FF.  It accepts the first step that
    answers [Z_OK] and ends in that tail: [tx_payload_len] is the number of
    bytes produced less 4 and the transmit buffer starts with the output
    without its tail.  With [client_no_context_takeover] the stream is then
    ended and initialised anew; if that fails [txDeflate] returns false. *)
Theorem txDeflate_sync_flush (r : Receiver) (input : list byte) :
  deflate_initialized r = true ->
  fits_uInt (zs_params (deflate_stream r)) input ->
  txDeflate_outcome r input.
Proof.
  intros Hinit Hfit. apply txDeflate_refines; assumption.
Qed.

(** ** Claim C6 *)

(** C6. [txPrepare] returns true on every input.  When compression is not
    requested, not negotiated, not initialised, or [txDeflate] fails, the
    out-parameters are the original pointer and length with
    [do_compress = false]; they are the transmit buffer and
    [tx_payload_len] with [do_compress = true] exactly when [txDeflate] was
    run and returned true. *)
Theorem txPrepare_never_fails (r : Receiver) (original : list byte)
        (request_compress : bool) :
  let p := fst (txPrepare r original request_compress) in
  let r' := snd (txPrepare r original request_compress) in
  let deflated :=
    request_compress && enabled (_cfg r) && deflate_initialized r
    && fst (txDeflate r original) in
  result p = true
  /\ do_compress p = deflated
  /\ (deflated = false ->
      payload_ptr p = OriginalPayload /\ payload_len p = len original
      /\ prepared_bytes p r' original = original)
  /\ (deflated = true ->
      payload_ptr p = CompressedBuf
      /\ r' = snd (txDeflate r original)
      /\ payload_len p = tx_payload_len r'
      /\ prepared_bytes p r' original = compressed_bytes r').
Proof.
  unfold txPrepare.
  destruct request_compress; cbn [negb andb fst snd];
    [|unfold prepared_bytes; cbn; rewrite firstn_len;
      repeat split; auto; discriminate].
  destruct (enabled (_cfg r)); cbn [negb andb fst snd];
    [|unfold prepared_bytes; cbn; rewrite firstn_len;
      repeat split; auto; discriminate].
  destruct (deflate_initialized r); cbn [negb andb fst snd];
    [|unfold prepared_bytes; cbn; rewrite firstn_len;
      repeat split; auto; discriminate].
  destruct (txDeflate r original) as [[|] r1]; cbn [negb andb fst snd];
    unfold prepared_bytes, compressed_bytes; cbn; rewrite ?firstn_len;
    repeat split; auto; discriminate.
Qed.

(** ** The stream between messages *)


(** Whatever the payload, an attempt keeps the configuration, leaves at
    most one call in the history of the stream, and a stream that is still
    initialised has the parameters it had or those of the configuration. *)
Lemma txDeflate_attempt_keeps (r : Receiver) (input : list byte) (k : Z) :
  deflate_initialized r = true ->
  match txDeflate_attempt r input k with
  | Retry r' =>
    _cfg r' = _cfg r /\ deflate_initialized r' = true
    /\ zs_params (deflate_stream r') = zs_params (deflate_stream r)
    /\ (length (zs_calls (deflate_stream r')) <= 1)%nat
  | Return_ _ r' =>
    _cfg r' = _cfg r
    /\ (length (zs_calls (deflate_stream r')) <= 1)%nat
    /\ (deflate_initialized r' = true ->
        zs_params (deflate_stream r') = zs_params (deflate_stream r)
        \/ zs_params (deflate_stream r') = deflate_params (_cfg r))
  end.
Proof.
  intros Hinit.
  unfold txDeflate_attempt, txResetDeflate, txReinitAfterNoContextTakeover,
    deflate, zcall_run, deflateInit2.
  rewrite Hinit. cbn [negb].
  cbn [set_deflate set_tx_buf set_tx_payload_len set_avail_out set_in zReset
       _cfg deflate_initialized deflate_stream zs_params zs_calls negb].
  split_ifs; cbn; repeat split; intros; try congruence; try lia; auto.
Qed.

Lemma txDeflate_loop_keeps (input : list byte) (m : nat) :
  forall (r : Receiver) (k : Z),
    deflate_initialized r = true ->
    let r' := snd (txDeflate_loop m r input k) in
    _cfg r' = _cfg r
    /\ (m <> 0%nat -> (length (zs_calls (deflate_stream r')) <= 1)%nat)
    /\ (deflate_initialized r' = true ->
        zs_params (deflate_stream r') = zs_params (deflate_stream r)
        \/ zs_params (deflate_stream r') = deflate_params (_cfg r)).
Proof.
  induction m as [|m IH]; intros r k Hinit; cbv zeta.
  - cbn. repeat split; auto. congruence.
  - cbn [txDeflate_loop].
    pose proof (txDeflate_attempt_keeps r input k Hinit) as A.
    destruct (txDeflate_attempt r input k) as [r1|ok r1].
    + destruct A as (Ac & Ai & Ap & Al).
      specialize (IH r1 (k + 1) Ai). cbv zeta in IH.
      destruct IH as (Ic & Il & Ip). rewrite Ic, Ac.
      split; [reflexivity|]. split.
      * intros _. destruct m; [cbn; assumption|apply Il; discriminate].
      * intros Hi. specialize (Ip Hi). rewrite Ap, Ac in Ip. assumption.
    + cbn [snd]. destruct A as (Ac & Al & Ap). auto.
Qed.

Lemma txDeflate_keeps (r : Receiver) (input : list byte) :
  let r' := snd (txDeflate r input) in
  _cfg r' = _cfg r
  /\ (deflate_initialized r' = true ->
      deflate_initialized r = true
      /\ (length (zs_calls (deflate_stream r')) <= 1)%nat
      /\ (zs_params (deflate_stream r') = zs_params (deflate_stream r)
          \/ zs_params (deflate_stream r') = deflate_params (_cfg r))).
Proof.
  cbv zeta. unfold txDeflate.
  destruct (deflate_initialized r) eqn:Hinit; cbn [negb snd].
  - destruct (txDeflate_loop_keeps input 4 r 0 Hinit) as (Hc & Hl & Hp).
    split; [assumption|]. intros Hi. split; [reflexivity|].
    split; [apply Hl; discriminate|apply Hp; assumption].
  - split; [reflexivity|]. congruence.
Qed.

(** After any messages the stream, if still initialised, has the
    parameters of the configuration. *)
Lemma compress_all_keeps (ms : list (list byte)) :
  forall r : Receiver,
    zs_params (deflate_stream r) = deflate_params (_cfg r) ->
    _cfg (compress_all r ms) = _cfg r
    /\ (deflate_initialized (compress_all r ms) = true ->
        zs_params (deflate_stream (compress_all r ms))
        = deflate_params (_cfg r)).
Proof.
  unfold compress_all.
  induction ms as [|m ms IH]; intros r Hp; cbn [fold_left].
  - auto.
  - destruct (txDeflate_keeps r m) as (Kc & Ki). cbv zeta in Kc, Ki.
    destruct (deflate_initialized (snd (txDeflate r m))) eqn:E.
    + destruct (Ki eq_refl) as (_ & _ & Kp).
      assert (Hp' : zs_params (deflate_stream (snd (txDeflate r m)))
                    = deflate_params (_cfg (snd (txDeflate r m)))).
      { rewrite Kc. destruct Kp as [Kp|Kp]; congruence. }
      destruct (IH _ Hp') as (Ic & Ii). rewrite Ic, Kc. split; [reflexivity|].
      intros H. rewrite (Ii H), Kc. reflexivity.
    + assert (Hstay : forall ms' (r0 : Receiver),
                 deflate_initialized r0 = false ->
                 fold_left (fun r1 m0 => snd (txDeflate r1 m0)) ms' r0 = r0).
      { induction ms' as [|m' ms' IH']; intros r0 H0; cbn [fold_left];
          [reflexivity|].
        unfold txDeflate at 2. rewrite H0. cbn [negb snd]. apply IH'.
        assumption. }
      rewrite Hstay by assumption. split; [assumption|]. congruence.
Qed.

(** Two receivers with the same configuration and stream parameters
    compress a payload to the same bytes, whatever their streams and
    buffers have seen before. *)
Lemma txDeflate_same_output (r1 r2 : Receiver) (input : list byte) :
  deflate_initialized r1 = true ->
  deflate_initialized r2 = true ->
  _cfg r1 = _cfg r2 ->
  zs_params (deflate_stream r1) = zs_params (deflate_stream r2) ->
  fits_uInt (zs_params (deflate_stream r1)) input ->
  fst (txDeflate r1 input) = fst (txDeflate r2 input)
  /\ (fst (txDeflate r1 input) = true ->
      compressed_bytes (snd (txDeflate r1 input))
      = compressed_bytes (snd (txDeflate r2 input))).
Proof.
  intros H1 H2 Hc Hp Hfit.
  pose proof (txDeflate_refines r1 input H1 Hfit) as O1.
  assert (Hfit2 : fits_uInt (zs_params (deflate_stream r2)) input)
    by (rewrite <- Hp; assumption).
  pose proof (txDeflate_refines r2 input H2 Hfit2) as O2.
  unfold txDeflate_outcome in O1, O2. cbv zeta in O1, O2.
  rewrite <- Hp in O2.
  destruct (first_verdict 4 (zs_params (deflate_stream r1)) input 0)
    as [payload| |].
  2,3: rewrite O1, O2; split; [reflexivity|discriminate].
  destruct O1 as (a & _ & _ & _ & _ & _ & _ & La & Ba & Na & Ta).
  destruct O2 as (b & _ & _ & _ & _ & _ & _ & Lb & Bb & Nb & Tb).
  rewrite <- Hc in Nb, Tb.
  assert (Ca : compressed_bytes a = payload)
    by (unfold compressed_bytes; rewrite La, to_nat_len; assumption).
  assert (Cb : compressed_bytes b = payload)
    by (unfold compressed_bytes; rewrite Lb, to_nat_len; assumption).
  destruct (client_no_context_takeover (_cfg r1)).
  - destruct (Z.eq_dec (deflateInit2_ret (deflate_params (_cfg r1))) Z_OK)
      as [E|E].
    + rewrite (proj1 (Ta eq_refl) E), (proj1 (Tb eq_refl) E).
      cbn [fst snd]. split; [reflexivity|]. intros _.
      unfold compressed_bytes in *. cbn. congruence.
    + rewrite (proj2 (Ta eq_refl) E), (proj2 (Tb eq_refl) E).
      split; [reflexivity|discriminate].
  - rewrite (Na eq_refl), (Nb eq_refl). cbn [fst snd].
    split; [reflexivity|]. intros _. congruence.
Qed.

(** ** Payloads beyond the 32-bit counters of zlib *)

Lemma at_nil (i : nat) : at_ [] i = 0.
Proof. unfold at_. destruct i; reflexivity. Qed.

Lemma tx_buf_clean_nil : tx_buf_clean [].
Proof. intros i _. apply at_nil. Qed.

Lemma at_repeat_zero (n i : nat) : at_ (repeat x00 n) i = 0.
Proof.
  unfold at_. revert i. induction n as [|n IH]; intros [|i]; cbn;
    try reflexivity. apply IH.
Qed.

Lemma at_app_r (w rest : list byte) (i : nat) :
  (length w <= i)%nat -> at_ (w ++ rest) i = at_ rest (i - length w).
Proof. intros H. unfold at_. rewrite app_nth2 by lia. reflexivity. Qed.

Lemma at_firstn_cut (b : list byte) (n i : nat) :
  at_ (firstn n b) i = if (i <? n)%nat then at_ b i else 0.
Proof.
  unfold at_. destruct (Nat.ltb_spec i n) as [L|L].
  - revert i n L. induction b as [|x b IH]; intros [|i] [|n] L; cbn;
      try reflexivity; try lia. apply IH. lia.
  - rewrite nth_overflow; [reflexivity|]. rewrite length_firstn. lia.
Qed.

Lemma at_skipn (b : list byte) (n i : nat) :
  at_ (skipn n b) i = at_ b (n + i).
Proof.
  unfold at_. revert b. induction n as [|n IH]; intros b; [reflexivity|].
  destruct b as [|x b]; cbn [skipn Nat.add nth].
  - destruct i; reflexivity.
  - apply IH.
Qed.

(** A byte of the transmit buffer beyond what [deflate] wrote is the byte
    the buffer held there before, or zero. *)
Lemma at_resized (b written : list byte) (n : Z) (i : nat) :
  (length written <= i)%nat ->
  at_ (write_at_start (resize b n) written) i = 0
  \/ at_ (write_at_start (resize b n) written) i = at_ b i.
Proof.
  intros H. unfold write_at_start, resize.
  rewrite at_app_r by assumption. rewrite at_skipn.
  replace (length written + (i - length written))%nat with i by lia.
  destruct (Nat.lt_ge_cases i (length (firstn (Z.to_nat n) b))) as [L|L].
  - rewrite at_app_l by assumption. rewrite at_firstn_cut.
    destruct (i <? Z.to_nat n)%nat; auto.
  - rewrite at_app_r by assumption. left. apply at_repeat_zero.
Qed.

Lemma tx_buf_clean_write (b written : list byte) (n : Z) :
  tx_buf_clean b ->
  len written < 2 ^ UINT_BITS ->
  tx_buf_clean (write_at_start (resize b n) written).
Proof.
  intros Hb Hw i Hi.
  destruct (at_resized b written n i) as [E|E].
  - unfold len in Hw. lia.
  - assumption.
  - rewrite E. apply Hb. assumption.
Qed.

(** The tail test of an attempt and the bytes it accepts do not depend on
    what the buffer held: within the 32-bit range they lie in the bytes
    [deflate] wrote, beyond it the last byte tested is zero. *)
Lemma tail_test_alike (b1 b2 written : list byte) (B : Z) :
  tx_buf_clean b1 -> tx_buf_clean b2 ->
  0 <= B < 2 ^ SIZE_BITS ->
  len written <= to_uInt B ->
  let produced := to_size_t (B - (to_uInt B - len written)) in
  let n := Z.to_nat produced in
  let test b :=
      negb ((at_ (write_at_start (resize b B) written) (n - 4) =? 0x00)
            && (at_ (write_at_start (resize b B) written) (n - 3) =? 0x00)
            && (at_ (write_at_start (resize b B) written) (n - 2) =? 0xFF)
            && (at_ (write_at_start (resize b B) written) (n - 1) =? 0xFF)) in
  4 <= produced ->
  test b1 = test b2
  /\ (test b1 = false ->
      firstn (Z.to_nat (produced - 4)) (write_at_start (resize b1 B) written)
      = firstn (Z.to_nat (produced - 4))
               (write_at_start (resize b2 B) written)).
Proof.
  intros C1 C2 HB Hw produced n test H4.
  pose proof (len_nonneg written) as Hw0.
  assert (Hu : 0 <= to_uInt B < 2 ^ UINT_BITS)
    by (unfold to_uInt; apply Z.mod_pos_bound; reflexivity).
  assert (Hsz : 2 ^ UINT_BITS < 2 ^ SIZE_BITS) by reflexivity.
  assert (HuB : to_uInt B <= B)
    by (unfold to_uInt; apply Z.mod_le; [lia|reflexivity]).
  assert (Hprod : produced = B - to_uInt B + len written).
  { unfold produced. rewrite to_size_t_small by lia. lia. }
  destruct (Z.lt_ge_cases B (2 ^ UINT_BITS)) as [Small|Big].
  - assert (E : to_uInt B = B) by (apply to_uInt_small; lia).
    assert (Hn : n = length written).
    { unfold n. rewrite Hprod, E. unfold len. lia. }
    assert (Hl : (4 <= length written)%nat).
    { rewrite Hprod, E in H4. unfold len in H4. lia. }
    unfold test, write_at_start. rewrite Hn.
    rewrite !at_app_l by lia. split; [reflexivity|]. intros _.
    replace (Z.to_nat (produced - 4)) with (length written - 4)%nat
      by (rewrite Hprod, E; unfold len; lia).
    rewrite !firstn_app.
    replace (length written - 4 - length written)%nat with 0%nat by lia.
    reflexivity.
  - assert (Hmod : B - to_uInt B >= 2 ^ UINT_BITS).
    { unfold to_uInt.
      pose proof (Z.div_mod B (2 ^ UINT_BITS) ltac:(discriminate)) as D.
      assert (1 <= B / 2 ^ UINT_BITS)
        by (apply Z.div_le_lower_bound; [reflexivity|lia]).
      assert (2 ^ UINT_BITS * 1 <= 2 ^ UINT_BITS * (B / 2 ^ UINT_BITS))
        by (apply Z.mul_le_mono_nonneg_l; [discriminate|assumption]).
      lia. }
    assert (Z1 : forall b, tx_buf_clean b ->
                           at_ (write_at_start (resize b B) written) (n - 1)
                           = 0).
    { intros b Cb. apply (tx_buf_clean_write b written B Cb); [lia|].
      unfold n. rewrite Hprod. lia. }
    unfold test. rewrite (Z1 b1 C1), (Z1 b2 C2).
    cbn [Z.eqb]. rewrite !andb_false_r. cbn [negb].
    split; [reflexivity|discriminate].
Qed.

Lemma txDeflate_attempt_alike (r1 r2 : Receiver) (input : list byte)
      (k : Z) :
  tx_alike r1 r2 ->
  match txDeflate_attempt r1 input k, txDeflate_attempt r2 input k with
  | Retry a, Retry b => tx_alike a b
  | Return_ oa a, Return_ ob b =>
    oa = ob /\ (oa = true -> compressed_bytes a = compressed_bytes b)
  | _, _ => False
  end.
Proof.
  intros (Hc & H1 & H2 & Hp & C1 & C2).
  unfold txDeflate_attempt, txResetDeflate. rewrite H1, H2. cbn [negb].
  cbn [deflate_stream set_deflate set_tx_buf tx_compressed_buf
       deflate_initialized _cfg].
  unfold deflateBound, deflate, zcall_run.
  cbn [set_avail_out set_in zs_params zs_calls next_in avail_in avail_out
       zReset app].
  rewrite <- Hp.
  set (p := zs_params (deflate_stream r1)).
  set (B := to_size_t (to_size_t (deflateBound_alg p [] (len input))
                       + 64 * (k + 1))).
  set (call := mkCall (firstn (Z.to_nat (to_uInt (len input))) input)
                      (to_uInt B) Z_SYNC_FLUSH).
  set (res := deflate_alg p [] call).
  set (written := firstn (Z.to_nat (to_uInt B)) (zr_out res)).
  set (s' := mkStream p [call] _ _ _).
  assert (HB : 0 <= B < 2 ^ SIZE_BITS) by apply to_size_t_range.
  assert (Hu : 0 <= to_uInt B < 2 ^ UINT_BITS)
    by (unfold to_uInt; apply Z.mod_pos_bound; reflexivity).
  assert (Hw : len written <= to_uInt B)
    by (apply len_firstn_le; lia).
  assert (K1 : tx_buf_clean
                 (write_at_start (resize (tx_compressed_buf r1) B) written))
    by (apply tx_buf_clean_write; [assumption|lia]).
  assert (K2 : tx_buf_clean
                 (write_at_start (resize (tx_compressed_buf r2) B) written))
    by (apply tx_buf_clean_write; [assumption|lia]).
  assert (Alike : forall a b : Receiver,
             _cfg a = _cfg r1 -> _cfg b = _cfg r1 ->
             deflate_initialized a = true -> deflate_initialized b = true ->
             deflate_stream a = s' -> deflate_stream b = s' ->
             tx_buf_clean (tx_compressed_buf a) ->
             tx_buf_clean (tx_compressed_buf b) -> tx_alike a b).
  { intros a b Ea Eb Ia Ib Sa Sb Ka Kb. unfold tx_alike.
    rewrite Ea, Eb, Sa, Sb. auto 10. }
  destruct (negb (zr_ret res =? Z_OK)).
  { destruct ((zr_ret res =? Z_BUF_ERROR) || (to_uInt B - len written =? 0)).
    - apply Alike; cbn; auto.
    - split; [reflexivity|discriminate]. }
  destruct (Z.ltb_spec (to_size_t (B - (to_uInt B - len written))) 4)
    as [L4|L4].
  { apply Alike; cbn; auto. }
  destruct (tail_test_alike (tx_compressed_buf r1) (tx_compressed_buf r2)
                            written B C1 C2 HB Hw L4) as [T P].
  cbv zeta in T, P. rewrite <- T.
  match goal with
  | |- context [if negb ?t then _ else _] =>
    destruct (negb t) eqn:Et
  end.
  { apply Alike; cbn; auto. }
  specialize (P eq_refl).
  cbn [_cfg set_tx_payload_len set_tx_buf set_deflate]. rewrite <- Hc.
  destruct (client_no_context_takeover (_cfg r1)).
  - unfold txReinitAfterNoContextTakeover.
    cbn [deflate_initialized set_tx_payload_len set_tx_buf set_deflate negb
         _cfg].
    rewrite <- ?Hc.
    destruct (deflateInit2 z_stream_zero (deflate_params (_cfg r1)))
      as [init_ret s0].
    destruct (negb (init_ret =? Z_OK)); cbn [negb].
    + split; [reflexivity|discriminate].
    + split; [reflexivity|]. intros _. unfold compressed_bytes. cbn.
      exact P.
  - split; [reflexivity|]. intros _. unfold compressed_bytes. cbn. exact P.
Qed.

Lemma txDeflate_loop_alike (input : list byte) (m : nat) :
  forall (r1 r2 : Receiver) (k : Z),
    tx_alike r1 r2 ->
    fst (txDeflate_loop m r1 input k) = fst (txDeflate_loop m r2 input k)
    /\ (fst (txDeflate_loop m r1 input k) = true ->
        compressed_bytes (snd (txDeflate_loop m r1 input k))
        = compressed_bytes (snd (txDeflate_loop m r2 input k))).
Proof.
  induction m as [|m IH]; intros r1 r2 k A; cbn [txDeflate_loop].
  - cbn. split; [reflexivity|discriminate].
  - pose proof (txDeflate_attempt_alike r1 r2 input k A) as S.
    destruct (txDeflate_attempt r1 input k) as [a|oa a],
             (txDeflate_attempt r2 input k) as [b|ob b];
      try contradiction.
    + apply IH. assumption.
    + cbn [fst snd]. assumption.
Qed.

(** Two receivers with the same configuration and stream parameters
    compress any payload to the same bytes, whatever their streams and
    buffers have seen before. *)
Lemma txDeflate_alike (r1 r2 : Receiver) (input : list byte) :
  tx_alike r1 r2 ->
  fst (txDeflate r1 input) = fst (txDeflate r2 input)
  /\ (fst (txDeflate r1 input) = true ->
      compressed_bytes (snd (txDeflate r1 input))
      = compressed_bytes (snd (txDeflate r2 input))).
Proof.
  intros A. pose proof A as (_ & H1 & H2 & _).
  unfold txDeflate. rewrite H1, H2. cbn [negb].
  apply txDeflate_loop_alike. assumption.
Qed.

(** [txDeflate] keeps the transmit buffer clean. *)
Lemma txDeflate_attempt_clean (r : Receiver) (input : list byte) (k : Z) :
  tx_buf_clean (tx_compressed_buf r) ->
  match txDeflate_attempt r input k with
  | Retry r' | Return_ _ r' => tx_buf_clean (tx_compressed_buf r')
  end.
Proof.
  intros C.
  unfold txDeflate_attempt, txReinitAfterNoContextTakeover, deflate,
    zcall_run.
  cbn [set_avail_out set_in zs_params zs_calls next_in avail_in avail_out].
  match goal with
  | |- context [write_at_start (tx_compressed_buf (set_tx_buf _ (resize ?b ?n)))
                               ?w] =>
    assert (K : tx_buf_clean (write_at_start (resize b n) w))
  end.
  { apply tx_buf_clean_write.
    - unfold txResetDeflate. destruct (negb (deflate_initialized r));
        assumption.
    - match goal with
      | |- len (firstn (Z.to_nat (to_uInt ?x)) _) < _ =>
        assert (Hu : 0 <= to_uInt x < 2 ^ UINT_BITS)
          by (unfold to_uInt; apply Z.mod_pos_bound; reflexivity);
        pose proof (len_firstn_le _ (to_uInt x)
                      (zr_out (deflate_alg
                         (zs_params (deflate_stream (txResetDeflate r))) 
                         (zs_calls (deflate_stream (txResetDeflate r)))
                         (mkCall (firstn (Z.to_nat (to_uInt (len input))) input)
                                 (to_uInt x) Z_SYNC_FLUSH)))
                      ltac:(lia))
      end.
      cbn [deflate_stream set_tx_buf] in *. lia. }
  cbn [tx_compressed_buf set_tx_buf set_deflate set_tx_payload_len
       deflate_initialized _cfg] in *.
  split_ifs; cbn [tx_compressed_buf set_tx_buf set_deflate
                  set_tx_payload_len]; try exact K.
  all: match goal with
       | |- context [deflateInit2 ?a ?b] =>
         destruct (deflateInit2 a b) as [ir s0]
       end; split_ifs; cbn; exact K.
Qed.

Lemma txDeflate_clean (r : Receiver) (input : list byte) :
  tx_buf_clean (tx_compressed_buf r) ->
  tx_buf_clean (tx_compressed_buf (snd (txDeflate r input))).
Proof.
  intros C. unfold txDeflate.
  destruct (negb (deflate_initialized r)); [assumption|].
  generalize 0 at 1. generalize 4%nat. intros m. revert r C.
  induction m as [|m IH]; intros r C k; cbn [txDeflate_loop];
    [assumption|].
  pose proof (txDeflate_attempt_clean r input k C) as A.
  destruct (txDeflate_attempt r input k) as [r'|ok r'].
  - apply IH. assumption.
  - assumption.
Qed.

Lemma compress_all_clean (ms : list (list byte)) :
  forall r : Receiver,
    tx_buf_clean (tx_compressed_buf r) ->
    tx_buf_clean (tx_compressed_buf (compress_all r ms)).
Proof.
  unfold compress_all.
  induction ms as [|m ms IH]; intros r C; cbn [fold_left];
    [assumption|].
  apply IH. apply txDeflate_clean. assumption.
Qed.

(** An attempt whose output room does not fit a [uInt]: [deflate] is given
    the room modulo 2^32, [produced] is computed from the whole room, and
    the tail test reads zero bytes beyond what [deflate] wrote; the attempt
    is never accepted. *)
Lemma txDeflate_attempt_beyond_uInt (r : Receiver) (input : list byte)
      (k : Z) :
  deflate_initialized r = true ->
  tx_buf_clean (tx_compressed_buf r) ->
  let p := zs_params (deflate_stream r) in
  let B := to_size_t (to_size_t (deflateBound_alg p [] (len input))
                      + 64 * (k + 1)) in
  2 ^ UINT_BITS <= B ->
  exists r',
    (txDeflate_attempt r input k = Retry r'
     \/ txDeflate_attempt r input k = Return_ false r')
    /\ deflate_initialized r' = true
    /\ tx_buf_clean (tx_compressed_buf r')
    /\ zs_params (deflate_stream r') = p
    /\ zs_calls (deflate_stream r')
       = [mkCall (firstn (Z.to_nat (to_uInt (len input))) input)
                 (to_uInt B) Z_SYNC_FLUSH].
Proof.
  intros Hinit C p B Big.
  unfold txDeflate_attempt, txResetDeflate. rewrite Hinit. cbn [negb].
  cbn [deflate_stream set_deflate set_tx_buf tx_compressed_buf
       deflate_initialized _cfg].
  unfold deflateBound, deflate, zcall_run.
  cbn [set_avail_out set_in zs_params zs_calls next_in avail_in avail_out
       zReset app].
  fold p. fold B.
  set (call := mkCall (firstn (Z.to_nat (to_uInt (len input))) input)
                      (to_uInt B) Z_SYNC_FLUSH).
  set (res := deflate_alg p [] call).
  set (written := firstn (Z.to_nat (to_uInt B)) (zr_out res)).
  assert (HB : 0 <= B < 2 ^ SIZE_BITS) by apply to_size_t_range.
  assert (Hu : 0 <= to_uInt B < 2 ^ UINT_BITS)
    by (unfold to_uInt; apply Z.mod_pos_bound; reflexivity).
  assert (Hw : len written <= to_uInt B) by (apply len_firstn_le; lia).
  assert (K : tx_buf_clean
                (write_at_start (resize (tx_compressed_buf r) B) written))
    by (apply tx_buf_clean_write; [assumption|lia]).
  destruct (negb (zr_ret res =? Z_OK)).
  { destruct ((zr_ret res =? Z_BUF_ERROR) || (to_uInt B - len written =? 0));
      eexists; (split; [auto|]); cbn; auto. }
  destruct (Z.ltb_spec (to_size_t (B - (to_uInt B - len written))) 4)
    as [L4|L4].
  { eexists; (split; [auto|]); cbn; auto. }
  destruct (tail_test_alike (tx_compressed_buf r) (tx_compressed_buf r)
                            written B C C HB Hw L4) as [_ P].
  cbv zeta in P.
  match goal with
  | |- context [if negb ?t then _ else _] => destruct (negb t) eqn:Et
  end.
  { eexists; (split; [auto|]); cbn; auto. }
  exfalso.
  assert (Z1 : at_ (write_at_start (resize (tx_compressed_buf r) B) written)
                   (Z.to_nat (to_size_t (B - (to_uInt B - len written))) - 1)
               = 0).
  { apply K.
    assert (HuB : B - to_uInt B >= 2 ^ UINT_BITS).
    { unfold to_uInt.
      pose proof (Z.div_mod B (2 ^ UINT_BITS) ltac:(discriminate)) as D.
      assert (1 <= B / 2 ^ UINT_BITS)
        by (apply Z.div_le_lower_bound; [reflexivity|lia]).
      assert (2 ^ UINT_BITS * 1 <= 2 ^ UINT_BITS * (B / 2 ^ UINT_BITS))
        by (apply Z.mul_le_mono_nonneg_l; [discriminate|assumption]).
      lia. }
    pose proof (len_nonneg written).
    rewrite to_size_t_small by lia. lia. }
  rewrite Z1 in Et. cbn [Z.eqb] in Et. rewrite !andb_false_r in Et.
  discriminate.
Qed.

Lemma txDeflate_loop_beyond_uInt (input : list byte) (m : nat) :
  forall (r : Receiver) (k : Z),
    deflate_initialized r = true ->
    tx_buf_clean (tx_compressed_buf r) ->
    (forall j, k <= j < k + Z.of_nat m ->
               2 ^ UINT_BITS
               <= to_size_t (to_size_t (deflateBound_alg
                                          (zs_params (deflate_stream r)) []
                                          (len input))
                             + 64 * (j + 1))) ->
    m <> 0%nat ->
    fst (txDeflate_loop m r input k) = false
    /\ exists room,
        zs_calls (deflate_stream (snd (txDeflate_loop m r input k)))
        = [mkCall (firstn (Z.to_nat (to_uInt (len input))) input)
                  room Z_SYNC_FLUSH].
Proof.
  induction m as [|m IH]; intros r k Hinit C Big Hm; [contradiction|].
  cbn [txDeflate_loop].
  destruct (txDeflate_attempt_beyond_uInt r input k Hinit C
                                          (Big k ltac:(lia)))
    as (r' & [E|E] & Hi & Hc & Hp & Hcalls); rewrite E.
  - destruct m as [|m].
    + cbn [txDeflate_loop fst snd]. split; [reflexivity|eauto].
    + apply IH; try assumption; try discriminate.
      intros j Hj. rewrite Hp. apply Big. lia.
  - cbn [fst snd]. split; [reflexivity|eauto].
Qed.

(** On a payload whose [deflateBound] does not fit a [uInt] no attempt is
    accepted: [txDeflate] returns false, and the one call its stream has
    seen since the last reset was given the first [in_len mod 2^32] bytes
    of the payload. *)
Lemma txDeflate_beyond_uInt (r : Receiver) (input : list byte) :
  deflate_initialized r = true ->
  tx_buf_clean (tx_compressed_buf r) ->
  2 ^ UINT_BITS
  <= to_size_t (deflateBound_alg (zs_params (deflate_stream r)) []
                                 (len input)) ->
  to_size_t (deflateBound_alg (zs_params (deflate_stream r)) [] (len input))
  + 256 < 2 ^ SIZE_BITS ->
  fst (txDeflate r input) = false
  /\ exists room,
      zs_calls (deflate_stream (snd (txDeflate r input)))
      = [mkCall (firstn (Z.to_nat (to_uInt (len input))) input)
                room Z_SYNC_FLUSH].
Proof.
  intros Hinit C Big Small. unfold txDeflate. rewrite Hinit. cbn [negb].
  apply txDeflate_loop_beyond_uInt; try assumption; try discriminate.
  intros j Hj.
  pose proof (to_size_t_range (deflateBound_alg
                                 (zs_params (deflate_stream r)) []
                                 (len input))) as R.
  rewrite (to_size_t_small
             (to_size_t (deflateBound_alg (zs_params (deflate_stream r)) []
                                          (len input)) + 64 * (j + 1)))
    by lia.
  lia.
Qed.

(** The buffer of a constructed receiver is clean, the operations that
    touch it keep it so, and so does whatever leaves the transmit members
    alone, as [onData] does. *)
Lemma tx_buf_clean_kept (r : Receiver) (v : V)
      (cfg : PerMessageDeflateConfig) (input : list byte)
      (request_compress : bool) :
  tx_buf_clean (tx_compressed_buf (new_receiver v))
  /\ tx_buf_clean (tx_compressed_buf (shutdownCompression r))
  /\ tx_buf_clean (tx_compressed_buf (snd (initializeCompression r cfg)))
  /\ (tx_buf_clean (tx_compressed_buf r) ->
      tx_buf_clean (tx_compressed_buf (snd (txDeflate r input)))
      /\ tx_buf_clean
           (tx_compressed_buf (snd (txPrepare r input request_compress)))
      /\ forall r' : Receiver,
          same_transmit r r' -> tx_buf_clean (tx_compressed_buf r')).
Proof.
  split; [exact tx_buf_clean_nil|].
  split; [exact tx_buf_clean_nil|].
  split.
  - unfold initializeCompression, rxInitInflate, txInitDeflate, inflateInit2,
      deflateInit2.
    cbn [_cfg set_cfg set_inflate set_deflate].
    split_ifs; cbn; exact tx_buf_clean_nil.
  - intros C. split; [apply txDeflate_clean; assumption|]. split.
    + unfold txPrepare. split_ifs; cbn [snd]; try assumption.
      all: pose proof (txDeflate_clean r input C) as K;
        destruct (txDeflate r input) as [ok r']; cbn [snd] in *;
        destruct (negb ok); cbn [snd]; assumption.
    + intros r' [_ E]. unfold transmit_state in E.
      assert (Eb : tx_compressed_buf r' = tx_compressed_buf r)
        by (inversion E; reflexivity).
      rewrite Eb. assumption.
Qed.

(** ** Claim C10 *)

(** C10. Every attempt of [txDeflate] starts with [deflateReset], so the
    history of the stream never reaches [deflate]: after any sequence of
    earlier messages, [txDeflate] on any payload returns the same flag and
    leaves the same compressed bytes as on the stream before those
    messages, whether or not [client_no_context_takeover] was negotiated;
    the stream it leaves holds at most the one call of its last attempt.
    The receiver is one whose transmit buffer is clean, as the buffer of
    every receiver built from the constructor by the operations is
    ([tx_buf_clean_kept]), or else the payload is one that fits zlib's
    32-bit counters. *)
Theorem txDeflate_history_independent (r : Receiver)
        (ms : list (list byte)) (input : list byte) :
  deflate_initialized r = true ->
  zs_params (deflate_stream r) = deflate_params (_cfg r) ->
  tx_buf_clean (tx_compressed_buf r)
  \/ fits_uInt (deflate_params (_cfg r)) input ->
  deflate_initialized (compress_all r ms) = true ->
  fst (txDeflate (compress_all r ms) input) = fst (txDeflate r input)
  /\ (fst (txDeflate r input) = true ->
      compressed_bytes (snd (txDeflate (compress_all r ms) input))
      = compressed_bytes (snd (txDeflate r input)))
  /\ (deflate_initialized (snd (txDeflate (compress_all r ms) input)) = true
      -> (length (zs_calls (deflate_stream
                              (snd (txDeflate (compress_all r ms) input))))
          <= 1)%nat)
  /\ (tx_buf_clean (tx_compressed_buf r) ->
      tx_buf_clean
        (tx_compressed_buf (snd (txDeflate (compress_all r ms) input)))).
Proof.
  intros Hinit Hp Hstate Hinit'.
  destruct (compress_all_keeps ms r Hp) as (Kc & Kp).
  specialize (Kp Hinit').
  assert (Hp' : zs_params (deflate_stream (compress_all r ms))
                = zs_params (deflate_stream r)) by congruence.
  assert (E : fst (txDeflate (compress_all r ms) input)
              = fst (txDeflate r input)
              /\ (fst (txDeflate (compress_all r ms) input) = true ->
                  compressed_bytes
                    (snd (txDeflate (compress_all r ms) input))
                  = compressed_bytes (snd (txDeflate r input)))).
  { destruct Hstate as [Hclean|Hfit].
    - apply txDeflate_alike. unfold tx_alike.
      repeat (split; [assumption|]).
      split; [apply compress_all_clean|]; assumption.
    - apply txDeflate_same_output; try assumption.
      rewrite Kp. assumption. }
  destruct E as (E1 & E2).
  split; [assumption|]. split; [|split].
  - intros H. apply E2. congruence.
  - intros H. destruct (txDeflate_keeps (compress_all r ms) input) as (_ & K).
    apply K. assumption.
  - intros C. apply txDeflate_clean. apply compress_all_clean. assumption.
Qed.

(** A successful [initializeCompression] with permessage-deflate enabled
    leaves both streams initialised and the deflate stream with the
    parameters of the configuration and no history: the state the two
    theorems on [txDeflate] start from. *)
Lemma initializeCompression_ready (r : Receiver)
      (cfg : PerMessageDeflateConfig) (r' : Receiver) :
  enabled cfg = true ->
  initializeCompression r cfg = (true, r') ->
  _cfg r' = cfg
  /\ inflate_initialized r' = true
  /\ deflate_initialized r' = true
  /\ zs_params (deflate_stream r') = deflate_params cfg
  /\ zs_calls (deflate_stream r') = [].
Proof.
  intros He.
  unfold initializeCompression, rxInitInflate, txInitDeflate, inflateInit2,
    deflateInit2.
  cbn [_cfg set_cfg set_inflate set_deflate]. rewrite He. cbn [negb].
  repeat match goal with
         | |- context [?a =? Z_OK] =>
           let E := fresh "E" in
           destruct (a =? Z_OK) eqn:E; cbv beta iota zeta; rewrite ?E;
           cbn [negb _cfg set_cfg set_inflate set_deflate]
         end; try discriminate.
  intros H. inversion H; subst. cbn. auto.
Qed.

End Transmit.

Lemma txDeflate_sync_flush_witness :
  txDeflate_outcome example_receiver hello.
Proof.
  apply (@txDeflate_sync_flush (list byte) StoredZlib example_receiver hello).
  - reflexivity.
  - split; vm_compute; reflexivity.
Defined.

Lemma txDeflate_history_independent_witness :
  let r := snd (txDeflate example_receiver long_close_payload) in
  fst (txDeflate (compress_all r [hello_compressed; hello]) hello)
  = fst (txDeflate r hello)
  /\ (fst (txDeflate r hello) = true ->
      compressed_bytes
        (snd (txDeflate (compress_all r [hello_compressed; hello]) hello))
      = compressed_bytes (snd (txDeflate r hello)))
  /\ (deflate_initialized
        (snd (txDeflate (compress_all r [hello_compressed; hello]) hello))
      = true ->
      (length (zs_calls (deflate_stream
         (snd (txDeflate (compress_all r [hello_compressed; hello])
                         hello)))) <= 1)%nat)
  /\ (tx_buf_clean (tx_compressed_buf r) ->
      tx_buf_clean
        (tx_compressed_buf
           (snd (txDeflate (compress_all r [hello_compressed; hello])
                           hello)))).
Proof.
  apply (@txDeflate_history_independent (list byte) StoredZlib
           (snd (txDeflate example_receiver long_close_payload))
           [hello_compressed; hello] hello).
  - reflexivity.
  - reflexivity.
  - left. apply txDeflate_clean. exact tx_buf_clean_nil.
  - vm_compute. reflexivity.
Defined.

Lemma four_gib_payload_len : len four_gib_payload = 2 ^ 32 + 5.
Proof.
  unfold four_gib_payload, len. rewrite repeat_length.
  apply Z2Nat.id. discriminate.
Qed.

Lemma four_gib_payload_start :
  firstn 5 four_gib_payload = [x61; x61; x61; x61; x61].
Proof.
  unfold four_gib_payload.
  replace (Z.to_nat (2 ^ 32 + 5)) with (5 + Z.to_nat (2 ^ 32))%nat by lia.
  generalize (Z.to_nat (2 ^ 32)). intros n. reflexivity.
Qed.

(** ** Claim C4 *)

(** C4. A payload of 2^32 + 5 bytes.  [static_cast<uInt>(in_len)] leaves
    5, so the [deflate] call of an attempt is given the first five bytes
    and not the message; the call the stream holds when [txDeflate] returns
    shows it.  The output room is cut to 32 bits as well while [produced]
    is computed from the whole room, so the tail test reads beyond what
    [deflate] wrote and no attempt is accepted: [txDeflate] returns
    false. *)
Theorem txDeflate_truncates_long_payload :
  len four_gib_payload = 2 ^ 32 + 5
  /\ fst (txDeflate example_receiver four_gib_payload) = false
  /\ exists room,
      zs_calls (deflate_stream
                  (snd (txDeflate example_receiver four_gib_payload)))
      = [mkCall [x61; x61; x61; x61; x61] room Z_SYNC_FLUSH].
Proof.
  split; [exact four_gib_payload_len|].
  assert (E : firstn (Z.to_nat (to_uInt (len four_gib_payload)))
                     four_gib_payload
              = [x61; x61; x61; x61; x61]).
  { rewrite four_gib_payload_len.
    change (Z.to_nat (to_uInt (2 ^ 32 + 5))) with 5%nat.
    exact four_gib_payload_start. }
  rewrite <- E.
  apply (@txDeflate_beyond_uInt (list byte) StoredZlib example_receiver
                                four_gib_payload).
  - reflexivity.
  - exact tx_buf_clean_nil.
  - change (zs_params (deflate_stream example_receiver))
      with [6; 8; -15; 8; 0].
    cbn [deflateBound_alg StoredZlib]. rewrite four_gib_payload_len.
    vm_compute. discriminate.
  - change (zs_params (deflate_stream example_receiver))
      with [6; 8; -15; 8; 0].
    cbn [deflateBound_alg StoredZlib]. rewrite four_gib_payload_len.
    vm_compute. reflexivity.
Qed.

(** ** The receive path: rxInflate *)

Section Inflate.
Context {V : Type} {validator : Utf8Validator V}.
Context {zlib : Zlib}.
Context {Sink : Type} {sinks : IWebSocketSinks Sink}.

Local Abbreviation Receiver := (WebSocketReceiver V).





(** More fuel does not change a result. *)
Lemma rxInflate_loop_fuel (fuel : nat) :
  forall (s : z_stream) (out : list byte) res (more : nat),
    rxInflate_loop fuel s out = Some res ->
    rxInflate_loop (fuel + more) s out = Some res.
Proof.
  induction fuel as [|fuel IH]; intros s out res more H; [discriminate|].
  cbn [rxInflate_loop Nat.add] in *.
  destruct (inflate (set_avail_out s TMP_SIZE) Z_SYNC_FLUSH)
    as [[ret s1] tmp].
  destruct (ret =? Z_BUF_ERROR).
  { destruct (avail_out s1 =? 0); [apply IH; assumption|assumption]. }
  destruct (negb (ret =? Z_OK) && negb (ret =? Z_STREAM_END));
    [assumption|].
  destruct (ret =? Z_STREAM_END); [assumption|].
  destruct ((avail_in s1 =? 0) && negb (avail_out s1 =? 0)); [assumption|].
  apply IH. assumption.
Qed.

Lemma rxInflate_fuel (fuel more : nat) (r : Receiver) (input : list byte)
      res :
  rxInflate fuel r input = Some res ->
  rxInflate (fuel + more) r input = Some res.
Proof.
  unfold rxInflate.
  destruct (negb (enabled (_cfg r)) || negb (inflate_initialized r));
    [auto|].
  destruct (rxInflate_loop fuel (rxInflate_stream r input) [])
    as [[[ok s'] out]|] eqn:E; [|discriminate].
  rewrite (rxInflate_loop_fuel fuel _ _ _ more E). auto.
Qed.

(** [rxInflate] neither reads nor writes the members that hold the message
    under assembly and the validator. *)
Lemma rxInflate_set_fragments (fuel : nat) (r : Receiver)
      (input : list byte) a b c d :
  rxInflate fuel (set_fragments r a b c d) input
  = option_map (fun '(ok, out, r1) => (ok, out, set_fragments r1 a b c d))
               (rxInflate fuel r input).
Proof.
  unfold rxInflate, rxInflate_stream.
  cbn [set_fragments _cfg inflate_initialized inflate_stream].
  destruct (negb (enabled (_cfg r)) || negb (inflate_initialized r));
    [reflexivity|].
  match goal with
  | |- context [rxInflate_loop ?f ?s ?o] =>
    destruct (rxInflate_loop f s o) as [[[ok s'] out]|]
  end; reflexivity.
Qed.

Lemma rxInflate_set_validator (fuel : nat) (r : Receiver)
      (input : list byte) (v : V) :
  rxInflate fuel (set_validator r v) input
  = option_map (fun '(ok, out, r1) => (ok, out, set_validator r1 v))
               (rxInflate fuel r input).
Proof.
  unfold rxInflate, rxInflate_stream.
  cbn [set_validator _cfg inflate_initialized inflate_stream].
  destruct (negb (enabled (_cfg r)) || negb (inflate_initialized r));
    [reflexivity|].
  match goal with
  | |- context [rxInflate_loop ?f ?s ?o] =>
    destruct (rxInflate_loop f s o) as [[[ok s'] out]|]
  end; reflexivity.
Qed.

End Inflate.

(** ** The receive path: messages *)

Section Messages.
Context {V : Type} {validator : Utf8Validator V}.
Context {zlib : Zlib}.
Context {Sink : Type} {sinks : IWebSocketSinks Sink}.

Local Abbreviation Receiver := (WebSocketReceiver V).

Lemma handle_frames_app (fuel : nat) (fs gs : list message_frame) :
  forall (r : Receiver) (s : Sink),
    handle_frames fuel r s (fs ++ gs)
    = match handle_frames fuel r s fs with
      | Some (r', s') => handle_frames fuel r' s' gs
      | None => None
      end.
Proof.
  induction fs as [|f fs IH]; intros r s; cbn [app handle_frames].
  - reflexivity.
  - destruct (handle_frame fuel r s f) as [[r' s']|]; [apply IH|reflexivity].
Qed.

Lemma handle_frames_one (fuel : nat) (r : Receiver) (s : Sink)
      (f : message_frame) :
  handle_frames fuel r s [f] = handle_frame fuel r s f.
Proof.
  cbn [handle_frames].
  destruct (handle_frame fuel r s f) as [[r' s']|]; reflexivity.
Qed.

Lemma continuation_frames_snoc (fin : bool) (c : list byte)
      (pre : list (list byte)) :
  continuation_frames fin (pre ++ [c])
  = continuation_frames false pre ++ [Continuation fin c].
Proof.
  induction pre as [|a pre IH]; [reflexivity|].
  cbn [app continuation_frames]. rewrite IH.
  destruct pre; reflexivity.
Qed.

(** *** One frame of an uncompressed text message *)

Lemma handleDataFrame_first (fuel : nat) (r : Receiver) (s : Sink)
      (c : list byte) (rsv1 : bool) :
  message_in_progress r = false ->
  rsv1 && rxCompressionEnabled s = false ->
  handleDataFrame fuel r s c false 1 rsv1
  = if fst (validateChunk reset c)
    then Some (set_validator (set_fragments r true false 1 c)
                             (snd (validateChunk reset c)), s)
    else Some (set_validator (set_fragments r true false 1 c) reset,
               invalid_utf8 s).
Proof.
  intros Hm Hc. unfold handleDataFrame, invalid_utf8. rewrite Hm, Hc.
  cbn [negb andb Z.eqb Pos.eqb set_fragments compressed_message_in_progress].
  destruct (validateChunk reset c) as [[|] v]; reflexivity.
Qed.

Lemma handleDataFrame_whole (fuel : nat) (r : Receiver) (s : Sink)
      (c : list byte) (rsv1 : bool) :
  message_in_progress r = false ->
  rsv1 && rxCompressionEnabled s = false ->
  handleDataFrame fuel r s c true 1 rsv1
  = if fst (validateChunk reset c)
    then if fst (validateFinal (snd (validateChunk reset c)))
         then Some (set_validator
                      r (snd (validateFinal (snd (validateChunk reset c)))),
                    onRxText c s)
         else Some (set_validator r reset, invalid_utf8 s)
    else Some (set_validator r reset, invalid_utf8 s).
Proof.
  intros Hm Hc. unfold handleDataFrame, invalid_utf8. rewrite Hm, Hc.
  cbn [negb andb Z.eqb Pos.eqb].
  destruct (validateChunk reset c) as [[|] v]; cbn [fst snd];
    [|reflexivity].
  destruct (validateFinal v) as [[|] v']; reflexivity.
Qed.

Lemma handleContinuationFrame_text (fuel : nat) (r : Receiver) (s : Sink)
      (c : list byte) (fin : bool) :
  validator_live r ->
  let r1 := set_fragmented_message r (fragmented_message r ++ c) in
  let chunk := validateChunk (utf8Validator r) c in
  handleContinuationFrame fuel r s c fin
  = if fst chunk then
      if fin then
        if fst (validateFinal (snd chunk))
        then Some (set_fragments (set_validator r1 reset) false false 0 [],
                   onRxText (fragmented_message r ++ c) s)
        else Some (set_validator r1 reset, invalid_utf8 s)
      else Some (set_validator r1 (snd chunk), s)
    else Some (set_validator r1 reset, invalid_utf8 s).
Proof.
  intros (Hm & Hc & Ho). cbv zeta.
  unfold handleContinuationFrame, invalid_utf8. rewrite Hm.
  cbn [negb set_fragmented_message set_fragments set_validator
       compressed_message_in_progress fragmented_opcode utf8Validator
       message_in_progress fragmented_message].
  rewrite Hc, Ho. cbn [negb andb Z.eqb Pos.eqb].
  destruct (validateChunk (utf8Validator r) c) as [[|] v]; cbn [fst snd negb];
    [|reflexivity].
  destruct fin; cbn [negb]; [|reflexivity].
  cbn [set_fragmented_message set_fragments set_validator
       compressed_message_in_progress fragmented_opcode utf8Validator
       message_in_progress fragmented_message].
  rewrite Hc, Ho. cbn [Z.eqb Pos.eqb].
  destruct (validateFinal v) as [[|] v']; reflexivity.
Qed.

(** The continuation frames of an uncompressed text message whose chunks
    the validator takes: the chunks are appended and the validator is where
    the chunks leave it. *)
Lemma continuation_frames_text (fuel : nat) (s : Sink)
      (pre : list (list byte)) :
  forall (r : Receiver) (v : V),
    validator_live r ->
    validate_chunks (utf8Validator r) pre = (true, v) ->
    handle_frames fuel r s (continuation_frames false pre)
    = Some (set_validator
              (set_fragmented_message r (fragmented_message r ++ concat pre))
              v, s).
Proof.
  induction pre as [|a pre IH]; intros r v Hl Hv.
  - cbn in *. inversion Hv; subst. rewrite app_nil_r.
    destruct r; reflexivity.
  - cbn [validate_chunks] in Hv.
    destruct (validateChunk (utf8Validator r) a) as [[|] v1] eqn:E;
      [|discriminate].
    assert (Hstep : handle_frame fuel r s (Continuation false a)
                    = Some (set_validator
                              (set_fragmented_message
                                 r (fragmented_message r ++ a)) v1, s)).
    { cbn [handle_frame]. rewrite handleContinuationFrame_text by assumption.
      cbv zeta. rewrite E. reflexivity. }
    assert (Hl1 : validator_live
                    (set_validator
                       (set_fragmented_message
                          r (fragmented_message r ++ a)) v1))
      by (destruct Hl as (? & ? & ?); repeat split; assumption).
    replace (continuation_frames false (a :: pre))
      with (Continuation false a :: continuation_frames false pre)
      by (destruct pre; reflexivity).
    cbn [handle_frames]. rewrite Hstep.
    rewrite (IH _ v Hl1) by exact Hv.
    cbn [concat]. rewrite app_assoc. destruct r; reflexivity.
Qed.

Lemma message_frames_cons (opcode : Z) (rsv1 fin : bool) (a : list byte)
      (l : list (list byte)) :
  l <> [] ->
  message_frames opcode rsv1 fin (a :: l)
  = Data opcode rsv1 false a :: continuation_frames fin l.
Proof. destruct l; [congruence|reflexivity]. Qed.

Lemma concat_snoc (pre : list (list byte)) (c : list byte) :
  concat (pre ++ [c]) = concat pre ++ c.
Proof. rewrite concat_app. cbn [concat]. rewrite app_nil_r. reflexivity. Qed.

(** An uncompressed text message, chunk by chunk: while the validator takes
    the chunks nothing reaches the sink; the chunk it refuses is answered
    with 1007 at once; at FIN the validator is asked to finish, and the
    message is delivered whole by one [onRxText] or answered with 1007. *)
Lemma text_message_uncompressed (fuel : nat) (r : Receiver) (s : Sink)
      (rsv1 : bool) (pre : list (list byte)) (c : list byte) (fin : bool)
      (v : V) :
  message_in_progress r = false ->
  rsv1 && rxCompressionEnabled s = false ->
  validate_chunks reset pre = (true, v) ->
  let chunk := validateChunk v c in
  exists r',
    handle_frames fuel r s (message_frames 1 rsv1 fin (pre ++ [c]))
    = Some (r',
            if fst chunk then
              if fin then
                if fst (validateFinal (snd chunk))
                then onRxText (concat (pre ++ [c])) s
                else invalid_utf8 s
              else s
            else invalid_utf8 s)
    /\ (fst chunk = true -> fin = false ->
        validator_live r' /\ utf8Validator r' = snd chunk
        /\ fragmented_message r' = concat (pre ++ [c]))
    /\ (fst chunk = true -> fin = true ->
        fst (validateFinal (snd chunk)) = true ->
        message_in_progress r' = false).
Proof.
  intros Hm Hc Hv. cbv zeta.
  destruct pre as [|a pre].
  - cbn in Hv. inversion Hv; subst v. clear Hv.
    cbn [app message_frames concat]. rewrite app_nil_r.
    rewrite handle_frames_one. cbn [handle_frame].
    destruct fin.
    + rewrite handleDataFrame_whole by assumption.
      destruct (validateChunk reset c) as [[|] v1]; cbn [fst snd];
        [destruct (validateFinal v1) as [[|] v2]; cbn [fst snd]|];
        eexists; (split; [reflexivity|]); split; intros; try discriminate.
      cbn. auto.
    + rewrite handleDataFrame_first by assumption.
      destruct (validateChunk reset c) as [[|] v1]; cbn [fst snd];
        eexists; (split; [reflexivity|]); split; intros; try discriminate.
      unfold validator_live. cbn. auto.
  - cbn [validate_chunks] in Hv.
    destruct (validateChunk reset a) as [[|] v0] eqn:Ea; [|discriminate].
    cbn [app]. rewrite message_frames_cons by (destruct pre; discriminate).
    cbn [handle_frames handle_frame].
    rewrite handleDataFrame_first by assumption. rewrite Ea. cbn [fst snd].
    set (r0 := set_validator (set_fragments r true false 1 a) v0).
    assert (Hl0 : validator_live r0) by (repeat split).
    rewrite continuation_frames_snoc, handle_frames_app.
    rewrite (continuation_frames_text fuel s pre r0 v Hl0) by exact Hv.
    set (rk := set_validator
                 (set_fragmented_message r0 (fragmented_message r0
                                             ++ concat pre)) v).
    assert (Hlk : validator_live rk) by (repeat split).
    rewrite handle_frames_one. cbn [handle_frame].
    rewrite handleContinuationFrame_text by assumption. cbv zeta.
    assert (Hfm : fragmented_message rk ++ c = concat ((a :: pre) ++ [c])).
    { cbn [app concat]. rewrite concat_snoc, app_assoc. reflexivity. }
    change (utf8Validator rk) with v. rewrite Hfm.
    destruct (validateChunk v c) as [[|] v1]; cbn [fst snd];
      [destruct fin;
       [destruct (validateFinal v1) as [[|] v2]; cbn [fst snd]|]|];
      eexists; (split; [reflexivity|]); split; intros; try discriminate.
    + cbn. auto.
    + unfold validator_live. cbn. rewrite concat_snoc, app_assoc. auto.
Qed.

(** *** One frame of a compressed message *)

Lemma handleDataFrame_first_compressed (fuel : nat) (r : Receiver)
      (s : Sink) (c : list byte) (opcode : Z) (rsv1 : bool) :
  message_in_progress r = false ->
  rsv1 && rxCompressionEnabled s = true ->
  handleDataFrame fuel r s c false opcode rsv1
  = Some (set_fragments r true true opcode c, s).
Proof.
  intros Hm Hc. unfold handleDataFrame. rewrite Hm, Hc.
  cbn [negb set_fragments compressed_message_in_progress].
  rewrite andb_false_r. reflexivity.
Qed.

Lemma handleContinuationFrame_more_compressed (fuel : nat) (r : Receiver)
      (s : Sink) (c : list byte) :
  message_in_progress r = true ->
  compressed_message_in_progress r = true ->
  handleContinuationFrame fuel r s c false
  = Some (set_fragmented_message r (fragmented_message r ++ c), s).
Proof.
  intros Hm Hc. unfold handleContinuationFrame. rewrite Hm.
  cbn [negb set_fragmented_message set_fragments set_validator
       compressed_message_in_progress fragmented_opcode utf8Validator
       message_in_progress fragmented_message].
  rewrite Hc. cbn [negb andb fst snd]. destruct r; reflexivity.
Qed.

Lemma continuation_frames_compressed (fuel : nat) (s : Sink)
      (pre : list (list byte)) :
  forall r : Receiver,
    message_in_progress r = true ->
    compressed_message_in_progress r = true ->
    handle_frames fuel r s (continuation_frames false pre)
    = Some (set_fragmented_message r (fragmented_message r ++ concat pre),
            s).
Proof.
  induction pre as [|a pre IH]; intros r Hm Hc.
  - cbn. rewrite app_nil_r. destruct r; reflexivity.
  - replace (continuation_frames false (a :: pre))
      with (Continuation false a :: continuation_frames false pre)
      by (destruct pre; reflexivity).
    cbn [handle_frames handle_frame].
    rewrite handleContinuationFrame_more_compressed by assumption.
    rewrite IH by assumption.
    cbn [concat]. rewrite app_assoc. destruct r; reflexivity.
Qed.

(** [rxInflate] and [rxMaybeResetAfterMessage] only touch the inflate
    stream. *)
Lemma rxInflate_result (fuel : nat) (r : Receiver) (input : list byte)
      ok out r1 :
  rxInflate fuel r input = Some (ok, out, r1) ->
  exists st, r1 = set_inflate r st (inflate_initialized r).
Proof.
  unfold rxInflate.
  destruct (negb (enabled (_cfg r)) || negb (inflate_initialized r)).
  - intros H. inversion H; subst. exists (inflate_stream r1).
    destruct r1; reflexivity.
  - destruct (rxInflate_loop fuel (rxInflate_stream r input) [])
      as [[[ok' s'] out']|]; [|discriminate].
    intros H. inversion H; subst. eexists. reflexivity.
Qed.

Lemma rxMaybeReset_result (r : Receiver) :
  exists st b, rxMaybeResetAfterMessage r = set_inflate r st b.
Proof.
  unfold rxMaybeResetAfterMessage, rxResetInflate, rxInitInflate,
    inflateInit2.
  destruct (enabled (_cfg r) && server_no_context_takeover (_cfg r));
    [|exists (inflate_stream r), (inflate_initialized r);
      destruct r; reflexivity].
  destruct (inflate_initialized r) eqn:E; cbn [negb];
    [|exists (inflate_stream r), false; destruct r; cbn in *; subst;
      reflexivity].
  cbn [set_inflate _cfg inflate_initialized].
  repeat match goal with
         | |- context [if ?c then _ else _] => destruct c eqn:?
         end; cbn [negb snd set_inflate]; eexists; eexists; reflexivity.
Qed.

Lemma validate_message_one (out : list byte) :
  validate_message [out]
  = (let '(ok1, v1) := validateChunk reset out in
     if ok1 then fst (validateFinal v1) else false).
Proof.
  unfold validate_message. cbn [validate_chunks].
  destruct (validateChunk reset out) as [[|] v1]; reflexivity.
Qed.

(** A compressed text message in one frame: it is inflated, and the output
    is validated from a reset validator. *)
Lemma handleDataFrame_whole_compressed (fuel : nat) (r : Receiver)
      (s : Sink) (c : list byte) (rsv1 : bool) :
  message_in_progress r = false ->
  rsv1 && rxCompressionEnabled s = true ->
  match rxInflate fuel r c with
  | Some (ok, out, r1) =>
    exists r',
      handleDataFrame fuel r s c true 1 rsv1
      = Some (r',
              if ok then
                if validate_message [out] then onRxText out s
                else invalid_utf8 s
              else decompression_failed s)
      /\ (ok = true -> validate_message [out] = true ->
          message_in_progress r' = false)
  | None => handleDataFrame fuel r s c true 1 rsv1 = None
  end.
Proof.
  intros Hm Hc. unfold handleDataFrame, decompressMessage.
  rewrite Hm, Hc. cbn [negb].
  destruct (rxInflate fuel r c) as [[[ok out] r1]|] eqn:E; [|reflexivity].
  destruct ok; cbn [negb];
    [|eexists; split; [reflexivity|discriminate]].
  destruct (rxInflate_result fuel r _ _ _ _ E) as (st & ->).
  match goal with
  | |- context [rxMaybeResetAfterMessage ?x] =>
    destruct (rxMaybeReset_result x) as (st' & b & ->)
  end.
  cbn [Z.eqb Pos.eqb]. rewrite validate_message_one.
  destruct (validateChunk reset out) as [[|] v1];
    [destruct (validateFinal v1) as [[|] v2]|];
    cbn [negb fst]; eexists; (split; [reflexivity|]);
      intros _ Hd; try discriminate Hd.
  cbn. exact Hm.
Qed.

(** The last frame of a compressed text message: the assembled payload is
    inflated, and only then the validator runs, from its reset state, on
    the output. *)
Lemma handleContinuationFrame_last_compressed (fuel : nat) (r : Receiver)
      (s : Sink) (c : list byte) :
  message_in_progress r = true ->
  compressed_message_in_progress r = true ->
  fragmented_opcode r = 1 ->
  match rxInflate fuel r (fragmented_message r ++ c) with
  | Some (ok, out, r1) =>
    exists r',
      handleContinuationFrame fuel r s c true
      = Some (r',
              if ok then
                if validate_message [out] then onRxText out s
                else invalid_utf8 s
              else decompression_failed s)
      /\ (ok = true -> validate_message [out] = true ->
          message_in_progress r' = false)
  | None => handleContinuationFrame fuel r s c true = None
  end.
Proof.
  intros Hm Hc Ho. unfold handleContinuationFrame, decompressMessage.
  rewrite Hm.
  cbn [negb set_fragmented_message set_fragments set_validator
       compressed_message_in_progress fragmented_opcode utf8Validator
       message_in_progress fragmented_message].
  rewrite Hc. cbn [negb andb fst snd].
  unfold set_fragmented_message.
  rewrite rxInflate_set_validator, rxInflate_set_fragments.
  destruct (rxInflate fuel r (fragmented_message r ++ c))
    as [[[ok out] r1]|] eqn:E; cbn [option_map]; [|reflexivity].
  destruct ok; cbn [negb];
    [|eexists; split; [reflexivity|discriminate]].
  destruct (rxInflate_result fuel r _ _ _ _ E) as (st & ->).
  match goal with
  | |- context [rxMaybeResetAfterMessage ?x] =>
    destruct (rxMaybeReset_result x) as (st' & b & ->)
  end.
  cbn [set_inflate set_fragmented_message set_fragments set_validator
       compressed_message_in_progress fragmented_opcode utf8Validator
       message_in_progress fragmented_message].
  rewrite Ho, ?Hc. cbn [Z.eqb Pos.eqb]. rewrite validate_message_one.
  destruct (validateChunk reset out) as [[|] v1];
    [destruct (validateFinal v1) as [[|] v2]|];
    cbn [negb fst]; eexists; (split; [reflexivity|]);
      intros _ Hd; try discriminate Hd.
  reflexivity.
Qed.

(** A compressed text message, frame by frame: before FIN nothing is
    validated and nothing reaches the sink; at FIN the assembled payload is
    inflated and the output validated once. *)
Lemma text_message_compressed (fuel : nat) (r : Receiver) (s : Sink)
      (rsv1 : bool) (pre : list (list byte)) (c : list byte) :
  message_in_progress r = false ->
  rsv1 && rxCompressionEnabled s = true ->
  (exists r',
      handle_frames fuel r s (message_frames 1 rsv1 false (pre ++ [c]))
      = Some (r', s)
      /\ utf8Validator r' = utf8Validator r
      /\ fragmented_message r' = concat (pre ++ [c]))
  /\ match rxInflate fuel r (concat (pre ++ [c])) with
     | Some (ok, out, r1) =>
       exists r',
         handle_frames fuel r s (message_frames 1 rsv1 true (pre ++ [c]))
         = Some (r',
                 if ok then
                   if validate_message [out] then onRxText out s
                   else invalid_utf8 s
                 else decompression_failed s)
         /\ (ok = true -> validate_message [out] = true ->
             message_in_progress r' = false)
     | None =>
       handle_frames fuel r s (message_frames 1 rsv1 true (pre ++ [c]))
       = None
     end.
Proof.
  intros Hm Hc.
  destruct pre as [|a pre].
  - cbn [app message_frames concat]. rewrite app_nil_r.
    rewrite !handle_frames_one. cbn [handle_frame]. split.
    + rewrite handleDataFrame_first_compressed by assumption.
      eexists. split; [reflexivity|]. cbn. auto.
    + pose proof (handleDataFrame_whole_compressed fuel r s c rsv1 Hm Hc)
        as H.
      destruct (rxInflate fuel r c) as [[[ok out] r1]|]; exact H.
  - cbn [app]. rewrite !message_frames_cons by (destruct pre; discriminate).
    cbn [handle_frames handle_frame].
    rewrite handleDataFrame_first_compressed by assumption.
    set (r0 := set_fragments r true true 1 a).
    rewrite !continuation_frames_snoc, !handle_frames_app.
    rewrite (continuation_frames_compressed fuel s pre r0)
      by reflexivity.
    set (rk := set_fragmented_message r0 (fragmented_message r0
                                          ++ concat pre)).
    rewrite !handle_frames_one. cbn [handle_frame].
    assert (Hfm : fragmented_message rk ++ c = concat ((a :: pre) ++ [c])).
    { cbn [app concat]. rewrite concat_snoc, app_assoc. reflexivity. }
    split.
    + rewrite handleContinuationFrame_more_compressed by reflexivity.
      eexists. split; [reflexivity|]. split; [reflexivity|].
      cbn. rewrite concat_snoc, app_assoc. reflexivity.
    + pose proof (handleContinuationFrame_last_compressed
                    fuel rk s c eq_refl eq_refl eq_refl) as H.
      rewrite Hfm in H.
      change rk with (set_fragments r true true 1 (a ++ concat pre)) in H
        at 1.
      rewrite rxInflate_set_fragments in H.
      cbn [app] in H.
      destruct (rxInflate fuel r (concat (a :: pre ++ [c])))
        as [[[ok out] r1]|]; exact H.
Qed.

(** *** The validator between messages *)

(** [rxInflate] and [rxMaybeResetAfterMessage] read the configuration and
    the inflate stream only. *)
Lemma rxInflate_ext (fuel : nat) (r r' : Receiver) (input : list byte) :
  _cfg r' = _cfg r ->
  inflate_stream r' = inflate_stream r ->
  inflate_initialized r' = inflate_initialized r ->
  rxInflate fuel r' input
  = option_map
      (fun '(ok, out, r1) =>
         (ok, out,
          set_inflate r' (inflate_stream r1) (inflate_initialized r1)))
      (rxInflate fuel r input).
Proof.
  intros Hc Hs Hi. unfold rxInflate, rxInflate_stream.
  rewrite Hc, Hs, Hi.
  destruct (negb (enabled (_cfg r)) || negb (inflate_initialized r)).
  - cbn [option_map]. rewrite <- Hs, <- Hi. destruct r'; reflexivity.
  - match goal with
    | |- context [rxInflate_loop ?f ?s ?o] =>
      destruct (rxInflate_loop f s o) as [[[ok s'] out]|]
    end; reflexivity.
Qed.

Lemma rxMaybeReset_ext (r r' : Receiver) :
  _cfg r' = _cfg r ->
  inflate_stream r' = inflate_stream r ->
  inflate_initialized r' = inflate_initialized r ->
  exists st b,
    rxMaybeResetAfterMessage r = set_inflate r st b
    /\ rxMaybeResetAfterMessage r' = set_inflate r' st b.
Proof.
  intros Hc Hs Hi.
  unfold rxMaybeResetAfterMessage, rxResetInflate, rxInitInflate,
    inflateInit2.
  rewrite Hc, Hi.
  destruct (enabled (_cfg r) && server_no_context_takeover (_cfg r)).
  2:{ exists (inflate_stream r), (inflate_initialized r).
      split; [destruct r; reflexivity|].
      rewrite <- Hs, <- Hi. destruct r'; reflexivity. }
  destruct (inflate_initialized r) eqn:E; cbn [negb].
  2:{ exists (inflate_stream r), false.
      split; [destruct r; cbn in *; subst; reflexivity|].
      rewrite <- Hs. destruct r'; cbn in *; subst; reflexivity. }
  cbn [set_inflate _cfg inflate_initialized]. rewrite Hc.
  repeat match goal with
         | |- context [if ?c then _ else _] => destruct c eqn:?
         end; cbn [negb snd set_inflate]; eexists; eexists;
    split; reflexivity.
Qed.



(** A handler run on two receivers that differ only in a validator state
    that is not live makes the same calls to the sink and leaves two such
    receivers. *)
Lemma handle_frame_sim (fuel : nat) (s : Sink) (f : message_frame)
      (r r' : Receiver) :
  same_but_validator r r' ->
  match handle_frame fuel r s f with
  | Some (q, t) =>
    exists q', handle_frame fuel r' s f = Some (q', t)
               /\ same_but_validator q q'
  | None => handle_frame fuel r' s f = None
  end.
Proof.
  intros (v & -> & Hv). unfold same_but_validator.
  destruct f as [opcode rsv1 fin payload|fin payload]; cbn [handle_frame].
  - unfold handleDataFrame, decompressMessage.
    change (message_in_progress (set_validator r v))
      with (message_in_progress r).
    destruct (message_in_progress r) eqn:Hm; [sim_done|].
    destruct fin; cbn [negb].
    + destruct (rsv1 && rxCompressionEnabled s).
      * rewrite (rxInflate_ext fuel r (set_validator r v))
          by reflexivity.
        destruct (rxInflate fuel r payload) as [[[ok out] r1]|] eqn:E;
          cbn [option_map]; [|reflexivity].
        destruct (rxInflate_result fuel r _ _ _ _ E) as (st & ->).
        destruct ok; cbn [negb]; [|sim_done].
        match goal with
        | |- context [rxMaybeResetAfterMessage
                        (set_inflate (set_validator r v) ?a ?b)] =>
          destruct (rxMaybeReset_ext
                      (set_inflate r st (inflate_initialized r))
                      (set_inflate (set_validator r v) a b)
                      eq_refl eq_refl eq_refl)
            as (st' & b' & -> & ->)
        end.
        destruct (opcode =? 1);
          [destruct (validateChunk reset out) as [[|] v1];
           [destruct (validateFinal v1) as [[|] v2]|]; cbn [negb];
           sim_done|].
        destruct (opcode =? 2); sim_done.
      * destruct (opcode =? 1);
          [destruct (validateChunk reset payload) as [[|] v1];
           [destruct (validateFinal v1) as [[|] v2]|]; cbn [negb];
           sim_done|].
        destruct (opcode =? 2); sim_done.
    + change (compressed_message_in_progress
                (set_fragments (set_validator r v) true
                               (rsv1 && rxCompressionEnabled s) opcode
                               payload))
        with (rsv1 && rxCompressionEnabled s).
      change (compressed_message_in_progress
                (set_fragments r true
                               (rsv1 && rxCompressionEnabled s) opcode
                               payload))
        with (rsv1 && rxCompressionEnabled s).
      destruct (rsv1 && rxCompressionEnabled s); cbn [negb andb].
      * rewrite andb_false_r. sim_done.
      * rewrite andb_true_r. destruct (Z.eqb_spec opcode 1); [|sim_done].
        destruct (validateChunk reset payload) as [[|] v1]; cbn [negb];
          sim_done.
  - unfold handleContinuationFrame, decompressMessage.
    change (message_in_progress (set_validator r v))
      with (message_in_progress r).
    destruct (message_in_progress r) eqn:Hm; cbn [negb]; [|sim_done].
    change (compressed_message_in_progress
              (set_fragmented_message
                 (set_validator r v)
                 (fragmented_message (set_validator r v) ++ payload)))
      with (compressed_message_in_progress r).
    change (compressed_message_in_progress
              (set_fragmented_message r (fragmented_message r ++ payload)))
      with (compressed_message_in_progress r).
    change (fragmented_opcode
              (set_fragmented_message
                 (set_validator r v)
                 (fragmented_message (set_validator r v) ++ payload)))
      with (fragmented_opcode r).
    change (fragmented_opcode
              (set_fragmented_message r (fragmented_message r ++ payload)))
      with (fragmented_opcode r).
    change (utf8Validator
              (set_fragmented_message
                 (set_validator r v)
                 (fragmented_message (set_validator r v) ++ payload)))
      with v.
    change (utf8Validator
              (set_fragmented_message r (fragmented_message r ++ payload)))
      with (utf8Validator r).
    destruct (compressed_message_in_progress r) eqn:Hc; cbn [negb andb].
    + cbn [fst snd negb].
      destruct fin; cbn [negb]; [|sim_done].
      fields. rewrite ?Hc.
      repeat match goal with
             | |- context [rxInflate fuel ?x ?i] =>
               tryif constr_eq x r then fail
               else rewrite (rxInflate_ext fuel r x i) by reflexivity
             end.
      destruct (rxInflate fuel r (fragmented_message r ++ payload))
        as [[[ok out] r1]|] eqn:E; cbn [option_map]; [|reflexivity].
      destruct (rxInflate_result fuel r _ _ _ _ E) as (st & ->).
      destruct ok; cbn [negb]; [|sim_done].
      fields. rewrite ?Hc.
      match goal with
      | |- context [rxMaybeResetAfterMessage ?x] =>
        repeat match goal with
               | |- context [rxMaybeResetAfterMessage ?y] =>
                 tryif constr_eq x y then fail
                 else (let E1 := fresh in
                       let E2 := fresh in
                       destruct (rxMaybeReset_ext x y eq_refl eq_refl
                                                  eq_refl)
                         as (? & ? & E1 & E2);
                       rewrite ?E1, ?E2; clear E1 E2)
               end
      end.
      fields. rewrite ?Hc.
      destruct (fragmented_opcode r =? 1);
        [destruct (validateChunk reset out) as [[|] v1];
         [destruct (validateFinal v1) as [[|] v2]|]; cbn [negb];
         sim_done|].
      destruct (fragmented_opcode r =? 2); sim_done.
    + destruct (Z.eqb_spec (fragmented_opcode r) 1) as [Ho|Ho].
      * assert (Hlive : v = utf8Validator r) by (apply Hv; repeat split;
                                                  assumption).
        subst v.
        destruct (validateChunk (utf8Validator r) payload) as [[|] v1];
          cbn [fst snd negb]; [|sim_done].
        destruct fin; cbn [negb]; [|sim_done].
        fields. rewrite ?Hc. cbv iota beta. fields. rewrite ?Hc, ?Ho.
        cbn [Z.eqb Pos.eqb].
        destruct (validateFinal v1) as [[|] v2]; cbn [negb]; sim_done.
      * cbn [fst snd negb].
        destruct fin; cbn [negb]; [|sim_done].
        fields. rewrite ?Hc. cbv iota beta. fields.
        rewrite ?Hc, ?(proj2 (Z.eqb_neq _ _) Ho).
        destruct (fragmented_opcode r =? 2); sim_done.
Qed.

(** The same over the frames of a list. *)
Lemma handle_frames_sim (fuel : nat) (fs : list message_frame) :
  forall (s : Sink) (r r' : Receiver),
    same_but_validator r r' ->
    match handle_frames fuel r s fs with
    | Some (q, t) =>
      exists q', handle_frames fuel r' s fs = Some (q', t)
                 /\ same_but_validator q q'
    | None => handle_frames fuel r' s fs = None
    end.
Proof.
  induction fs as [|f fs IH]; intros s r r' H; cbn [handle_frames].
  - exists r'. split; [reflexivity|assumption].
  - pose proof (handle_frame_sim fuel s f r r' H) as Hf.
    destruct (handle_frame fuel r s f) as [[q t]|].
    + destruct Hf as (q' & -> & Hq). apply IH. assumption.
    + rewrite Hf. reflexivity.
Qed.

(** Between messages the state of the validator is never read: whatever
    state the last message left, the frames that follow make the same
    calls to the sink. *)
Lemma validator_not_read (fuel : nat) (r : Receiver) (s : Sink) (v0 : V)
      (fs : list message_frame) :
  message_in_progress r = false ->
  option_map snd (handle_frames fuel (set_validator r v0) s fs)
  = option_map snd (handle_frames fuel r s fs).
Proof.
  intros Hm.
  assert (H : same_but_validator r (set_validator r v0)).
  { exists v0. split; [reflexivity|]. intros (Hm' & _). congruence. }
  pose proof (handle_frames_sim fuel fs s r _ H) as Hs.
  destruct (handle_frames fuel r s fs) as [[q t]|].
  - destruct Hs as (q' & -> & _). reflexivity.
  - rewrite Hs. reflexivity.
Qed.

Lemma validate_chunks_snoc (pre : list (list byte)) (c : list byte) :
  forall v0 v : V,
    validate_chunks v0 pre = (true, v) ->
    validate_chunks v0 (pre ++ [c]) = validateChunk v c.
Proof.
  induction pre as [|a pre IH]; intros v0 v H; cbn [app validate_chunks] in *.
  - inversion H; subst.
    destruct (validateChunk v c) as [[|] v1]; reflexivity.
  - destruct (validateChunk v0 a) as [[|] v1]; [|discriminate].
    apply IH. assumption.
Qed.

Lemma validate_message_snoc (pre : list (list byte)) (c : list byte)
      (v : V) :
  validate_chunks reset pre = (true, v) ->
  validate_message (pre ++ [c])
  = if fst (validateChunk v c)
    then fst (validateFinal (snd (validateChunk v c))) else false.
Proof.
  intros H. unfold validate_message.
  rewrite (validate_chunks_snoc pre c reset v H).
  destruct (validateChunk v c) as [[|] v1]; reflexivity.
Qed.

(** ** Claim C3 *)

(** C3.  A text message (leading opcode 1) arrives in the frames that carry
    the chunks [pre ++ [c]], at a receiver with no message under
    assembly.

    Uncompressed: the validator is fed chunk after chunk from its reset
    state.  While it has taken the chunks [pre], the frame that brings [c]
    is answered at once with [onRxProtocolError 1007] when it refuses [c],
    and nothing else reaches the sink.  When [c] is the last chunk the
    validator is asked to finish: the message is delivered by one
    [onRxText] with the chunks in order, or answered with 1007.

    Compressed: before FIN nothing reaches the sink and the validator is
    left as it was; at FIN the assembled payload is inflated, and the
    validator runs once, from its reset state, on the output, which is
    delivered by one [onRxText] or answered with 1007.

    After a delivered message no message is under assembly, and in such a
    state the validator the receiver holds is never read: with any other
    validator state in its place the frames that follow make the same
    calls to the sink. *)
Theorem text_message_utf8_validation (fuel : nat) (r : Receiver) (s : Sink)
        (rsv1 : bool) (pre : list (list byte)) (c : list byte) :
  message_in_progress r = false ->
  (rsv1 && rxCompressionEnabled s = false ->
   forall v : V,
     validate_chunks reset pre = (true, v) ->
     (exists r',
         handle_frames fuel r s (message_frames 1 rsv1 false (pre ++ [c]))
         = Some (r', if fst (validateChunk v c) then s else invalid_utf8 s))
     /\ (exists r',
            handle_frames fuel r s (message_frames 1 rsv1 true (pre ++ [c]))
            = Some (r',
                    if validate_message (pre ++ [c])
                    then onRxText (concat (pre ++ [c])) s
                    else invalid_utf8 s)
            /\ (validate_message (pre ++ [c]) = true ->
                message_in_progress r' = false)))
  /\ (rsv1 && rxCompressionEnabled s = true ->
      (exists r',
          handle_frames fuel r s (message_frames 1 rsv1 false (pre ++ [c]))
          = Some (r', s)
          /\ utf8Validator r' = utf8Validator r)
      /\ match rxInflate fuel r (concat (pre ++ [c])) with
         | Some (ok, out, _) =>
           exists r',
             handle_frames fuel r s
                           (message_frames 1 rsv1 true (pre ++ [c]))
             = Some (r',
                     if ok then
                       if validate_message [out] then onRxText out s
                       else invalid_utf8 s
                     else decompression_failed s)
             /\ (ok = true -> validate_message [out] = true ->
                 message_in_progress r' = false)
         | None =>
           handle_frames fuel r s (message_frames 1 rsv1 true (pre ++ [c]))
           = None
         end)
  /\ (forall (v0 : V) (fs : list message_frame),
        option_map snd (handle_frames fuel (set_validator r v0) s fs)
        = option_map snd (handle_frames fuel r s fs)).
Proof.
  intros Hm. split; [|split].
  - intros Hc v Hv. split.
    + destruct (text_message_uncompressed fuel r s rsv1 pre c false v
                                          Hm Hc Hv) as (r' & E & _).
      exists r'. rewrite E.
      destruct (fst (validateChunk v c)); reflexivity.
    + destruct (text_message_uncompressed fuel r s rsv1 pre c true v
                                          Hm Hc Hv) as (r' & E & _ & Hd).
      exists r'. rewrite E, (validate_message_snoc pre c v Hv).
      split.
      * destruct (fst (validateChunk v c)); [|reflexivity].
        destruct (fst (validateFinal (snd (validateChunk v c))));
          reflexivity.
      * destruct (fst (validateChunk v c)); [|discriminate].
        intros Hf. apply Hd; auto.
  - intros Hc.
    destruct (text_message_compressed fuel r s rsv1 pre c Hm Hc)
      as ((r' & E & Hv & _) & H).
    split; [exists r'; auto|].
    destruct (rxInflate fuel r (concat (pre ++ [c]))) as [[[ok out] r1]|];
      exact H.
  - intros v0 fs. apply validator_not_read. assumption.
Qed.

(** *** Failures of rxInflate in the handlers *)




(** ** The rounds of rxInflate *)






(** ** Claim C5 *)


End Messages.

(** ** The receive path on concrete messages *)

Lemma text_message_utf8_validation_witness :
  exists r',
    handle_frames 1 example_receiver plain_sink
                  (message_frames 1 false true straddling_chunks)
    = Some (r', onRxText (concat straddling_chunks) plain_sink)
    /\ message_in_progress r' = false.
Proof.
  destruct (@text_message_utf8_validation
              (list byte) IncrementalUtf8 StoredZlib Recorder RecorderSinks
              1%nat example_receiver plain_sink false
              [[x48; x69; x20]; [x3a; xf0; x9f]] [x98; x80; x21] eq_refl)
    as (Hu & _).
  destruct (Hu eq_refl [xf0; x9f] eq_refl) as (_ & r' & E & Hd).
  exists r'. split; [exact E|exact (Hd eq_refl)].
Defined.

(** Scenario 3: the three fragments give one text callback with the whole
    string. *)
Example straddling_text_delivered :
  option_map (fun p => rec_calls (snd p))
             (handle_frames 1 example_receiver plain_sink
                            (message_frames 1 false true straddling_chunks))
  = Some [RxText [x48; x69; x20; x3a; xf0; x9f; x98; x80; x21]].
Proof. reflexivity. Qed.

(** Without the last fragment the character is left incomplete: the first
    two fragments pass, and a FIN on the second is answered with 1007. *)
Example incomplete_text_rejected :
  option_map (fun p => rec_calls (snd p))
             (handle_frames 1 example_receiver plain_sink
                            (message_frames 1 false false
                                            (firstn 2 straddling_chunks)))
  = Some []
  /\ option_map (fun p => rec_calls (snd p))
                (handle_frames 1 example_receiver plain_sink
                               (message_frames 1 false true
                                               (firstn 2 straddling_chunks)))
     = Some [RxProtocolError 1007 "Invalid UTF-8 in text message"].
Proof. split; reflexivity. Qed.

(** A compressed ["Hello"] in two fragments is inflated and delivered. *)
Example compressed_hello_delivered :
  option_map (fun p => rec_calls (snd p))
             (handle_frames 1 example_receiver deflate_sink
                            (message_frames 1 true true
                                            [firstn 4 hello_compressed;
                                             skipn 4 hello_compressed]))
  = Some [RxText hello].
Proof. vm_compute. reflexivity. Qed.

(** Bytes that are no deflate stream: [inflate] reports an error,
    [rxInflate] returns false after one call, and the handler answers
    1007. *)
Example garbage_fails_inflate :
  option_map (fun p => fst (fst p)) (rxInflate 1 example_receiver hello)
  = Some false
  /\ option_map (fun p => rec_calls (snd p))
                (handleDataFrame 1 example_receiver deflate_sink hello
                                 true 1 true)
     = Some [RxProtocolError 1007 "Decompression failed"].
Proof. split; vm_compute; reflexivity. Qed.

(** With a zlib that stalls, [rxInflate] returns false on the first
    [Z_BUF_ERROR]: input is left and the chunk is empty. *)
Example stalled_inflate_fails :
  option_map (fun p => fst (fst p))
             (rxInflate (zlib := StallingZlib) 1 example_receiver
                        hello_compressed)
  = Some false
  /\ option_map (fun p => rec_calls (snd p))
                (handleContinuationFrame (zlib := StallingZlib) 1
                   (set_fragments example_receiver true true 2
                                  (firstn 4 hello_compressed))
                   deflate_sink (skipn 4 hello_compressed) true)
     = Some [RxProtocolError 1007 "Decompression failed"].
Proof. split; vm_compute; reflexivity. Qed.

(** The compressed Hello is inflated in one round. *)
Example hello_inflates_in_one_round :
  exists s',
    inflate_rounds (zlib := StoredZlib) 1
      (rxInflate_stream example_receiver hello_compressed) [] true s' hello.
Proof.
  eexists.
  apply (last_round (zlib := StoredZlib)
           (rxInflate_stream example_receiver hello_compressed) []
           Z_OK _ hello true); vm_compute; reflexivity.
Qed.

(** With a zlib that stalls, the first round is a failure. *)
Example stall_is_one_failed_round :
  inflate_rounds (zlib := StallingZlib) 1
    (rxInflate_stream example_receiver hello_compressed) [] false
    (snd (fst (inflate (zlib := StallingZlib)
                 (set_avail_out
                    (rxInflate_stream example_receiver hello_compressed)
                    TMP_SIZE) Z_SYNC_FLUSH))) [].
Proof.
  apply (last_round (zlib := StallingZlib)
           (rxInflate_stream example_receiver hello_compressed) []
           Z_BUF_ERROR _ [] false); vm_compute; reflexivity.
Qed.

(** ** Scenarios of the specification, on the bytes of the wire *)

(** Scenario 3: three fragments with a four-byte character across the
    second boundary reach the sink as one text callback with the whole
    string, and the buffer is drained. *)
Example scenario3_one_text_callback :
  option_map (fun res => (exit res, rec_calls (sink_after res),
                          buffer_after res))
             (onData 1 example_receiver plain_sink straddling_frames)
  = Some (Returned,
          [RxText [x48; x69; x20; x3a; xf0; x9f; x98; x80; x21]], []).
Proof. vm_compute. reflexivity. Qed.

(** Scenario 4: a close frame with code 1005 reaches the close callback
    with code 1002 and an empty reason. *)
Example scenario4_close_1005 :
  option_map (fun res => (exit res, rec_calls (sink_after res),
                          buffer_after res))
             (onData 1 example_receiver plain_sink close_1005_frame)
  = Some (Returned, [RxClose 1002 []], []).
Proof. vm_compute. reflexivity. Qed.

(** [onData] on a buffer of 15 bytes: 15 rounds or 1015, the result is the
    same. *)
Lemma onData_rounds_enough_witness :
  onData_loop (15 + 1000) 1 example_receiver plain_sink straddling_frames
  = onData_loop 15 1 example_receiver plain_sink straddling_frames.
Proof.
  apply (@onData_rounds_enough (list byte) IncrementalUtf8 StoredZlib
           Recorder RecorderSinks 1%nat 15%nat example_receiver plain_sink
           straddling_frames 1000%nat).
  simpl. lia.
Defined.

Lemma initializeCompression_ready_witness :
  _cfg example_receiver = deflate_config
  /\ inflate_initialized example_receiver = true
  /\ deflate_initialized example_receiver = true
  /\ zs_params (deflate_stream example_receiver)
     = deflate_params deflate_config
  /\ zs_calls (deflate_stream example_receiver) = [].
Proof.
  apply (@initializeCompression_ready (list byte) StoredZlib
           (new_receiver []) deflate_config example_receiver).
  - reflexivity.
  - reflexivity.
Defined.


(* ===================================================================== *)
(** * Further properties of the code *)
(* ===================================================================== *)

(** ** htonll and ntohll *)

Lemma bswap32_bytes (b0 b1 b2 b3 : Z) :
  0 <= b0 <= 255 -> 0 <= b1 <= 255 -> 0 <= b2 <= 255 -> 0 <= b3 <= 255 ->
  bswap32 (b0 + 256 * b1 + 65536 * b2 + 16777216 * b3)
  = b3 + 256 * b2 + 65536 * b1 + 16777216 * b0.
Proof.
  intros H0 H1 H2 H3. unfold bswap32.
  change (2 ^ 24) with 16777216. change (2 ^ 16) with 65536.
  change (2 ^ 8) with 256.
  Z.div_mod_to_equations. lia.
Qed.

Lemma bswap32_range (x : Z) : 0 <= bswap32 x < 2 ^ 32.
Proof.
  unfold bswap32.
  change (2 ^ 24) with 16777216. change (2 ^ 16) with 65536.
  change (2 ^ 8) with 256. change (2 ^ 32) with 4294967296.
  Z.div_mod_to_equations. lia.
Qed.

Lemma bswap32_involutive (x : Z) :
  0 <= x < 2 ^ 32 -> bswap32 (bswap32 x) = x.
Proof.
  intros H. change (2 ^ 32) with 4294967296 in H.
  set (b0 := x mod 256). set (b1 := x / 256 mod 256).
  set (b2 := x / 65536 mod 256). set (b3 := x / 16777216 mod 256).
  assert (Hx : x = b0 + 256 * b1 + 65536 * b2 + 16777216 * b3)
    by (subst b0 b1 b2 b3; Z.div_mod_to_equations; lia).
  assert (E : bswap32 x = b3 + 256 * b2 + 65536 * b1 + 16777216 * b0).
  { unfold bswap32. change (2 ^ 24) with 16777216.
    change (2 ^ 16) with 65536. change (2 ^ 8) with 256.
    fold b0 b1 b2 b3. lia. }
  rewrite E.
  rewrite bswap32_bytes by (subst b0 b1 b2 b3; Z.div_mod_to_equations; lia).
  lia.
Qed.

(** [(a << 32) | b] is [a * 2^32 + b] when [b] has 32 bits. *)
Lemma lor_shiftl_32 (a b : Z) :
  0 <= a -> 0 <= b < 2 ^ 32 -> Z.lor (a * 2 ^ 32) b = a * 2 ^ 32 + b.
Proof.
  intros Ha Hb.
  assert (Hl : Z.land (a * 2 ^ 32) b = 0).
  { apply Z.bits_inj'. intros n Hn. rewrite Z.land_spec, Z.bits_0.
    destruct (Z.lt_ge_cases n 32) as [L|L].
    - rewrite Z.mul_pow2_bits_low by lia. reflexivity.
    - rewrite (Z.bits_above_log2 b n), andb_false_r; [reflexivity|lia|].
      destruct (Z.eq_dec b 0) as [->|N]; [cbn; lia|].
      assert (Z.log2 b < 32) by (apply Z.log2_lt_pow2; lia). lia. }
  rewrite <- (Z.lxor_lor _ _ Hl). symmetry.
  apply Z.add_nocarry_lxor. exact Hl.
Qed.

(** The macro on a little-endian host, in arithmetic. *)
Lemma htonll_little_endian (x : Z) :
  0 <= x < 2 ^ 64 ->
  htonll true x = bswap32 (x mod 2 ^ 32) * 2 ^ 32 + bswap32 (x / 2 ^ 32).
Proof.
  intros H. unfold htonll, htonl, to_uint32, to_uint64.
  change (1 =? bswap32 1) with false. cbv iota.
  change 0xFFFFFFFF with (Z.ones 32).
  rewrite Z.land_ones, Z.shiftr_div_pow2 by lia.
  rewrite (Z.mod_small (x mod 2 ^ 32)) by (apply Z.mod_pos_bound; lia).
  assert (Hhi : 0 <= x / 2 ^ 32 < 2 ^ 32).
  { change (2 ^ 64) with (2 ^ 32 * 2 ^ 32) in H.
    split; [apply Z.div_pos; lia|apply Z.div_lt_upper_bound; lia]. }
  rewrite (Z.mod_small (x / 2 ^ 32)) by assumption.
  pose proof (bswap32_range (x mod 2 ^ 32)) as R1.
  pose proof (bswap32_range (x / 2 ^ 32)) as R2.
  rewrite Z.shiftl_mul_pow2 by lia.
  rewrite Z.mod_small
    by (change (2 ^ 64) with (2 ^ 32 * 2 ^ 32); nia).
  apply lor_shiftl_32; lia.
Qed.

Lemma load_be64_bytes (p : list byte) :
  load_be64 p
  = at_ p 7 + 256 * at_ p 6 + 65536 * at_ p 5 + 16777216 * at_ p 4
    + 4294967296 * (at_ p 3 + 256 * at_ p 2 + 65536 * at_ p 1
                    + 16777216 * at_ p 0).
Proof. unfold load_be64. cbn [seq fold_left]. lia. Qed.

Lemma load_le64_bytes (p : list byte) :
  load_le64 p
  = at_ p 0 + 256 * at_ p 1 + 65536 * at_ p 2 + 16777216 * at_ p 3
    + 4294967296 * (at_ p 4 + 256 * at_ p 5 + 65536 * at_ p 6
                    + 16777216 * at_ p 7).
Proof. unfold load_le64. cbn [seq fold_right]. lia. Qed.

(** X10. The macro [htonll]/[ntohll] of WebSocketReceiver.h.  On a host of
    either byte order, [ntohll] of the eight bytes that
    [memcpy(&u64, p, 8)] loaded is the number the bytes spell in network
    order, which is how [onData] reads a 64-bit payload length; and the
    macro undoes itself on every 64-bit value. *)
Theorem ntohll_network_order (little_endian : bool) :
  (forall p : list byte,
      ntohll little_endian (memcpy_u64 little_endian p) = load_be64 p)
  /\ (forall x : Z,
         0 <= x < 2 ^ 64 ->
         ntohll little_endian (htonll little_endian x) = x).
Proof.
  unfold ntohll. destruct little_endian.
  - split.
    + intros p. unfold memcpy_u64.
      pose proof (at_range p 0). pose proof (at_range p 1).
      pose proof (at_range p 2). pose proof (at_range p 3).
      pose proof (at_range p 4). pose proof (at_range p 5).
      pose proof (at_range p 6). pose proof (at_range p 7).
      rewrite htonll_little_endian
        by (rewrite load_le64_bytes; change (2 ^ 64) with 18446744073709551616;
            lia).
      rewrite load_le64_bytes, load_be64_bytes.
      change (2 ^ 32) with 4294967296.
      set (lo := at_ p 0 + 256 * at_ p 1 + 65536 * at_ p 2
                 + 16777216 * at_ p 3).
      set (hi := at_ p 4 + 256 * at_ p 5 + 65536 * at_ p 6
                 + 16777216 * at_ p 7).
      assert (Hlo : 0 <= lo < 4294967296) by (subst lo; lia).
      assert (Hhi : 0 <= hi < 4294967296) by (subst hi; lia).
      replace ((lo + 4294967296 * hi) mod 4294967296) with lo
        by (Z.div_mod_to_equations; lia).
      replace ((lo + 4294967296 * hi) / 4294967296) with hi
        by (Z.div_mod_to_equations; lia).
      subst lo hi. rewrite !bswap32_bytes by assumption. lia.
    + intros x Hx.
      assert (Hlo : 0 <= x mod 2 ^ 32 < 2 ^ 32)
        by (apply Z.mod_pos_bound; lia).
      assert (Hhi : 0 <= x / 2 ^ 32 < 2 ^ 32).
      { change (2 ^ 64) with (2 ^ 32 * 2 ^ 32) in Hx.
        split; [apply Z.div_pos; lia|apply Z.div_lt_upper_bound; lia]. }
      pose proof (bswap32_range (x mod 2 ^ 32)) as R1.
      pose proof (bswap32_range (x / 2 ^ 32)) as R2.
      rewrite (htonll_little_endian x Hx).
      rewrite htonll_little_endian
        by (change (2 ^ 64) with (2 ^ 32 * 2 ^ 32); nia).
      replace ((bswap32 (x mod 2 ^ 32) * 2 ^ 32 + bswap32 (x / 2 ^ 32))
               mod 2 ^ 32) with (bswap32 (x / 2 ^ 32))
        by (change (2 ^ 32) with 4294967296 in *; Z.div_mod_to_equations;
            lia).
      replace ((bswap32 (x mod 2 ^ 32) * 2 ^ 32 + bswap32 (x / 2 ^ 32))
               / 2 ^ 32) with (bswap32 (x mod 2 ^ 32))
        by (change (2 ^ 32) with 4294967296 in *; Z.div_mod_to_equations;
            lia).
      rewrite !bswap32_involutive by assumption.
      change (2 ^ 32) with 4294967296. Z.div_mod_to_equations. lia.
  - split; intros; reflexivity.
Qed.

(** ** isValidUtf8 *)

(** X8. [isValidUtf8(str, len)] depends on the first [len] bytes only: two
    buffers that agree on them get the same answer, whatever follows in
    memory.  A sequence cut by [len] is thus refused even when the bytes
    after it would complete it. *)
Theorem isValidUtf8_reads_len_bytes (str str' : list byte) (n : nat) :
  (n <= length str)%nat -> (n <= length str')%nat ->
  firstn n str = firstn n str' ->
  isValidUtf8 str n = isValidUtf8 str' n.
Proof.
  intros H H' E.
  rewrite !isValidUtf8_suffix_form by assumption. rewrite E. reflexivity.
Qed.

(** X9. After a valid string the check starts afresh: appended to a string
    that [isValidUtf8] accepts, a string is accepted exactly when it is
    accepted on its own. *)
Theorem isValidUtf8_after_valid (a b : list byte) :
  isValidUtf8 a (length a) = true ->
  isValidUtf8 (a ++ b) (length (a ++ b)) = isValidUtf8 b (length b).
Proof.
  rewrite !isValidUtf8_whole. apply utf8_ok_app.
Qed.

(** ** Close frames *)

Lemma well_formed_utf8_nil : well_formed_utf8 [].
Proof. exists []. split; [constructor|reflexivity]. Qed.

(** X7. Whatever the payload of a close frame, [handleCloseFrame] leaves the
    receiver as it is and calls [onRxClose] once, with a code from the
    permitted set (1000..1011 without 1004, 1005, 1006, or 3000..4999) and
    a reason of at most 123 bytes that is well-formed UTF-8: nothing the
    peer sends reaches the close callback unchecked. *)
Theorem handleCloseFrame_delivers_checked (V Sink : Type)
        (sinks : IWebSocketSinks Sink)
        (r : WebSocketReceiver V) (s : Sink) (payload : list byte) :
  exists code reason,
    handleCloseFrame r s payload = (r, onRxClose code reason s)
    /\ permitted_close_code code
    /\ len reason <= 123
    /\ well_formed_utf8 reason.
Proof.
  unfold handleCloseFrame.
  destruct (sanitize_close payload) as [code reason] eqn:E.
  exists code, reason. split; [reflexivity|].
  destruct (Z.le_gt_cases (len payload) 125) as [Hs|Hl].
  - pose proof (@sanitize_close_short payload Hs) as C. rewrite E in C.
    cbn [fst snd] in C.
    assert (P1002 : permitted_close_code 1002)
      by (unfold permitted_close_code; lia).
    inversion C; subst.
    + split; [unfold permitted_close_code; lia|].
      split; [cbn; lia|apply well_formed_utf8_nil].
    + split; [assumption|]. split; [cbn; lia|apply well_formed_utf8_nil].
    + split; [assumption|]. split; [cbn; lia|apply well_formed_utf8_nil].
    + split; [assumption|]. split; [|assumption].
      unfold len. rewrite length_firstn. lia.
  - rewrite (@sanitize_close_long payload) in E by lia.
    inversion E; subst.
    split; [unfold permitted_close_code; lia|].
    split; [cbn; lia|apply well_formed_utf8_nil].
Qed.

(** ** onData: frames one after the other *)

Section OnDataFrames.
Context {V : Type} {validator : Utf8Validator V}.
Context {zlib : Zlib}.
Context {Sink : Type} {sinks : IWebSocketSinks Sink}.

Local Abbreviation Receiver := (WebSocketReceiver V).

Lemma onData_next_frame (fuel : nat) (r : Receiver) (s : Sink)
      (buf : list byte) (r' : Receiver) (s' : Sink) (rest : list byte) :
  onData_round fuel r s buf = Some (NextFrame r' s' rest) ->
  onData fuel r s buf = onData fuel r' s' rest.
Proof.
  intros E.
  pose proof (@onData_round_drains _ _ _ _ _ fuel r s buf r' s' rest E) as D.
  unfold onData. destruct buf as [|b buf]; [cbn in D; lia|].
  cbn [length onData_loop]. rewrite E. cbn [length] in D.
  replace (length buf) with (length rest + (length buf - length rest))%nat
    by lia.
  apply (@onData_rounds_enough _ _ _ _ _ fuel (length rest) r' s' rest).
  lia.
Qed.

Lemma onData_round_none (fuel : nat) (r : Receiver) (s : Sink)
      (buf : list byte) :
  onData_round fuel r s buf = None -> 2 <= len buf ->
  onData fuel r s buf = None.
Proof.
  intros E Hl. unfold onData. destruct buf as [|b buf].
  - unfold len in Hl. cbn in Hl. lia.
  - cbn [length onData_loop]. rewrite E. reflexivity.
Qed.

Lemma frame_buffered_two (buf : list byte) : frame_buffered buf -> 2 <= len buf.
Proof.
  intros [H _]. pose proof (frame_header_len_range buf).
  pose proof (frame_payload_len_range buf). lia.
Qed.

(** X1. A buffer that starts with a whole frame that breaks no header rule:
    [onData] runs the handler of the opcode on the frame and then goes on
    with the bytes after the frame exactly as a call on those bytes alone
    would, with the receiver and the sink the handler left.  So frames
    that arrive in one read and frames that arrive one by one are treated
    alike. *)
Theorem onData_frame_then_rest (fuel : nat) (r : Receiver) (s : Sink)
        (buf : list byte) :
  rxIsTerminating s = false ->
  frame_buffered buf ->
  ~ header_violation (rxCompressionEnabled s) buf ->
  onData fuel r s buf
  = match frame_handler fuel r s buf with
    | Some (r', s') => onData fuel r' s' (frame_rest buf)
    | None => None
    end.
Proof.
  intros Ht Hb Hv.
  pose proof (@onData_round_dispatch _ _ _ _ _ fuel r s buf Ht Hb Hv) as E.
  pose proof (frame_buffered_two buf Hb) as H2.
  cbv zeta in E. unfold frame_handler. cbv zeta.
  destruct (hdr_opcode buf =? 0).
  { destruct (handleContinuationFrame fuel r s (frame_payload buf)
                                      (hdr_fin buf)) as [[r' s']|];
      cbn [option_map] in E;
      [apply onData_next_frame|apply onData_round_none]; assumption. }
  destruct ((hdr_opcode buf =? 1) || (hdr_opcode buf =? 2)).
  { destruct (handleDataFrame fuel r s (frame_payload buf) (hdr_fin buf)
                              (hdr_opcode buf) (hdr_rsv1 buf))
      as [[r' s']|]; cbn [option_map] in E;
      [apply onData_next_frame|apply onData_round_none]; assumption. }
  destruct (hdr_opcode buf =? 8).
  { destruct (handleCloseFrame r s (frame_payload buf)) as [r' s'].
    apply onData_next_frame; assumption. }
  destruct (hdr_opcode buf =? 9).
  { destruct (handlePingFrame r s (frame_payload buf)) as [r' s'].
    apply onData_next_frame; assumption. }
  apply onData_next_frame; assumption.
Qed.

End OnDataFrames.

(** ** onData: a frame that is not yet whole *)

Section OnDataWaits.
Context {V : Type} {validator : Utf8Validator V}.
Context {zlib : Zlib}.
Context {Sink : Type} {sinks : IWebSocketSinks Sink}.

Local Abbreviation Receiver := (WebSocketReceiver V).

Lemma onData_stop_unchanged (fuel : nat) (r : Receiver) (s : Sink)
      (buf : list byte) :
  onData_round fuel r s buf = Some (stop r s buf) ->
  onData fuel r s buf = Some (mkResultData Returned r s buf).
Proof.
  intros E. unfold onData. destruct buf as [|b buf]; [reflexivity|].
  cbn [length onData_loop]. rewrite E. reflexivity.
Qed.

Lemma hdr_prefix (n : nat) (w : list byte) :
  (2 <= n)%nat ->
  hdr_fin (firstn n w) = hdr_fin w
  /\ hdr_rsv1 (firstn n w) = hdr_rsv1 w
  /\ hdr_rsv2 (firstn n w) = hdr_rsv2 w
  /\ hdr_rsv3 (firstn n w) = hdr_rsv3 w
  /\ hdr_opcode (firstn n w) = hdr_opcode w
  /\ hdr_mask (firstn n w) = hdr_mask w
  /\ hdr_len7 (firstn n w) = hdr_len7 w.
Proof.
  intros H.
  unfold hdr_fin, hdr_rsv1, hdr_rsv2, hdr_rsv3, hdr_opcode, hdr_mask,
    hdr_len7.
  rewrite !at_firstn by lia. repeat split; reflexivity.
Qed.

Lemma load_be16_prefix (n : nat) (w : list byte) :
  (4 <= n)%nat ->
  load_be16 (skipn 2 (firstn n w)) = load_be16 (skipn 2 w).
Proof.
  intros H. unfold load_be16. rewrite !at_skipn_firstn by lia. reflexivity.
Qed.

Lemma load_be64_prefix (n : nat) (w : list byte) :
  (10 <= n)%nat ->
  load_be64 (skipn 2 (firstn n w)) = load_be64 (skipn 2 w).
Proof.
  intros H. unfold load_be64. cbn [seq fold_left].
  rewrite !at_skipn_firstn by lia. reflexivity.
Qed.

(** X2. On a buffer that holds only the beginning of a frame (any proper
    prefix of a frame that breaks no header rule, down to the empty
    buffer) [onData] returns at once: no call reaches the sink, the
    receiver is as before and nothing is drained, so the bytes are still
    there when the rest arrives. *)
Theorem onData_partial_frame_waits (fuel : nat) (r : Receiver) (s : Sink)
        (whole : list byte) (n : nat) :
  frame_buffered whole ->
  ~ header_violation (rxCompressionEnabled s) whole ->
  Z.of_nat n < frame_header_len whole + frame_payload_len whole ->
  onData fuel r s (firstn n whole)
  = Some (mkResultData Returned r s (firstn n whole)).
Proof.
  intros [Hfull Hmax] Hv Hn.
  apply onData_stop_unchanged.
  pose proof (frame_header_len_range whole) as Hh.
  pose proof (frame_payload_len_range whole) as Hp.
  unfold VECTOR_MAX_SIZE in Hmax.
  change (2 ^ 63 - 1) with 9223372036854775807 in Hmax.
  change (2 ^ 64) with 18446744073709551616 in Hp.
  assert (Hlen : len (firstn n whole) = Z.of_nat n)
    by (unfold len in *; rewrite length_firstn; lia).
  unfold onData_round.
  destruct (rxIsTerminating s); [reflexivity|].
  rewrite Hlen.
  destruct (Z.ltb_spec (Z.of_nat n) 2) as [|H2]; [reflexivity|].
  rewrite hdr_fin_firstn, hdr_rsv1_firstn, hdr_rsv2_firstn, hdr_rsv3_firstn,
    hdr_opcode_firstn, hdr_mask_firstn, hdr_len7_firstn,
    load_be16_firstn, load_be64_firstn.
  destruct (hdr_prefix n whole ltac:(lia))
    as (-> & -> & -> & -> & -> & -> & ->).
  destruct (@no_violation _ _ Hv) as (V1 & V2 & V3 & V4 & _).
  fold (is_control (hdr_opcode whole)).
  rewrite V1, V2, V3.
  unfold frame_header_len, frame_payload_len in *.
  assert (Hsz : forall h p, 0 <= h -> 0 <= p -> h + p <= 9223372036854775807 ->
                            to_size_t (h + to_size_t p) = h + p).
  { intros h p H0 H1 H3. unfold to_size_t, SIZE_BITS.
    change (2 ^ 64) with 18446744073709551616.
    rewrite (Z.mod_small p) by lia. apply Z.mod_small. lia. }
  destruct (hdr_len7 whole =? 126).
  { destruct (Z.ltb_spec (Z.of_nat n) (2 + 2)) as [|H4]; [reflexivity|].
    rewrite load_be16_prefix by lia. rewrite V4.
    rewrite Hsz by lia.
    rewrite (proj2 (Z.ltb_lt (Z.of_nat n) _)) by lia. reflexivity. }
  destruct (hdr_len7 whole =? 127).
  { destruct (Z.ltb_spec (Z.of_nat n) (2 + 8)) as [|H4]; [reflexivity|].
    rewrite load_be64_prefix by lia. rewrite V4.
    rewrite Hsz by lia.
    rewrite (proj2 (Z.ltb_lt (Z.of_nat n) _)) by lia. reflexivity. }
  rewrite V4. rewrite Hsz by lia.
  rewrite (proj2 (Z.ltb_lt (Z.of_nat n) _)) by lia. reflexivity.
Qed.

End OnDataWaits.

(** ** onData: 64-bit payload lengths near the top *)

Section OnDataLength.
Context {V : Type} {validator : Utf8Validator V}.
Context {zlib : Zlib}.
Context {Sink : Type} {sinks : IWebSocketSinks Sink}.

Local Abbreviation Receiver := (WebSocketReceiver V).

(** X3. A data frame with a 64-bit length field (length byte 127) that
    passes the RSV, fragmentation and mask tests, ten bytes or more
    buffered.  [need = header_len + payload_len] is computed in [size_t]:
    for a length of 2^64 - 10 it wraps to 0, [evbuffer_pullup(buf, 0)]
    gives NULL and the frame is answered with 1002; for a larger length it
    wraps to 1..9, the test [data_len < need] passes and
    [payload.reserve(payload_len)] is asked for more than
    [vector::max_size()] and throws [std::length_error] out of [onData].
    A length from 2^63 up to 2^64 - 11 is not refused: [onData] waits for
    the bytes. *)
Theorem onData_length_wraps (fuel : nat) (r : Receiver) (s : Sink)
        (buf : list byte) :
  rxIsTerminating s = false ->
  10 <= len buf <= VECTOR_MAX_SIZE ->
  (negb (rxCompressionEnabled s) && hdr_rsv1 buf) || hdr_rsv2 buf
  || hdr_rsv3 buf = false ->
  is_control (hdr_opcode buf) = false ->
  hdr_mask buf = false ->
  hdr_len7 buf = 127 ->
  (2 ^ 63 <= load_be64 (skipn 2 buf) < 2 ^ 64 - 10 ->
   onData fuel r s buf = Some (mkResultData Returned r s buf))
  /\ (load_be64 (skipn 2 buf) = 2 ^ 64 - 10 ->
      onData fuel r s buf
      = Some (mkResultData
                Returned r
                (onRxProtocolError 1002 "Failed to pullup frame buffer" s)
                buf))
  /\ (2 ^ 64 - 10 < load_be64 (skipn 2 buf) ->
      onData fuel r s buf = Some (mkResultData ThrewLengthError r s buf)).
Proof.
  intros Ht [Hl Hmax] Hr Hc Hm H7.
  unfold VECTOR_MAX_SIZE in Hmax.
  change (2 ^ 63 - 1) with 9223372036854775807 in Hmax.
  pose proof (load_be64_range (skipn 2 buf)) as Hp.
  change (2 ^ 64) with 18446744073709551616 in *.
  change (2 ^ 63) with 9223372036854775808 in *.
  assert (Hround :
    2 ^ 63 <= load_be64 (skipn 2 buf) ->
    onData_round fuel r s buf
    = let L := load_be64 (skipn 2 buf) in
      let need := to_size_t (10 + L) in
      if len buf <? need then Some (stop r s buf)
      else if need =? 0 then
        Some (stop r (onRxProtocolError 1002 "Failed to pullup frame buffer"
                                        s) buf)
      else Some (Stop (mkResultData ThrewLengthError r s buf))).
  { intros Hbig. change (2 ^ 63) with 9223372036854775808 in Hbig.
    unfold onData_round. rewrite Ht.
    rewrite (proj2 (Z.ltb_ge (len buf) 2)) by lia.
    rewrite hdr_fin_firstn, hdr_rsv1_firstn, hdr_rsv2_firstn,
      hdr_rsv3_firstn, hdr_opcode_firstn, hdr_mask_firstn, hdr_len7_firstn,
      load_be16_firstn, load_be64_firstn.
    fold (is_control (hdr_opcode buf)).
    rewrite Hr, Hc, Hm, H7. cbn [andb Z.eqb Pos.eqb].
    rewrite (proj2 (Z.ltb_ge (len buf) (2 + 8))) by lia.
    cbv zeta.
    assert (E : to_size_t (load_be64 (skipn 2 buf))
                = load_be64 (skipn 2 buf))
      by (unfold to_size_t, SIZE_BITS; apply Z.mod_small;
          change (2 ^ 64) with 18446744073709551616; lia).
    rewrite E. change (2 + 8) with 10.
    destruct (len buf <? to_size_t (10 + load_be64 (skipn 2 buf)));
      [reflexivity|].
    destruct (to_size_t (10 + load_be64 (skipn 2 buf)) =? 0);
      [reflexivity|].
    unfold VECTOR_MAX_SIZE. change (2 ^ 63 - 1) with 9223372036854775807.
    rewrite (proj2 (Z.ltb_lt 9223372036854775807 _)) by lia.
    reflexivity. }
  cbv zeta in Hround. unfold to_size_t, SIZE_BITS in Hround.
  change (2 ^ 64) with 18446744073709551616 in Hround.
  change (2 ^ 63) with 9223372036854775808 in *.
  split; [|split].
  - intros HL. apply onData_stop_unchanged. rewrite Hround by lia.
    rewrite Z.mod_small by lia.
    rewrite (proj2 (Z.ltb_lt (len buf) _)) by lia. reflexivity.
  - intros HL. apply onData_stops; [|lia]. rewrite Hround by lia.
    rewrite HL. cbn. rewrite (proj2 (Z.ltb_ge (len buf) 0)) by lia.
    reflexivity.
  - intros HL. apply onData_stops; [|lia]. rewrite Hround by lia.
    replace ((10 + load_be64 (skipn 2 buf)) mod 18446744073709551616)
      with (10 + load_be64 (skipn 2 buf) - 18446744073709551616)
      by (apply Z.mod_unique with (q := 1); lia).
    rewrite (proj2 (Z.ltb_ge (len buf) _)) by lia.
    rewrite (proj2 (Z.eqb_neq _ 0)) by lia. reflexivity.
Qed.

End OnDataLength.

(** ** The receive path and the transmit path keep apart *)

Section Apart.
Context {V : Type} {validator : Utf8Validator V}.
Context {zlib : Zlib}.
Context {Sink : Type} {sinks : IWebSocketSinks Sink}.

Local Abbreviation Receiver := (WebSocketReceiver V).

Lemma same_transmit_refl (r : Receiver) : same_transmit r r.
Proof. split; reflexivity. Qed.

Lemma same_transmit_trans (a b c : Receiver) :
  same_transmit a b -> same_transmit b c -> same_transmit a c.
Proof. intros [H1 H2] [H3 H4]. split; congruence. Qed.

Lemma rxMaybeReset_same_transmit (r : Receiver) :
  same_transmit r (rxMaybeResetAfterMessage r).
Proof.
  destruct (rxMaybeReset_result r) as (st & b & ->). tx_fields.
Qed.

Lemma rxInflate_same_transmit (fuel : nat) (r : Receiver)
      (input : list byte) ok out r1 :
  rxInflate fuel r input = Some (ok, out, r1) -> same_transmit r r1.
Proof.
  intros E. destruct (rxInflate_result fuel r input ok out r1 E) as (st & ->).
  tx_fields.
Qed.

Lemma handleDataFrame_same_transmit (fuel : nat) (r : Receiver) (s : Sink)
      (payload : list byte) (fin : bool) (opcode : Z) (rsv1 : bool)
      (r' : Receiver) (s' : Sink) :
  handleDataFrame fuel r s payload fin opcode rsv1 = Some (r', s') ->
  same_transmit r r'.
Proof.
  unfold handleDataFrame, decompressMessage.
  destruct (message_in_progress r);
    [intros H; inversion H; subst; apply same_transmit_refl|].
  destruct fin; cbn [negb].
  - destruct (rsv1 && rxCompressionEnabled s).
    + destruct (rxInflate fuel r payload) as [[[ok out] r1]|] eqn:E;
        [|discriminate].
      pose proof (rxInflate_same_transmit fuel r payload ok out r1 E) as T1.
      pose proof (rxMaybeReset_same_transmit r1) as T2.
      pose proof (same_transmit_trans _ _ _ T1 T2) as T3.
      destruct ok; cbn [negb];
        [|intros H; inversion H; subst; assumption].
      destruct (opcode =? 1).
      * destruct (validateChunk reset out) as [[|] v1];
          [destruct (validateFinal v1) as [[|] v2]|]; cbn [negb];
          intros H; inversion H; subst;
          revert T3; tx_fields.
      * destruct (opcode =? 2); intros H; inversion H; subst; assumption.
    + destruct (opcode =? 1).
      * destruct (validateChunk reset payload) as [[|] v1];
          [destruct (validateFinal v1) as [[|] v2]|]; cbn [negb];
          intros H; inversion H; subst; tx_fields.
      * destruct (opcode =? 2); intros H; inversion H; subst;
          apply same_transmit_refl.
  - destruct ((opcode =? 1)
              && negb (compressed_message_in_progress
                         (set_fragments r true
                            (rsv1 && rxCompressionEnabled s) opcode
                            payload))).
    + destruct (validateChunk reset payload) as [[|] v1]; cbn [negb];
        intros H; inversion H; subst; tx_fields.
    + intros H; inversion H; subst; tx_fields.
Qed.

Lemma handleContinuationFrame_same_transmit (fuel : nat) (r : Receiver)
      (s : Sink) (payload : list byte) (fin : bool)
      (r' : Receiver) (s' : Sink) :
  handleContinuationFrame fuel r s payload fin = Some (r', s') ->
  same_transmit r r'.
Proof.
  unfold handleContinuationFrame, decompressMessage.
  destruct (message_in_progress r); cbn [negb];
    [|intros H; inversion H; subst; apply same_transmit_refl].
  match goal with
  | |- context [if ?c then validateChunk ?v ?p else ?e] =>
    destruct (if c then validateChunk v p else e) as [[|] v1]
  end; cbn [fst snd negb];
    [|intros H; inversion H; subst; tx_fields].
  destruct fin; cbn [negb]; [|intros H; inversion H; subst; tx_fields].
  match goal with
  | |- context [if compressed_message_in_progress ?x then _ else _] =>
    destruct (compressed_message_in_progress x) eqn:Hc
  end.
  - match goal with
    | |- context [rxInflate fuel ?x ?i] =>
      destruct (rxInflate fuel x i) as [[[ok out] r1]|] eqn:E;
        [|discriminate];
        pose proof (rxInflate_same_transmit fuel x i ok out r1 E) as T1
    end.
    destruct ok; cbn [negb].
    + match goal with
      | |- context [rxMaybeResetAfterMessage ?x] =>
        pose proof (rxMaybeReset_same_transmit x) as T2;
          destruct (rxMaybeResetAfterMessage x) as [] eqn:E2
      end.
      revert T1 T2. tx_fields. intros [T1 T1'] [T2 T2'].
      repeat match goal with
             | |- context [if ?c then _ else _] => destruct c
             | |- context [validateChunk ?a ?b] =>
               destruct (validateChunk a b) as [[|] ?]
             | |- context [validateFinal ?a] =>
               destruct (validateFinal a) as [[|] ?]
             end; cbn [negb]; intros H; inversion H; subst;
        cbn; split; congruence.
    + intros H; inversion H; subst. revert T1. tx_fields.
  - cbn [set_validator set_fragmented_message set_fragments
         compressed_message_in_progress fragmented_opcode utf8Validator
         fragmented_message] in *.
    rewrite ?Hc.
    repeat match goal with
           | |- context [if ?c then _ else _] => destruct c
           | |- context [validateFinal ?a] =>
             destruct (validateFinal a) as [[|] ?]
           end; cbn [negb]; intros H; inversion H; subst; tx_fields.
Qed.

Lemma onData_round_result (fuel : nat) (r : Receiver) (s : Sink)
      (buf : list byte) :
  match onData_round fuel r s buf with
  | Some (NextFrame r' s' rest) =>
    same_transmit r r' /\ exists k, rest = skipn k buf
  | Some (Stop res) => receiver_after res = r /\ buffer_after res = buf
  | None => True
  end.
Proof.
  unfold onData_round, stop, handleCloseFrame, handlePingFrame.
  destruct (rxIsTerminating s); [split; reflexivity|].
  destruct (len buf <? 2); [split; reflexivity|].
  cbv zeta.
  repeat match goal with
         | |- context [if ?c then Some (Stop _) else _] =>
           destruct c; [split; reflexivity|]
         end.
  match goal with
  | |- context [match ?L with Some _ => _ | None => _ end] =>
    destruct L as [[h p]|]; [|split; reflexivity]
  end.
  repeat match goal with
         | |- context [if ?c then Some (Stop _) else _] =>
           destruct c; [split; reflexivity|]
         end.
  repeat match goal with
         | |- context [if ?c then _ else _] => destruct c
         | |- context [sanitize_close ?q] => destruct (sanitize_close q)
         end; cbn [option_map];
    repeat match goal with
           | |- context [handleContinuationFrame ?a ?b ?c ?d ?e] =>
             let E := fresh "E" in
             destruct (handleContinuationFrame a b c d e) as [[? ?]|] eqn:E;
               [apply handleContinuationFrame_same_transmit in E|]
           | |- context [handleDataFrame ?a ?b ?c ?d ?e ?f ?g] =>
             let E := fresh "E" in
             destruct (handleDataFrame a b c d e f g) as [[? ?]|] eqn:E;
               [apply handleDataFrame_same_transmit in E|]
           end; cbn [option_map]; try exact I;
      try (split; [|eexists; reflexivity]);
      try assumption; try apply same_transmit_refl;
      try (split; reflexivity).
Qed.

(** X4. Whatever bytes arrive, [onData] leaves the configuration and the
    transmit side of the receiver (the deflate stream, the transmit buffer
    and [tx_payload_len]) as they are, and what it leaves in the buffer is
    what the buffer held from some position on: it drains from the front
    and writes nothing. *)
Theorem onData_keeps_transmit_state (fuel : nat) (r : Receiver) (s : Sink)
        (buf : list byte) (res : onData_result) :
  onData fuel r s buf = Some res ->
  _cfg (receiver_after res) = _cfg r
  /\ transmit_state (receiver_after res) = transmit_state r
  /\ exists k, buffer_after res = skipn k buf.
Proof.
  unfold onData. generalize (length buf) as rounds.
  intros rounds. revert r s buf.
  induction rounds as [|rounds IH]; intros r s buf H; cbn [onData_loop] in H.
  - inversion H; subst. cbn. repeat split. exists 0%nat. reflexivity.
  - pose proof (onData_round_result fuel r s buf) as R.
    destruct (onData_round fuel r s buf) as [[r' s' rest|res']|];
      [|inversion H; subst|discriminate].
    + destruct R as ([Rc Rt] & k & ->).
      destruct (IH _ _ _ H) as (Ic & It & k' & Ik).
      split; [congruence|]. split; [congruence|].
      exists (k' + k)%nat. rewrite Ik. apply skipn_skipn.
    + destruct R as [-> ->]. repeat split. exists 0%nat. reflexivity.
Qed.

Lemma same_receive_refl (r : Receiver) : same_receive r r.
Proof. split; reflexivity. Qed.

Lemma same_receive_trans (a b c : Receiver) :
  same_receive a b -> same_receive b c -> same_receive a c.
Proof. intros [H1 H2] [H3 H4]. split; congruence. Qed.

Lemma txDeflate_attempt_same_receive (r : Receiver) (input : list byte)
      (k : Z) :
  match txDeflate_attempt r input k with
  | Retry r' => same_receive r r'
  | Return_ _ r' => same_receive r r'
  end.
Proof.
  unfold txDeflate_attempt, txReinitAfterNoContextTakeover, txResetDeflate,
    deflateInit2.
  cbv zeta.
  repeat match goal with
         | |- context [deflate ?a ?b] =>
           destruct (deflate a b) as [[? ?] ?]
         | |- context [if ?c then _ else _] => destruct c
         end; rx_fields.
Qed.

Lemma txDeflate_loop_same_receive (n : nat) :
  forall (r : Receiver) (input : list byte) (k : Z),
    same_receive r (snd (txDeflate_loop n r input k)).
Proof.
  induction n as [|n IH]; intros r input k; cbn [txDeflate_loop].
  - apply same_receive_refl.
  - pose proof (txDeflate_attempt_same_receive r input k) as A.
    destruct (txDeflate_attempt r input k) as [r'|ok r'].
    + eapply same_receive_trans; [exact A|apply IH].
    + exact A.
Qed.

(** X5. [txPrepare], and [txDeflate] inside it, leave the configuration and
    the receive side of the receiver as they are: the inflate stream, the
    message under assembly and the validator.  With the theorem on
    [onData] above, sending and receiving do not disturb each other's
    state. *)
Theorem txPrepare_keeps_receive_state (r : Receiver) (original : list byte)
        (request_compress : bool) :
  _cfg (snd (txPrepare r original request_compress)) = _cfg r
  /\ receive_state (snd (txPrepare r original request_compress))
     = receive_state r.
Proof.
  unfold txPrepare, txDeflate.
  pose proof (txDeflate_loop_same_receive 4 r original 0) as L.
  destruct (negb request_compress); [split; reflexivity|].
  destruct (negb (enabled (_cfg r))); [split; reflexivity|].
  destruct (negb (deflate_initialized r)); [split; reflexivity|].
  destruct (txDeflate_loop 4 r original 0) as [ok r'].
  destruct ok; exact L.
Qed.
End Apart.

(** ** Binary messages *)

Section Binary.
Context {V : Type} {validator : Utf8Validator V}.
Context {zlib : Zlib}.
Context {Sink : Type} {sinks : IWebSocketSinks Sink}.

Local Abbreviation Receiver := (WebSocketReceiver V).

(** A continuation frame without FIN of a message that is not validated
    chunk by chunk (binary, or compressed) only appends its payload. *)
Lemma handleContinuationFrame_appends (fuel : nat) (r : Receiver)
      (s : Sink) (c : list byte) :
  message_in_progress r = true ->
  negb (compressed_message_in_progress r) && (fragmented_opcode r =? 1)
  = false ->
  handleContinuationFrame fuel r s c false
  = Some (set_fragmented_message r (fragmented_message r ++ c), s).
Proof.
  intros Hm Hc. unfold handleContinuationFrame. rewrite Hm.
  cbn [negb set_fragmented_message set_fragments set_validator
       compressed_message_in_progress fragmented_opcode utf8Validator
       message_in_progress fragmented_message].
  rewrite Hc. cbn [negb andb fst snd]. destruct r; reflexivity.
Qed.

Lemma continuation_frames_append (fuel : nat) (s : Sink)
      (pre : list (list byte)) :
  forall r : Receiver,
    message_in_progress r = true ->
    negb (compressed_message_in_progress r) && (fragmented_opcode r =? 1)
    = false ->
    handle_frames fuel r s (continuation_frames false pre)
    = Some (set_fragmented_message r (fragmented_message r ++ concat pre),
            s).
Proof.
  induction pre as [|a pre IH]; intros r Hm Hc.
  - cbn. rewrite app_nil_r. destruct r; reflexivity.
  - replace (continuation_frames false (a :: pre))
      with (Continuation false a :: continuation_frames false pre)
      by (destruct pre; reflexivity).
    cbn [handle_frames handle_frame].
    rewrite handleContinuationFrame_appends by assumption.
    rewrite IH by assumption.
    cbn [concat]. rewrite app_assoc. destruct r; reflexivity.
Qed.

Lemma handleDataFrame_first_binary (fuel : nat) (r : Receiver) (s : Sink)
      (c : list byte) (rsv1 : bool) :
  message_in_progress r = false ->
  handleDataFrame fuel r s c false 2 rsv1
  = Some (set_fragments r true (rsv1 && rxCompressionEnabled s) 2 c, s).
Proof.
  intros Hm. unfold handleDataFrame. rewrite Hm. reflexivity.
Qed.

Lemma handleContinuationFrame_last_binary (fuel : nat) (r : Receiver)
      (s : Sink) (c : list byte) :
  message_in_progress r = true ->
  fragmented_opcode r = 2 ->
  if compressed_message_in_progress r then
    match rxInflate fuel r (fragmented_message r ++ c) with
    | Some (ok, out, r1) =>
      exists r',
        handleContinuationFrame fuel r s c true
        = Some (r', if ok then onRxBinary out s else decompression_failed s)
        /\ (ok = true ->
            utf8Validator r' = utf8Validator r
            /\ message_in_progress r' = false
            /\ compressed_message_in_progress r' = false
            /\ fragmented_opcode r' = 0 /\ fragmented_message r' = [])
    | None => handleContinuationFrame fuel r s c true = None
    end
  else
    exists r',
      handleContinuationFrame fuel r s c true
      = Some (r', onRxBinary (fragmented_message r ++ c) s)
      /\ utf8Validator r' = utf8Validator r
      /\ message_in_progress r' = false
      /\ compressed_message_in_progress r' = false
      /\ fragmented_opcode r' = 0 /\ fragmented_message r' = [].
Proof.
  intros Hm Ho. unfold handleContinuationFrame, decompressMessage.
  rewrite Hm.
  cbn [negb set_fragmented_message set_fragments set_validator
       compressed_message_in_progress fragmented_opcode utf8Validator
       message_in_progress fragmented_message].
  rewrite Ho. cbn [Z.eqb Pos.eqb]. rewrite andb_false_r.
  cbn [negb andb fst snd].
  destruct (compressed_message_in_progress r) eqn:Hc.
  - unfold set_fragmented_message.
    rewrite rxInflate_set_validator, rxInflate_set_fragments.
    destruct (rxInflate fuel r (fragmented_message r ++ c))
      as [[[ok out] r1]|] eqn:E; cbn [option_map]; [|reflexivity].
    destruct ok; cbn [negb];
      [|eexists; split; [reflexivity|discriminate]].
    destruct (rxInflate_result fuel r _ _ _ _ E) as (st & ->).
    match goal with
    | |- context [rxMaybeResetAfterMessage ?x] =>
      destruct (rxMaybeReset_result x) as (st' & b & ->)
    end.
    cbn [set_inflate set_fragmented_message set_fragments set_validator
         compressed_message_in_progress fragmented_opcode utf8Validator
         message_in_progress fragmented_message].
    rewrite Ho. cbn [Z.eqb Pos.eqb].
    eexists. split; [reflexivity|]. intros _. cbn. auto.
  - cbn [set_inflate set_fragmented_message set_fragments set_validator
         compressed_message_in_progress fragmented_opcode utf8Validator
         message_in_progress fragmented_message].
    rewrite Ho. cbn [Z.eqb Pos.eqb].
    eexists. split; [reflexivity|]. cbn. auto.
Qed.

(** X6. A binary message (leading opcode 2) in the frames that carry the
    chunks [pre ++ [c]], at a receiver with no message under assembly.
    Before FIN the chunks are only collected.  At FIN an uncompressed
    message is delivered by one [onRxBinary] with the chunks in order, a
    compressed one is inflated first and the output is delivered, or
    answered with 1007 when inflating fails.  The bytes are never
    validated as UTF-8 and the validator is left as it was; after a
    delivery no message is under assembly. *)
Theorem binary_message_delivery (fuel : nat) (r : Receiver) (s : Sink)
        (rsv1 : bool) (pre : list (list byte)) (c : list byte) :
  message_in_progress r = false ->
  (exists r',
      handle_frames fuel r s (message_frames 2 rsv1 false (pre ++ [c]))
      = Some (r', s)
      /\ fragmented_message r' = concat (pre ++ [c])
      /\ utf8Validator r' = utf8Validator r)
  /\ (rsv1 && rxCompressionEnabled s = false ->
      exists r',
        handle_frames fuel r s (message_frames 2 rsv1 true (pre ++ [c]))
        = Some (r', onRxBinary (concat (pre ++ [c])) s)
        /\ utf8Validator r' = utf8Validator r
        /\ message_in_progress r' = false)
  /\ (rsv1 && rxCompressionEnabled s = true ->
      match rxInflate fuel r (concat (pre ++ [c])) with
      | Some (ok, out, _) =>
        exists r',
          handle_frames fuel r s (message_frames 2 rsv1 true (pre ++ [c]))
          = Some (r', if ok then onRxBinary out s
                      else decompression_failed s)
          /\ (ok = true ->
              utf8Validator r' = utf8Validator r
              /\ message_in_progress r' = false)
      | None =>
        handle_frames fuel r s (message_frames 2 rsv1 true (pre ++ [c]))
        = None
      end).
Proof.
  intros Hm.
  destruct pre as [|a pre].
  - cbn [app message_frames concat]. rewrite app_nil_r.
    rewrite !handle_frames_one. cbn [handle_frame].
    split; [|split].
    + rewrite handleDataFrame_first_binary by assumption.
      eexists. split; [reflexivity|]. cbn. auto.
    + intros Hc. unfold handleDataFrame. rewrite Hm, Hc.
      cbn [negb Z.eqb Pos.eqb]. eexists. split; [reflexivity|]. auto.
    + intros Hc. unfold handleDataFrame, decompressMessage.
      rewrite Hm, Hc. cbn [negb].
      destruct (rxInflate fuel r c) as [[[ok out] r1]|] eqn:E;
        [|reflexivity].
      destruct ok; cbn [negb Z.eqb Pos.eqb];
        [|eexists; split; [reflexivity|discriminate]].
      destruct (rxInflate_result fuel r _ _ _ _ E) as (st & ->).
      match goal with
      | |- context [rxMaybeResetAfterMessage ?x] =>
        destruct (rxMaybeReset_result x) as (st' & b & ->)
      end.
      eexists. split; [reflexivity|]. intros _. cbn. auto.
  - cbn [app]. rewrite !message_frames_cons by (destruct pre; discriminate).
    cbn [handle_frames handle_frame].
    rewrite handleDataFrame_first_binary by assumption.
    set (r0 := set_fragments r true (rsv1 && rxCompressionEnabled s) 2 a).
    assert (H0 : negb (compressed_message_in_progress r0)
                 && (fragmented_opcode r0 =? 1) = false)
      by (cbn; apply andb_false_r).
    rewrite !continuation_frames_snoc, !handle_frames_app.
    rewrite (continuation_frames_append fuel s pre r0 eq_refl H0).
    set (rk := set_fragmented_message r0 (fragmented_message r0
                                          ++ concat pre)).
    rewrite !handle_frames_one. cbn [handle_frame].
    assert (Hfm : fragmented_message rk ++ c = concat ((a :: pre) ++ [c])).
    { cbn [app concat]. rewrite concat_snoc, app_assoc. reflexivity. }
    split; [|split].
    + rewrite handleContinuationFrame_appends by (assumption || reflexivity).
      eexists. split; [reflexivity|]. split; [|reflexivity].
      cbn. rewrite concat_snoc, app_assoc. reflexivity.
    + intros Hc.
      pose proof (handleContinuationFrame_last_binary fuel rk s c
                                                      eq_refl eq_refl) as H.
      change (compressed_message_in_progress rk)
        with (rsv1 && rxCompressionEnabled s) in H.
      rewrite Hc in H. rewrite Hfm in H.
      destruct H as (r' & E & Hv & Hmp & _).
      exists r'. split; [exact E|]. split; [exact Hv|exact Hmp].
    + intros Hc.
      pose proof (handleContinuationFrame_last_binary fuel rk s c
                                                      eq_refl eq_refl) as H.
      change (compressed_message_in_progress rk)
        with (rsv1 && rxCompressionEnabled s) in H.
      rewrite Hc in H. rewrite Hfm in H.
      change rk with (set_fragments r true (rsv1 && rxCompressionEnabled s)
                                    2 (a ++ concat pre)) in H at 1.
      rewrite rxInflate_set_fragments in H. cbn [app] in H.
      destruct (rxInflate fuel r (concat (a :: pre ++ [c])))
        as [[[ok out] r1]|]; cbn [option_map] in H; [|exact H].
      destruct H as (r' & E & Hd). exists r'. split; [exact E|].
      intros Hok. destruct (Hd Hok) as (Hv & Hmp & _). split; assumption.
Qed.

End Binary.

(** ** Compression set-up and tear-down *)

Section Lifecycle.
Context {V : Type} {validator : Utf8Validator V}.
Context {zlib : Zlib}.
Context {Sink : Type} {sinks : IWebSocketSinks Sink}.

Local Abbreviation Receiver := (WebSocketReceiver V).

Lemma shutdownCompression_off (r : Receiver) :
  inflate_initialized (shutdownCompression r) = false
  /\ deflate_initialized (shutdownCompression r) = false
  /\ _cfg (shutdownCompression r) = default_config
  /\ tx_compressed_buf (shutdownCompression r) = []
  /\ tx_payload_len (shutdownCompression r) = 0.
Proof.
  unfold shutdownCompression.
  destruct (inflate_initialized r) eqn:Hi;
    cbn [set_inflate deflate_initialized];
    destruct (deflate_initialized r) eqn:Hd; cbn; auto.
Qed.

(** X11. [shutdownCompression] turns compression off (neither stream is
    initialised, the configuration is the default one, the transmit buffer
    is empty), leaves the message under assembly and the validator alone,
    and a second call changes nothing. *)
Theorem shutdownCompression_idempotent (r : Receiver) :
  shutdownCompression (shutdownCompression r) = shutdownCompression r
  /\ inflate_initialized (shutdownCompression r) = false
  /\ deflate_initialized (shutdownCompression r) = false
  /\ _cfg (shutdownCompression r) = default_config
  /\ tx_compressed_buf (shutdownCompression r) = []
  /\ (message_in_progress (shutdownCompression r),
      compressed_message_in_progress (shutdownCompression r),
      fragmented_opcode (shutdownCompression r),
      fragmented_message (shutdownCompression r),
      utf8Validator (shutdownCompression r))
     = (message_in_progress r, compressed_message_in_progress r,
        fragmented_opcode r, fragmented_message r, utf8Validator r).
Proof.
  destruct (shutdownCompression_off r) as (Hi & Hd & Hc & Hb & Hl).
  split; [|split; [|split; [|split; [|split]]]]; try assumption.
  - unfold shutdownCompression at 1. rewrite Hi.
    cbn [deflate_initialized]. rewrite Hd.
    destruct (shutdownCompression r); cbn in *; subst. reflexivity.
  - unfold shutdownCompression.
    destruct (inflate_initialized r);
      cbn [set_inflate deflate_initialized];
      destruct (deflate_initialized r); reflexivity.
Qed.

(** The flag [initializeCompression] returns. *)
Lemma initializeCompression_result (r : Receiver)
      (cfg : PerMessageDeflateConfig) :
  fst (initializeCompression r cfg)
  = negb (enabled cfg)
    || ((inflateInit2_ret [- server_max_window_bits cfg] =? Z_OK)
        && (deflateInit2_ret (deflate_params cfg) =? Z_OK)).
Proof.
  unfold initializeCompression, rxInitInflate, txInitDeflate, inflateInit2,
    deflateInit2.
  cbn [_cfg set_cfg set_inflate set_deflate].
  destruct (enabled cfg); cbn [negb orb]; [|reflexivity].
  repeat match goal with
         | |- context [?a =? Z_OK] =>
           let E := fresh "E" in
           destruct (a =? Z_OK) eqn:E; cbv beta iota zeta; rewrite ?E;
           cbn [negb andb _cfg set_cfg set_inflate set_deflate]
         end; reflexivity.
Qed.

(** X12. [initializeCompression] returns true exactly when the configuration
    has compression disabled or both [inflateInit2] and [deflateInit2]
    answer [Z_OK].  When it returns false, or compression is disabled,
    neither stream is left initialised and the transmit buffer is empty;
    after a failure the configuration is back to the default one.  In that
    state [txPrepare] hands back the original payload uncompressed and
    [rxInflate] hands back its input. *)
Theorem initializeCompression_off (r : Receiver)
        (cfg : PerMessageDeflateConfig) :
  let ok := fst (initializeCompression r cfg) in
  let r' := snd (initializeCompression r cfg) in
  ok = negb (enabled cfg)
       || ((inflateInit2_ret [- server_max_window_bits cfg] =? Z_OK)
           && (deflateInit2_ret (deflate_params cfg) =? Z_OK))
  /\ (ok = false \/ enabled cfg = false ->
      inflate_initialized r' = false
      /\ deflate_initialized r' = false
      /\ tx_compressed_buf r' = []
      /\ _cfg r' = (if ok then cfg else default_config)
      /\ (forall original request_compress,
             txPrepare r' original request_compress
             = (mkPrepared true OriginalPayload (len original) false, r'))
      /\ (forall fuel input, rxInflate fuel r' input = Some (true, input, r'))).
Proof.
  cbv zeta. split; [apply initializeCompression_result|].
  intros H.
  assert (Hoff : inflate_initialized (snd (initializeCompression r cfg))
                 = false
                 /\ deflate_initialized (snd (initializeCompression r cfg))
                    = false
                 /\ tx_compressed_buf (snd (initializeCompression r cfg))
                    = []
                 /\ _cfg (snd (initializeCompression r cfg))
                    = if fst (initializeCompression r cfg) then cfg
                      else default_config).
  { revert H.
    unfold initializeCompression, rxInitInflate, txInitDeflate,
      inflateInit2, deflateInit2.
    cbn [_cfg set_cfg set_inflate set_deflate].
    destruct (shutdownCompression_off r) as (Hi & Hd & Hc & Hb & Hl).
    destruct (enabled cfg) eqn:He; cbn [negb].
    2:{ intros _. cbn [fst snd set_cfg inflate_initialized
                       deflate_initialized tx_compressed_buf _cfg].
        auto. }
    repeat match goal with
           | |- context [?a =? Z_OK] =>
             let E := fresh "E" in
             destruct (a =? Z_OK) eqn:E; cbv beta iota zeta; rewrite ?E;
             cbn [negb andb fst snd _cfg set_cfg set_inflate set_deflate
                  inflate_initialized deflate_initialized]
           end.
    - intros [H|H]; discriminate H.
    - intros _.
      match goal with
      | |- context [shutdownCompression ?x] =>
        destruct (shutdownCompression_off x) as (? & ? & ? & ? & ?)
      end. auto.
    - intros _.
      match goal with
      | |- context [shutdownCompression ?x] =>
        destruct (shutdownCompression_off x) as (? & ? & ? & ? & ?)
      end. auto. }
  destruct Hoff as (Hi & Hd & Hb & Hc).
  repeat (split; [assumption|]). split.
  - intros original request_compress. unfold txPrepare.
    destruct request_compress; cbn [negb]; [|reflexivity].
    destruct (enabled (_cfg (snd (initializeCompression r cfg))));
      cbn [negb]; [|reflexivity].
    rewrite Hd. reflexivity.
  - intros fuel input. unfold rxInflate. rewrite Hi.
    cbn [negb]. rewrite orb_true_r. reflexivity.
Qed.

End Lifecycle.

(** ** The inflate stream between messages *)

Section InflateContext.
Context {V : Type} {validator : Utf8Validator V}.
Context {zlib : Zlib}.
Context {Sink : Type} {sinks : IWebSocketSinks Sink}.

Local Abbreviation Receiver := (WebSocketReceiver V).

(** The loop sets [avail_out] before every call: what it was does not
    matter. *)
Lemma rxInflate_loop_avail_out (fuel : nat) (s : z_stream) (n : Z)
      (out : list byte) :
  rxInflate_loop fuel (set_avail_out s n) out = rxInflate_loop fuel s out.
Proof.
  destruct fuel as [|fuel]; [reflexivity|].
  cbn [rxInflate_loop].
  replace (set_avail_out (set_avail_out s n) TMP_SIZE)
    with (set_avail_out s TMP_SIZE) by reflexivity.
  reflexivity.
Qed.

(** X14. With [server_no_context_takeover], [rxInflate] resets the stream
    before it inflates: two receivers with the same configuration and the
    same inflate parameters give the same flag and the same output on a
    payload, whatever their streams have inflated before. *)
Theorem rxInflate_no_context_takeover (fuel : nat) (r1 r2 : Receiver)
        (input : list byte) :
  _cfg r1 = _cfg r2 ->
  server_no_context_takeover (_cfg r1) = true ->
  inflate_initialized r1 = inflate_initialized r2 ->
  zs_params (inflate_stream r1) = zs_params (inflate_stream r2) ->
  option_map fst (rxInflate fuel r1 input)
  = option_map fst (rxInflate fuel r2 input).
Proof.
  intros Hc Hn Hi Hp. unfold rxInflate. rewrite <- Hc, <- Hi.
  destruct (negb (enabled (_cfg r1)) || negb (inflate_initialized r1));
    [reflexivity|].
  assert (E : rxInflate_stream r2 input
              = set_avail_out (rxInflate_stream r1 input)
                              (avail_out (inflate_stream r2))).
  { unfold rxInflate_stream. rewrite <- Hc, Hn.
    unfold zReset, set_in, set_avail_out.
    cbn [zs_params zs_calls next_in avail_in avail_out].
    rewrite Hp. reflexivity. }
  rewrite E, rxInflate_loop_avail_out.
  destruct (rxInflate_loop fuel (rxInflate_stream r1 input) [])
    as [[[ok s'] out]|]; reflexivity.
Qed.

End InflateContext.

(** ** From the transmit path to the receive path *)

Section RoundTrip.
Context {V : Type} {validator : Utf8Validator V}.
Context {zlib : Zlib}.
Context {Sink : Type} {sinks : IWebSocketSinks Sink}.

Local Abbreviation Receiver := (WebSocketReceiver V).

(** X15. What [txDeflate] strips, [rxInflate] puts back: when [txDeflate]
    succeeds on a payload (one that fits zlib's 32-bit counters), the
    bytes [txPrepare] would frame, followed by the four bytes that a
    receiving [rxInflate] appends, are exactly the bytes the accepted
    [deflate] call wrote.  The peer's inflater is fed the sender's deflate
    output, byte for byte. *)
Theorem rxInflate_sees_deflate_output (r rx : Receiver)
        (input : list byte) :
  deflate_initialized r = true ->
  fits_uInt (zs_params (deflate_stream r)) input ->
  fst (txDeflate r input) = true ->
  exists j,
    0 <= j <= 3
    /\ sync_flush_step (zs_params (deflate_stream r)) input j
       = (Z_OK,
          next_in (rxInflate_stream
                     rx (compressed_bytes (snd (txDeflate r input))))).
Proof.
  intros Hinit Hfit Hok.
  pose proof (txDeflate_refines r input Hinit Hfit) as O.
  unfold txDeflate_outcome in O. cbv zeta in O.
  destruct (first_verdict 4 (zs_params (deflate_stream r)) input 0)
    as [payload| |]; try congruence.
  destruct O as (r4 & j & Hj & _ & Hstep & _ & _ & Hl & Hb & Hn & Ht).
  exists j. split; [assumption|]. rewrite Hstep. f_equal.
  assert (C4 : compressed_bytes r4 = payload)
    by (unfold compressed_bytes; rewrite Hl, to_nat_len; assumption).
  assert (C : compressed_bytes (snd (txDeflate r input)) = payload).
  { destruct (client_no_context_takeover (_cfg r)).
    - destruct (Z.eq_dec (deflateInit2_ret (deflate_params (_cfg r))) Z_OK)
        as [E|E].
      + rewrite (proj1 (Ht eq_refl) E). exact C4.
      + rewrite (proj2 (Ht eq_refl) E) in Hok. discriminate.
    - rewrite (Hn eq_refl). exact C4. }
  rewrite C. unfold rxInflate_stream. cbn [set_in next_in]. reflexivity.
Qed.

End RoundTrip.

(** ** WebSocketTLSContext *)

Section TLS.
Context {openssl : OpenSSL}.

Lemma is_live_filter (c x : nat) (l : list nat) (n : nat) (f : bool) :
  is_live x (mkWorld [] (filter (fun y => negb (Nat.eqb c y)) l) n f)
  = is_live x (mkWorld [] l n f) && negb (Nat.eqb c x).
Proof.
  unfold is_live. cbn [ssl_live].
  induction l as [|a l IH]; [reflexivity|].
  cbn [filter existsb].
  destruct (Nat.eqb_spec c a) as [->|Hca]; cbn [negb existsb].
  - rewrite IH. destruct (Nat.eqb_spec x a) as [->|Hxa].
    + rewrite Nat.eqb_refl. cbn. rewrite andb_false_r. reflexivity.
    + reflexivity.
  - rewrite IH. destruct (Nat.eqb_spec x a) as [->|Hxa]; [|reflexivity].
    cbn. destruct (Nat.eqb_spec c a); [contradiction|reflexivity].
Qed.

Lemma is_live_free (c x : nat) (w : ssl_world) :
  is_live x (SSL_CTX_free c w) = is_live x w && negb (Nat.eqb c x).
Proof.
  unfold SSL_CTX_free, is_live. cbn [ssl_live].
  exact (is_live_filter c x (ssl_live w) 0 false).
Qed.

Lemma append_nonempty (a : Ascii.ascii) (p e : string) :
  String.append (String a p) e <> EmptyString.
Proof. cbn. discriminate. Qed.

Lemma opensslLastErrorString_world (w : ssl_world) :
  ssl_fault (snd (opensslLastErrorString w)) = ssl_fault w
  /\ ssl_live (snd (opensslLastErrorString w)) = ssl_live w
  /\ ssl_next (snd (opensslLastErrorString w)) = ssl_next w
  /\ ssl_log (snd (opensslLastErrorString w))
     = ssl_log w ++ [Ev_ERR_get_error (ERR_get_error_ret (ssl_log w))].
Proof.
  unfold opensslLastErrorString, ERR_get_error.
  destruct (ERR_get_error_ret (ssl_log w) =? 0); cbn; auto.
Qed.

Lemma tls_init_fail_post (a : Ascii.ascii) (p : string) (ctx : nat)
      (t : WebSocketTLSContext) (w w0 : ssl_world) :
  is_live ctx w = true -> ssl_fault w = false ->
  ssl_next w = ssl_next w0 -> ssl_live w = ssl_live w0 ->
  init_tail_post ctx t w0 (tls_init_fail (String a p) ctx t w).
Proof.
  intros Hl Hf Hn Hlv. unfold tls_init_fail, init_tail_post.
  destruct (opensslLastErrorString_world w) as (F & L & N & _).
  destruct (opensslLastErrorString w) as [e w1]. cbn [snd] in *.
  unfold SSL_CTX_free. cbn [ssl_fault ssl_next ssl_live].
  assert (Hl1 : is_live ctx w1 = true)
    by (unfold is_live in *; rewrite L; assumption).
  rewrite F, Hf, Hl1, N, L, Hlv. cbn.
  repeat split; try assumption. discriminate.
Qed.

Lemma ssl_use_facts (ctx : nat) (ev : ssl_event) (w w0 : ssl_world) :
  is_live ctx w = true -> ssl_fault w = false ->
  ssl_next w = ssl_next w0 -> ssl_live w = ssl_live w0 ->
  is_live ctx (ssl_use ctx ev w) = true
  /\ ssl_fault (ssl_use ctx ev w) = false
  /\ ssl_next (ssl_use ctx ev w) = ssl_next w0
  /\ ssl_live (ssl_use ctx ev w) = ssl_live w0.
Proof.
  intros Hl Hf Hn Hlv. unfold ssl_use, is_live in *.
  cbn [ssl_live ssl_fault ssl_next]. rewrite Hl, Hf. auto.
Qed.

Lemma tls_init_success_post (ctx : nat) (t : WebSocketTLSContext)
      (w w0 : ssl_world) :
  is_live ctx w = true -> ssl_fault w = false ->
  ssl_next w = ssl_next w0 -> ssl_live w = ssl_live w0 ->
  init_tail_post ctx t w0 (true, EmptyString, mkTLSContext (Some ctx), w).
Proof. intros. unfold init_tail_post. auto. Qed.

Lemma tls_init_cert_post (opt : WebSocketTLSOptions) (ctx : nat)
      (t : WebSocketTLSContext) (w w0 : ssl_world) :
  is_live ctx w = true -> ssl_fault w = false ->
  ssl_next w = ssl_next w0 -> ssl_live w = ssl_live w0 ->
  init_tail_post ctx t w0 (tls_init_cert opt ctx t w).
Proof.
  intros Hl Hf Hn Hv. unfold tls_init_cert.
  destruct (hasCertAndKey opt);
    [|apply tls_init_success_post; assumption].
  unfold SSL_CTX_use_certificate_file. cbv zeta.
  generalize (SSL_CTX_use_certificate_file_ret (ssl_log w) ctx
                                               (certFile opt)) as r1.
  intros r1. ssl_step ssl_use_facts ctx w0.
  destruct (r1 =? 1); cbn [negb];
    [|apply tls_init_fail_post; assumption].
  unfold SSL_CTX_use_PrivateKey_file. cbv zeta.
  match goal with
  | |- context [SSL_CTX_use_PrivateKey_file_ret ?l ?c ?f] =>
    generalize (SSL_CTX_use_PrivateKey_file_ret l c f) as r2
  end.
  intros r2. ssl_step ssl_use_facts ctx w0.
  destruct (r2 =? 1); cbn [negb];
    [|apply tls_init_fail_post; assumption].
  unfold SSL_CTX_check_private_key. cbv zeta.
  match goal with
  | |- context [SSL_CTX_check_private_key_ret ?l ?c] =>
    generalize (SSL_CTX_check_private_key_ret l c) as r3
  end.
  intros r3. ssl_step ssl_use_facts ctx w0.
  destruct (r3 =? 1); cbn [negb];
    [apply tls_init_success_post|apply tls_init_fail_post]; assumption.
Qed.

Lemma tls_init_verify_post (opt : WebSocketTLSOptions) (ctx : nat)
      (t : WebSocketTLSContext) (w w0 : ssl_world) :
  is_live ctx w = true -> ssl_fault w = false ->
  ssl_next w = ssl_next w0 -> ssl_live w = ssl_live w0 ->
  init_tail_post ctx t w0 (tls_init_verify opt ctx t w).
Proof.
  intros Hl Hf Hn Hv. unfold tls_init_verify, SSL_CTX_set_verify.
  cbv zeta.
  destruct (isPeerVerifyDisabled opt).
  { ssl_step ssl_use_facts ctx w0. apply tls_init_cert_post; assumption. }
  destruct (isUsingSystemCA opt).
  { ssl_step ssl_use_facts ctx w0.
    unfold SSL_CTX_set_default_verify_paths. cbv zeta.
    match goal with
    | |- context [SSL_CTX_set_default_verify_paths_ret ?l ?c] =>
      generalize (SSL_CTX_set_default_verify_paths_ret l c) as r1
    end.
    intros r1. ssl_step ssl_use_facts ctx w0.
    destruct (r1 =? 1); cbn [negb];
      [apply tls_init_cert_post|apply tls_init_fail_post]; assumption. }
  destruct (isUsingCustomCA opt).
  { ssl_step ssl_use_facts ctx w0.
    unfold SSL_CTX_load_verify_locations. cbv zeta.
    match goal with
    | |- context [SSL_CTX_load_verify_locations_ret ?l ?c ?f] =>
      generalize (SSL_CTX_load_verify_locations_ret l c f) as r1
    end.
    intros r1. ssl_step ssl_use_facts ctx w0.
    destruct (r1 =? 1); cbn [negb];
      [apply tls_init_cert_post|apply tls_init_fail_post]; assumption. }
  ssl_step ssl_use_facts ctx w0. apply tls_init_cert_post; assumption.
Qed.

Lemma is_live_eq (x : nat) (w w' : ssl_world) :
  ssl_live w' = ssl_live w -> is_live x w' = is_live x w.
Proof. intros H. unfold is_live. rewrite H. reflexivity. Qed.

Lemma ctx_is (t : WebSocketTLSContext) (c : nat) :
  _ctx t = Some c -> t = mkTLSContext (Some c).
Proof. destruct t. cbn. intros ->. reflexivity. Qed.

(** [init] on the part after [reset], from a world where the object holds
    nothing. *)
Lemma tls_init_after_reset (opt : WebSocketTLSOptions) (w : ssl_world) :
  ssl_fault w = false ->
  (forall c, is_live c w = true -> (c < ssl_next w)%nat) ->
  let '(ok, err, t', w') := tls_init (mkTLSContext None) opt w in
  ssl_fault w' = false
  /\ (forall c, is_live c w' = true -> (c < ssl_next w')%nat)
  /\ (ok = true <-> err = EmptyString)
  /\ (if ok
      then _ctx t' = Some (ssl_next w)
           /\ forall c, is_live c w'
                        = Nat.eqb c (ssl_next w) || is_live c w
      else _ctx t' = None /\ forall c, is_live c w' = is_live c w).
Proof.
  intros Hf Hb. unfold tls_init, tls_reset. cbn [_ctx].
  unfold SSL_CTX_new.
  destruct (SSL_CTX_new_ok (ssl_log w)).
  2:{ match goal with
      | |- context [opensslLastErrorString ?x] =>
        destruct (opensslLastErrorString_world x) as (F & L & N & _);
          destruct (opensslLastErrorString x) as [e w3]
      end.
      cbn [snd ssl_fault ssl_live ssl_next] in *.
      split; [congruence|]. split.
      { intros c Hc. rewrite N. apply Hb.
        rewrite <- Hc. symmetry. apply is_live_eq. exact L. }
      split; [split; [discriminate|cbn; discriminate]|].
      split; [reflexivity|]. intros c. apply is_live_eq. exact L. }
  remember (ssl_next w) as n eqn:Hn0.
  set (w2 := mkWorld (ssl_log w ++ [Ev_SSL_CTX_new (Some n)])
                     (n :: ssl_live w) (S n) (ssl_fault w)).
  assert (Hl : is_live n w2 = true)
    by (unfold is_live; cbn; rewrite Nat.eqb_refl; reflexivity).
  assert (Hf2 : ssl_fault w2 = false) by exact Hf.
  assert (Hn : ssl_next w2 = ssl_next w2) by reflexivity.
  assert (Hv : ssl_live w2 = ssl_live w2) by reflexivity.
  assert (Post : forall res,
             init_tail_post n (mkTLSContext None) w2 res ->
             let '(ok, err, t', w') := res in
             ssl_fault w' = false
             /\ (forall c, is_live c w' = true -> (c < ssl_next w')%nat)
             /\ (ok = true <-> err = EmptyString)
             /\ (if ok
                 then _ctx t' = Some n
                      /\ forall c, is_live c w' = Nat.eqb c n || is_live c w
                 else _ctx t' = None
                      /\ forall c, is_live c w' = is_live c w)).
  { intros [[[ok err] t'] w']. unfold init_tail_post.
    intros (F & N & R). split; [exact F|].
    assert (Hlive2 : forall c, is_live c w2 = Nat.eqb c n || is_live c w)
      by (intros c; reflexivity).
    destruct ok.
    - destruct R as (-> & L & ->).
      assert (HL : forall c, is_live c w' = Nat.eqb c n || is_live c w)
        by (intros c; rewrite (is_live_eq c w2 w' L); apply Hlive2).
      split.
      { intros c Hc. rewrite N. cbn [ssl_next w2]. rewrite HL in Hc.
        destruct (Nat.eqb_spec c n) as [E|E]; [lia|].
        cbn in Hc. specialize (Hb c Hc). lia. }
      split; [split; reflexivity|]. split; [reflexivity|exact HL].
    - destruct R as (-> & L & E).
      assert (HL : forall c, is_live c w' = is_live c w).
      { intros c. unfold is_live at 1. rewrite L.
        pose proof (is_live_filter n c (ssl_live w2) 0 false) as P.
        unfold is_live in P. cbn [ssl_live] in P. rewrite P.
        fold (is_live c w2). rewrite Hlive2.
        destruct (Nat.eqb_spec c n) as [Hc|Hc].
        - rewrite Hc, Nat.eqb_refl. cbn.
          destruct (is_live n w) eqn:Hln; [|reflexivity].
          specialize (Hb n Hln). lia.
        - cbn. destruct (Nat.eqb_spec n c); [congruence|].
          cbn. apply andb_true_r. }
      split.
      { intros c Hc. rewrite N. cbn [ssl_next w2]. rewrite HL in Hc.
        specialize (Hb c Hc). lia. }
      split; [split; [discriminate|intros; contradiction]|].
      split; [reflexivity|exact HL]. }
  unfold SSL_CTX_set_options. cbv zeta.
  fold w2.
  ssl_step ssl_use_facts n w2.
  destruct (negb (String.eqb (if isUsingDefaultCiphers opt
                              then getDefaultCiphers opt else ciphers opt)
                             EmptyString)).
  - unfold SSL_CTX_set_cipher_list. cbv zeta.
    match goal with
    | |- context [SSL_CTX_set_cipher_list_ret ?l ?c ?f] =>
      generalize (SSL_CTX_set_cipher_list_ret l c f) as r1
    end.
    intros r1. ssl_step ssl_use_facts n w2.
    destruct (r1 =? 1); cbn [negb]; apply Post;
      [apply tls_init_verify_post|apply tls_init_fail_post]; assumption.
  - apply Post. apply tls_init_verify_post; assumption.
Qed.

Lemma tls_init_reset (t : WebSocketTLSContext) (opt : WebSocketTLSOptions)
      (w : ssl_world) :
  tls_init t opt w
  = tls_init (mkTLSContext None) opt (snd (tls_reset t w)).
Proof. destruct t as [[c|]]; reflexivity. Qed.

Lemma tls_reset_world (t : WebSocketTLSContext) (w : ssl_world) :
  ssl_fault w = false ->
  (forall c, _ctx t = Some c -> is_live c w = true) ->
  ssl_fault (snd (tls_reset t w)) = false
  /\ ssl_next (snd (tls_reset t w)) = ssl_next w
  /\ _ctx (fst (tls_reset t w)) = None
  /\ forall x, is_live x (snd (tls_reset t w))
               = is_live x w
                 && negb (match _ctx t with
                          | Some c => Nat.eqb c x
                          | None => false
                          end).
Proof.
  intros Hf Hl. unfold tls_reset.
  destruct (_ctx t) as [c|] eqn:E; cbn [fst snd].
  - split.
    { unfold SSL_CTX_free. cbn [ssl_fault].
      rewrite Hf, (Hl c eq_refl). reflexivity. }
    split; [reflexivity|]. split; [reflexivity|].
    intros x. apply is_live_free.
  - split; [assumption|]. split; [reflexivity|]. split; [assumption|].
    intros x. rewrite andb_true_r. reflexivity.
Qed.

(** X17. [init] on an object of a store in which contexts are owned
    properly.  It returns true exactly when it leaves [err] empty, and
    exactly then the object is initialised afterwards.  The context the
    object held before is freed in either case, so a failed [init] leaves
    the object without a context; the context made by a failed [init] is
    freed again; on success the object holds a context that was not live
    before.  No other object and no other context is touched, no call is
    made on a freed context, and contexts stay properly owned. *)
Theorem tls_init_outcome (st : tls_store) (this : nat)
        (opt : WebSocketTLSOptions) (w : ssl_world) :
  tls_owned st w ->
  let '(ok, err, st', w') := tls_init_at st this opt w in
  tls_owned st' w'
  /\ isInitialized (st' this) = ok
  /\ (ok = true <-> err = EmptyString)
  /\ (forall i, i <> this -> st' i = st i)
  /\ (forall c, _ctx (st' this) = Some c -> is_live c w = false)
  /\ (forall c, is_live c w' = true
                <-> _ctx (st' this) = Some c
                    \/ (is_live c w = true /\ _ctx (st this) <> Some c)).
Proof.
  intros (Hf & Ho & Hu & Hb). unfold tls_init_at.
  rewrite tls_init_reset.
  destruct (tls_reset_world (st this) w Hf (Ho this)) as (F1 & N1 & _ & L1).
  set (w1 := snd (tls_reset (st this) w)) in *.
  assert (B1 : forall c, is_live c w1 = true -> (c < ssl_next w1)%nat).
  { intros c Hc. rewrite N1. apply Hb. rewrite L1 in Hc.
    apply andb_true_iff in Hc. tauto. }
  pose proof (tls_init_after_reset opt w1 F1 B1) as P.
  destruct (tls_init (mkTLSContext None) opt w1) as [[[ok err] t'] w'].
  destruct P as (F' & B' & E' & R).
  assert (Hset : forall i, i <> this -> store_set st this t' i = st i).
  { intros i Hi. unfold store_set.
    destruct (Nat.eqb_spec i this); [contradiction|reflexivity]. }
  assert (Hthis : store_set st this t' this = t')
    by (unfold store_set; rewrite Nat.eqb_refl; reflexivity).
  assert (Hothers : forall i c, i <> this -> _ctx (st i) = Some c ->
                                is_live c w1 = true /\ (c < ssl_next w)%nat).
  { intros i c Hi Hc. pose proof (Ho i c Hc) as Hlive.
    split; [|apply Hb; assumption].
    rewrite L1, Hlive. cbn [andb].
    destruct (_ctx (st this)) as [o|] eqn:Eo; [|reflexivity].
    destruct (Nat.eqb_spec o c) as [->|]; [|reflexivity].
    exfalso. apply Hi. apply (Hu i this c); assumption. }
  rewrite Hthis.
  assert (Hlive' : forall c, is_live c w' = true
                             <-> _ctx t' = Some c
                                 \/ (is_live c w = true
                                     /\ _ctx (st this) <> Some c)).
  { intros c. destruct ok.
    - destruct R as (Ec & HL). rewrite HL, Ec, L1.
      destruct (Nat.eqb_spec c (ssl_next w1)) as [->|Hc]; cbn [orb].
      + split; [auto|reflexivity].
      + split.
        * intros H. apply andb_true_iff in H. destruct H as [H1 H2].
          right. split; [assumption|].
          destruct (_ctx (st this)) as [o|]; [|discriminate].
          intros Eo. inversion Eo; subst.
          rewrite Nat.eqb_refl in H2. discriminate.
        * intros [H|[H1 H2]]; [inversion H; congruence|].
          rewrite H1. cbn [andb].
          destruct (_ctx (st this)) as [o|]; [|reflexivity].
          destruct (Nat.eqb_spec o c); [congruence|reflexivity].
    - destruct R as (Ec & HL). rewrite HL, Ec, L1. split.
      + intros H. apply andb_true_iff in H. destruct H as [H1 H2].
        right. split; [assumption|].
        destruct (_ctx (st this)) as [o|]; [|discriminate].
        intros Eo. inversion Eo; subst.
        rewrite Nat.eqb_refl in H2. discriminate.
      + intros [H|[H1 H2]]; [discriminate|].
        rewrite H1. cbn [andb].
        destruct (_ctx (st this)) as [o|]; [|reflexivity].
        destruct (Nat.eqb_spec o c); [congruence|reflexivity]. }
  assert (Hnew : forall c, _ctx t' = Some c -> c = ssl_next w).
  { intros c Hc. destruct ok; destruct R as (Ec & _); congruence. }
  split; [|split; [|split; [|split; [|split]]]].
  - split; [exact F'|]. split; [|split; [|exact B']].
    + intros i c. destruct (Nat.eq_dec i this) as [->|Hi].
      * rewrite Hthis. intros Hc. apply Hlive'. auto.
      * rewrite (Hset i Hi). intros Hc.
        destruct (Hothers i c Hi Hc) as [H1 _].
        apply Hlive'. right. split; [apply Ho with i; assumption|].
        intros Eo. apply Hi. apply (Hu i this c); assumption.
    + intros i j c.
      destruct (Nat.eq_dec i this) as [->|Hi];
        destruct (Nat.eq_dec j this) as [->|Hj];
        rewrite ?Hthis, ?(Hset i), ?(Hset j) by assumption; try reflexivity.
      * intros H1 H2. apply Hnew in H1. subst c.
        destruct (Hothers j _ Hj H2). lia.
      * intros H1 H2. apply Hnew in H2. subst c.
        destruct (Hothers i _ Hi H1). lia.
      * apply Hu.
  - unfold isInitialized. destruct ok; destruct R as (Ec & _); rewrite Ec;
      reflexivity.
  - exact E'.
  - exact Hset.
  - intros c Hc. apply Hnew in Hc. subst c.
    destruct (is_live (ssl_next w) w) eqn:El; [|reflexivity].
    specialize (Hb _ El). lia.
  - exact Hlive'.
Qed.

Lemma tls_init_fail_false (prefix : string) (ctx : nat)
      (t : WebSocketTLSContext) (w : ssl_world) :
  fst (fst (fst (tls_init_fail prefix ctx t w))) = false.
Proof.
  unfold tls_init_fail. destruct (opensslLastErrorString w). reflexivity.
Qed.

Lemma tls_init_cert_calls (opt : WebSocketTLSOptions) (ctx : nat)
      (t : WebSocketTLSContext) (w : ssl_world) :
  let '(ok, _, t', w') := tls_init_cert opt ctx t w in
  ok = true ->
  t' = mkTLSContext (Some ctx)
  /\ ssl_log w' = ssl_log w ++ tls_cert_calls opt ctx.
Proof.
  unfold tls_init_cert, tls_cert_calls.
  destruct (hasCertAndKey opt);
    [|intros _; rewrite app_nil_r; split; reflexivity].
  unfold SSL_CTX_use_certificate_file, SSL_CTX_use_PrivateKey_file,
    SSL_CTX_check_private_key, ssl_use. cbv zeta. cbn [ssl_log].
  repeat match goal with
         | |- context [(?r =? 1)] =>
           destruct (Z.eqb_spec r 1) as [->|]; cbn [negb];
             [|ok_or_fail tls_init_fail_false]
         end.
  intros _. split; [reflexivity|].
  cbn [ssl_log]. rewrite <- !app_assoc. reflexivity.
Qed.

Lemma tls_init_verify_calls (opt : WebSocketTLSOptions) (ctx : nat)
      (t : WebSocketTLSContext) (w : ssl_world) :
  let '(ok, _, t', w') := tls_init_verify opt ctx t w in
  ok = true ->
  t' = mkTLSContext (Some ctx)
  /\ ssl_log w'
     = ssl_log w ++ tls_verify_calls opt ctx ++ tls_cert_calls opt ctx.
Proof.
  unfold tls_init_verify, tls_verify_calls.
  unfold SSL_CTX_set_verify, SSL_CTX_set_default_verify_paths,
    SSL_CTX_load_verify_locations. cbv zeta.
  assert (Hcert : forall w1 pre,
             ssl_log w1 = ssl_log w ++ pre ->
             let '(ok, _, t', w') := tls_init_cert opt ctx t w1 in
             ok = true ->
             t' = mkTLSContext (Some ctx)
             /\ ssl_log w' = ssl_log w ++ pre ++ tls_cert_calls opt ctx).
  { intros w1 pre E. pose proof (tls_init_cert_calls opt ctx t w1) as C.
    destruct (tls_init_cert opt ctx t w1) as [[[ok e] t'] w'].
    intros Hok. destruct (C Hok) as [-> L]. split; [reflexivity|].
    rewrite L, E, <- app_assoc. reflexivity. }
  destruct (isPeerVerifyDisabled opt).
  { apply Hcert. reflexivity. }
  destruct (isUsingSystemCA opt).
  { match goal with
    | |- context [(?r =? 1)] =>
      destruct (Z.eqb_spec r 1) as [->|]; cbn [negb];
        [|ok_or_fail tls_init_fail_false]
    end.
    apply Hcert. unfold ssl_use. cbn [ssl_log].
    rewrite <- app_assoc. reflexivity. }
  destruct (isUsingCustomCA opt).
  { match goal with
    | |- context [(?r =? 1)] =>
      destruct (Z.eqb_spec r 1) as [->|]; cbn [negb];
        [|ok_or_fail tls_init_fail_false]
    end.
    apply Hcert. unfold ssl_use. cbn [ssl_log].
    rewrite <- app_assoc. reflexivity. }
  apply Hcert. reflexivity.
Qed.

(** X18. The calls of a successful [init].  When [init] returns true it has
    made, after freeing the context the object held, exactly these calls
    on the new context and each one that can fail answered 1:
    [SSL_CTX_new]; [SSL_CTX_set_options] with SSLv2 and SSLv3 turned off;
    [SSL_CTX_set_cipher_list] unless the cipher string is empty;
    [SSL_CTX_set_verify] with [SSL_VERIFY_PEER] unless the options disable
    peer verification; the system or the custom CA when the options ask
    for one; and certificate, key and key check when the options hold a
    client certificate. *)
Theorem tls_init_success_trace (t : WebSocketTLSContext)
        (opt : WebSocketTLSOptions) (w : ssl_world) :
  let '(ok, _, t', w') := tls_init t opt w in
  ok = true ->
  exists c,
    _ctx t' = Some c
    /\ ssl_log w'
       = ssl_log (snd (tls_reset t w)) ++ tls_init_success_calls opt c.
Proof.
  rewrite tls_init_reset.
  generalize (snd (tls_reset t w)) as w1. intros w1.
  unfold tls_init, tls_reset. cbn [_ctx]. unfold SSL_CTX_new.
  destruct (SSL_CTX_new_ok (ssl_log w1)).
  2:{ destruct (opensslLastErrorString _). intros; discriminate. }
  unfold SSL_CTX_set_options, SSL_CTX_set_cipher_list. cbv zeta.
  unfold tls_init_success_calls. fold (tls_cipher_string opt).
  assert (Hver : forall w2 pre,
             ssl_log w2 = ssl_log w1 ++ pre ->
             let '(ok, _, t', w') :=
               tls_init_verify opt (ssl_next w1) (mkTLSContext None) w2 in
             ok = true ->
             exists c,
               _ctx t' = Some c
               /\ ssl_log w'
                  = ssl_log w1 ++ pre
                    ++ tls_verify_calls opt (ssl_next w1)
                    ++ tls_cert_calls opt (ssl_next w1)
               /\ c = ssl_next w1).
  { intros w2 pre E.
    pose proof (tls_init_verify_calls opt (ssl_next w1)
                                      (mkTLSContext None) w2) as C.
    destruct (tls_init_verify opt (ssl_next w1) (mkTLSContext None) w2)
      as [[[ok e] t'] w'].
    intros Hok. destruct (C Hok) as [-> L]. eexists.
    split; [reflexivity|]. split; [|reflexivity].
    rewrite L, E, <- app_assoc. reflexivity. }
  destruct (String.eqb (tls_cipher_string opt) EmptyString); cbn [negb].
  - match goal with
    | |- context [tls_init_verify _ _ _ ?w2] =>
      pose proof (Hver w2 [Ev_SSL_CTX_new (Some (ssl_next w1));
                           Ev_SSL_CTX_set_options
                             (ssl_next w1)
                             (Z.lor SSL_OP_NO_SSLv2 SSL_OP_NO_SSLv3)]) as P;
        destruct (tls_init_verify opt (ssl_next w1) (mkTLSContext None) w2)
        as [[[ok e] t'] w']
    end.
    intros Hok.
    destruct (P ltac:(unfold ssl_use; cbn [ssl_log];
                      rewrite <- app_assoc; reflexivity) Hok)
      as (c & Hc & L & ->).
    exists (ssl_next w1). split; [assumption|]. rewrite L. reflexivity.
  - match goal with
    | |- context [(?r =? 1)] =>
      destruct (Z.eqb_spec r 1) as [->|]; cbn [negb];
        [|ok_or_fail tls_init_fail_false]
    end.
    match goal with
    | |- context [tls_init_verify _ _ _ ?w2] =>
      pose proof (Hver w2 [Ev_SSL_CTX_new (Some (ssl_next w1));
                           Ev_SSL_CTX_set_options
                             (ssl_next w1)
                             (Z.lor SSL_OP_NO_SSLv2 SSL_OP_NO_SSLv3);
                           Ev_SSL_CTX_set_cipher_list
                             (ssl_next w1) (tls_cipher_string opt) 1]) as P;
        destruct (tls_init_verify opt (ssl_next w1) (mkTLSContext None) w2)
        as [[[ok e] t'] w']
    end.
    intros Hok.
    destruct (P ltac:(unfold ssl_use; cbn [ssl_log];
                      rewrite <- !app_assoc; reflexivity) Hok)
      as (c & Hc & L & ->).
    exists (ssl_next w1). split; [assumption|]. rewrite L. reflexivity.
Qed.

(** X19. [createSsl].  On an object without a context it returns null with
    the message that says so and calls nothing.  On an object that holds a
    context it makes one [SSL_new] call on that context: it returns the
    new object with [err] empty, or null with a message when [SSL_new]
    fails.  It never changes which contexts are live. *)
Theorem createSsl_outcome (t : WebSocketTLSContext) (w : ssl_world) :
  let '(ssl, err, w') := createSsl t w in
  (_ctx t = None ->
   ssl = None
   /\ err = "TLS context not initialized (SSL_CTX is null)"%string
   /\ w' = w)
  /\ (forall c, _ctx t = Some c ->
                exists ret more,
                  ssl_log w' = ssl_log w ++ Ev_SSL_new c ret :: more
                  /\ ssl = ret
                  /\ (forall ev, In ev more -> event_ctx ev = None)
                  /\ (ssl_fault w' = ssl_fault w || negb (is_live c w)))
  /\ (ssl <> None <-> err = EmptyString)
  /\ ssl_live w' = ssl_live w.
Proof.
  unfold createSsl.
  destruct (_ctx t) as [c|].
  - unfold SSL_new. cbv zeta.
    destruct (SSL_new_ok (ssl_log w) c).
    + split; [discriminate|]. split.
      { intros c' E. inversion E; subst. exists (Some (ssl_next w)), [].
        cbn. repeat split; try reflexivity. intros ev []. }
      split; [split; [reflexivity|discriminate]|reflexivity].
    + match goal with
      | |- context [opensslLastErrorString ?x] =>
        destruct (opensslLastErrorString_world x) as (F & L & N & G);
          destruct (opensslLastErrorString x) as [e w2]
      end.
      cbn [snd ssl_log ssl_fault ssl_live] in *.
      split; [discriminate|]. split.
      { intros c' E. inversion E; subst. eexists None, _.
        split; [rewrite G, <- app_assoc; reflexivity|].
        split; [reflexivity|]. split; [|exact F].
        intros ev [<-|[]]. reflexivity. }
      split; [|exact L].
      split; [intros H; contradiction|cbn; discriminate].
  - split; [auto|]. split; [discriminate|].
    split; [|reflexivity]. split; [intros H; contradiction|discriminate].
Qed.

Lemma store_set_same (st : tls_store) (i : nat) (t : WebSocketTLSContext) :
  store_set st i t i = t.
Proof. unfold store_set. rewrite Nat.eqb_refl. reflexivity. Qed.

Lemma store_set_other (st : tls_store) (i k : nat)
      (t : WebSocketTLSContext) :
  k <> i -> store_set st i t k = st k.
Proof.
  intros H. unfold store_set.
  destruct (Nat.eqb_spec k i); [contradiction|reflexivity].
Qed.

(** X20. Moving and destroying objects keeps contexts properly owned.  The
    destructor frees the context of its object and no other.  Move
    assignment from another object frees the context the target held,
    hands it the context of the source and leaves the source empty;
    assigning an object to itself changes nothing.  Move construction
    hands the context over without any call.  In each case no call is made
    on a freed context and no context ends up with two owners, so no
    context is freed twice. *)
Theorem tls_move_keeps_ownership (st : tls_store) (this other : nat)
        (w : ssl_world) :
  tls_owned st w ->
  (tls_owned (fst (tls_destroy st this w)) (snd (tls_destroy st this w))
   /\ _ctx (fst (tls_destroy st this w) this) = None
   /\ forall c, is_live c (snd (tls_destroy st this w)) = true
                <-> is_live c w = true /\ _ctx (st this) <> Some c)
  /\ (tls_owned (fst (tls_move_assign st this other w))
                (snd (tls_move_assign st this other w))
      /\ (this = other -> tls_move_assign st this other w = (st, w))
      /\ (this <> other ->
          _ctx (fst (tls_move_assign st this other w) this)
          = _ctx (st other)
          /\ _ctx (fst (tls_move_assign st this other w) other) = None
          /\ forall c, is_live c (snd (tls_move_assign st this other w))
                       = true
                       <-> is_live c w = true /\ _ctx (st this) <> Some c))
  /\ (this <> other -> _ctx (st this) = None ->
      tls_owned (tls_move_construct st this other) w
      /\ _ctx (tls_move_construct st this other this) = _ctx (st other)
      /\ _ctx (tls_move_construct st this other other) = None).
Proof.
  intros (Hf & Ho & Hu & Hb).
  destruct (tls_reset_world (st this) w Hf (Ho this)) as (F1 & N1 & C1 & L1).
  assert (Hlive1 : forall c, is_live c (snd (tls_reset (st this) w)) = true
                             <-> is_live c w = true
                                 /\ _ctx (st this) <> Some c).
  { intros c. rewrite L1. split.
    - intros H. apply andb_true_iff in H. destruct H as [H1 H2].
      split; [assumption|]. intros E. rewrite E, Nat.eqb_refl in H2.
      discriminate.
    - intros [H1 H2]. rewrite H1. cbn [andb].
      destruct (_ctx (st this)) as [o|]; [|reflexivity].
      destruct (Nat.eqb_spec o c); [congruence|reflexivity]. }
  assert (Hb1 : forall c, is_live c (snd (tls_reset (st this) w)) = true ->
                          (c < ssl_next (snd (tls_reset (st this) w)))%nat).
  { intros c Hc. rewrite N1. apply Hb. apply Hlive1 in Hc. tauto. }
  assert (Hkeep : forall i c, i <> this -> _ctx (st i) = Some c ->
                              is_live c (snd (tls_reset (st this) w)) = true).
  { intros i c Hi Hc. apply Hlive1. split; [apply Ho with i; assumption|].
    intros E. apply Hi. apply (Hu i this c); assumption. }
  split; [|split].
  - unfold tls_destroy.
    destruct (tls_reset (st this) w) as [t1 w1] eqn:E. cbn [fst snd] in *.
    split; [|split; [rewrite store_set_same; exact C1|exact Hlive1]].
    split; [exact F1|]. split; [|split; [|exact Hb1]].
    + intros i c. destruct (Nat.eq_dec i this) as [->|Hi].
      * rewrite store_set_same, C1. discriminate.
      * rewrite store_set_other by assumption. apply Hkeep. assumption.
    + intros i j c.
      destruct (Nat.eq_dec i this) as [->|Hi];
        [rewrite store_set_same, C1; discriminate|].
      destruct (Nat.eq_dec j this) as [->|Hj];
        [rewrite (store_set_same st this), C1; discriminate|].
      rewrite !store_set_other by assumption. apply Hu.
  - unfold tls_move_assign.
    destruct (Nat.eqb_spec this other) as [->|Hne]; cbn [negb].
    { split; [repeat split; assumption|].
      split; [reflexivity|]. intros H. contradiction. }
    destruct (tls_reset (st this) w) as [t1 w1] eqn:E. cbn [fst snd] in *.
    assert (Hother : _ctx (store_set st this t1 other) = _ctx (st other))
      by (rewrite store_set_other by congruence; reflexivity).
    split; [|split; [intros H; contradiction|]].
    + split; [exact F1|]. split; [|split; [|exact Hb1]].
      * intros i c. destruct (Nat.eq_dec i other) as [->|Hio].
        { rewrite store_set_same. discriminate. }
        rewrite store_set_other by assumption.
        destruct (Nat.eq_dec i this) as [->|Hit].
        { rewrite store_set_same. cbn [_ctx]. rewrite Hother.
          apply Hkeep. congruence. }
        rewrite !store_set_other by assumption. apply Hkeep. assumption.
      * intros i j c.
        destruct (Nat.eq_dec i other) as [->|Hio];
          [rewrite store_set_same; discriminate|].
        destruct (Nat.eq_dec j other) as [->|Hjo];
          [rewrite (store_set_same _ other); discriminate|].
        rewrite (store_set_other _ other i), (store_set_other _ other j)
          by assumption.
        destruct (Nat.eq_dec i this) as [->|Hit];
          destruct (Nat.eq_dec j this) as [->|Hjt];
          repeat match goal with
                 | |- context [store_set ?s ?a ?t ?a] =>
                   rewrite (store_set_same s a t)
                 | H : ?k <> ?a |- context [store_set ?s ?a ?t ?k] =>
                   rewrite (store_set_other s a k t H)
                 end;
          cbn [_ctx]; rewrite ?Hother; try reflexivity.
        { intros H1 H2. exfalso. apply Hjo. apply (Hu j other c); assumption. }
        { intros H1 H2. exfalso. apply Hio. apply (Hu i other c); assumption. }
        { apply Hu. }
    + intros _. rewrite store_set_same.
      rewrite store_set_other by assumption.
      rewrite store_set_same. cbn [_ctx]. rewrite Hother.
      split; [reflexivity|]. split; [reflexivity|exact Hlive1].
  - intros Hne Hnone. unfold tls_move_construct.
    rewrite store_set_same, store_set_other by assumption.
    rewrite store_set_same. cbn [_ctx].
    split; [|split; reflexivity].
    split; [exact Hf|]. split; [|split; [|exact Hb]].
    + intros i c. destruct (Nat.eq_dec i other) as [->|Hio].
      { rewrite store_set_same. discriminate. }
      rewrite store_set_other by assumption.
      destruct (Nat.eq_dec i this) as [->|Hit].
      { rewrite store_set_same. cbn [_ctx]. apply Ho. }
      rewrite store_set_other by assumption. apply Ho.
    + intros i j c.
      destruct (Nat.eq_dec i other) as [->|Hio];
        [rewrite store_set_same; discriminate|].
      destruct (Nat.eq_dec j other) as [->|Hjo];
        [rewrite (store_set_same _ other); discriminate|].
      rewrite (store_set_other _ other i), (store_set_other _ other j)
        by assumption.
      destruct (Nat.eq_dec i this) as [->|Hit];
        destruct (Nat.eq_dec j this) as [->|Hjt];
          repeat match goal with
                 | |- context [store_set ?s ?a ?t ?a] =>
                   rewrite (store_set_same s a t)
                 | H : ?k <> ?a |- context [store_set ?s ?a ?t ?k] =>
                   rewrite (store_set_other s a k t H)
                 end;
        cbn [_ctx]; try reflexivity.
      { intros H1 H2. exfalso. apply Hjo. apply (Hu j other c); assumption. }
      { intros H1 H2. exfalso. apply Hio. apply (Hu i other c); assumption. }
      { apply Hu. }
Qed.
End TLS.

(** ** A compressed frame at a receiver without inflater *)

Section NoInflater.
Context {V : Type} {validator : Utf8Validator V}.
Context {zlib : Zlib}.
Context {Sink : Type} {sinks : IWebSocketSinks Sink}.

Local Abbreviation Receiver := (WebSocketReceiver V).

(** X16. [rxResetInflate] ends the inflate stream and initialises it anew;
    when [inflateInit2] then fails the receiver is left without inflater
    and nothing reports it.  A receiver without inflater (or with
    compression disabled in its configuration) does not refuse a frame
    with RSV1 that the sink lets through: [rxInflate] hands the payload
    back as it is, and a binary message is delivered with the compressed
    bytes as its content. *)
Theorem compressed_frame_without_inflater (fuel : nat) (r : Receiver)
        (s : Sink) (c : list byte) (rsv1 : bool) :
  (inflate_initialized r = true ->
   inflate_initialized (rxResetInflate r)
   = (inflateInit2_ret [- server_max_window_bits (_cfg r)] =? Z_OK)
   /\ (inflate_initialized (rxResetInflate r) = true ->
       zs_calls (inflate_stream (rxResetInflate r)) = []
       /\ zs_params (inflate_stream (rxResetInflate r))
          = [- server_max_window_bits (_cfg r)]))
  /\ (message_in_progress r = false ->
      rsv1 && rxCompressionEnabled s = true ->
      enabled (_cfg r) = false \/ inflate_initialized r = false ->
      exists r',
        handleDataFrame fuel r s c true 2 rsv1 = Some (r', onRxBinary c s)
        /\ inflate_initialized r' = inflate_initialized r).
Proof.
  split.
  - intros Hi. unfold rxResetInflate, rxInitInflate, inflateInit2.
    rewrite Hi. cbn [negb _cfg set_inflate].
    destruct (Z.eqb_spec (inflateInit2_ret
                            [- server_max_window_bits (_cfg r)]) Z_OK)
      as [E|E]; cbv beta iota zeta.
    + rewrite (proj2 (Z.eqb_eq _ _) E). cbn. auto.
    + rewrite (proj2 (Z.eqb_neq _ _) E). cbn.
      split; [reflexivity|discriminate].
  - intros Hm Hc Hoff. unfold handleDataFrame, decompressMessage, rxInflate.
    rewrite Hm, Hc. cbn [negb].
    assert (E : negb (enabled (_cfg r)) || negb (inflate_initialized r)
                = true)
      by (destruct Hoff as [-> | ->]; [reflexivity|apply orb_true_r]).
    rewrite E. cbn [negb Z.eqb Pos.eqb].
    eexists. split; [reflexivity|].
    unfold rxMaybeResetAfterMessage, rxResetInflate.
    destruct Hoff as [H|H]; rewrite H; cbn [andb negb];
      [reflexivity|].
    destruct (enabled (_cfg r) && server_no_context_takeover (_cfg r));
      rewrite ?H; reflexivity.
Qed.

End NoInflater.

(** ** The further properties on concrete inputs *)

Lemma isValidUtf8_reads_len_bytes_witness :
  isValidUtf8 [xc3] 1 = isValidUtf8 [xc3; xa9] 1.
Proof.
  apply (isValidUtf8_reads_len_bytes [xc3] [xc3; xa9] 1).
  - simpl. lia.
  - simpl. lia.
  - reflexivity.
Defined.

Lemma isValidUtf8_after_valid_witness :
  isValidUtf8 (hello ++ [xc3; xa9]) (length (hello ++ [xc3; xa9]))
  = isValidUtf8 [xc3; xa9] (length [xc3; xa9]).
Proof.
  apply (isValidUtf8_after_valid hello [xc3; xa9]). reflexivity.
Defined.

Lemma onData_frame_then_rest_witness :
  onData 1 example_receiver plain_sink straddling_frames
  = match frame_handler 1 example_receiver plain_sink straddling_frames with
    | Some (r', s') => onData 1 r' s' (frame_rest straddling_frames)
    | None => None
    end.
Proof.
  apply (@onData_frame_then_rest (list byte) IncrementalUtf8 StoredZlib
           Recorder RecorderSinks 1%nat example_receiver plain_sink
           straddling_frames).
  - reflexivity.
  - split; vm_compute; discriminate.
  - unfold header_violation. vm_compute.
    intros [H|[H|[[H _]|[H|[[H _]|[[H _]|H]]]]]]; discriminate.
Defined.

Lemma onData_partial_frame_waits_witness :
  onData 0 example_receiver plain_sink (firstn 4 text_frame)
  = Some (mkResultData Returned example_receiver plain_sink
                       (firstn 4 text_frame)).
Proof.
  apply (@onData_partial_frame_waits (list byte) IncrementalUtf8 StoredZlib
           Recorder RecorderSinks 0%nat example_receiver plain_sink
           text_frame 4%nat).
  - split; vm_compute; discriminate.
  - unfold header_violation. vm_compute.
    intros [H|[H|[[H _]|[H|[[H _]|[[H _]|H]]]]]]; discriminate.
  - vm_compute. reflexivity.
Defined.

Lemma onData_length_wraps_witness :
  onData 0 example_receiver plain_sink oversized_length_frame
  = Some (mkResultData ThrewLengthError example_receiver plain_sink
                       oversized_length_frame).
Proof.
  apply (@onData_length_wraps (list byte) IncrementalUtf8 StoredZlib
           Recorder RecorderSinks 0%nat example_receiver plain_sink
           oversized_length_frame).
  - reflexivity.
  - split; vm_compute; discriminate.
  - reflexivity.
  - reflexivity.
  - reflexivity.
  - reflexivity.
  - vm_compute. reflexivity.
Defined.

Lemma onData_keeps_transmit_state_witness :
  _cfg (receiver_after straddling_result) = _cfg example_receiver
  /\ transmit_state (receiver_after straddling_result)
     = transmit_state example_receiver
  /\ exists k, buffer_after straddling_result = skipn k straddling_frames.
Proof.
  apply (@onData_keeps_transmit_state (list byte) IncrementalUtf8 StoredZlib
           Recorder RecorderSinks 1%nat example_receiver plain_sink
           straddling_frames straddling_result).
  vm_compute. reflexivity.
Defined.

Lemma binary_message_delivery_witness :
  exists r',
    handle_frames 1 example_receiver plain_sink
                  (message_frames 2 false true straddling_chunks)
    = Some (r', onRxBinary (concat straddling_chunks) plain_sink)
    /\ utf8Validator r' = utf8Validator example_receiver
    /\ message_in_progress r' = false.
Proof.
  destruct (@binary_message_delivery
              (list byte) IncrementalUtf8 StoredZlib Recorder RecorderSinks
              1%nat example_receiver plain_sink false
              [[x48; x69; x20]; [x3a; xf0; x9f]] [x98; x80; x21] eq_refl)
    as (_ & H & _).
  exact (H eq_refl).
Defined.

Lemma rxInflate_no_context_takeover_witness :
  option_map fst (rxInflate 1 no_takeover_receiver hello_compressed)
  = option_map fst (rxInflate 1 used_receiver hello_compressed).
Proof.
  apply (@rxInflate_no_context_takeover (list byte) StoredZlib 1%nat
           no_takeover_receiver used_receiver hello_compressed).
  - reflexivity.
  - reflexivity.
  - reflexivity.
  - reflexivity.
Defined.

Lemma rxInflate_sees_deflate_output_witness :
  exists j,
    0 <= j <= 3
    /\ sync_flush_step (zs_params (deflate_stream example_receiver)) hello j
       = (Z_OK,
          next_in (rxInflate_stream
                     example_receiver
                     (compressed_bytes (snd (txDeflate example_receiver
                                                       hello))))).
Proof.
  apply (@rxInflate_sees_deflate_output (list byte) StoredZlib
           example_receiver example_receiver hello).
  - reflexivity.
  - split; vm_compute; reflexivity.
  - vm_compute. reflexivity.
Defined.

Lemma tls_owned_empty : tls_owned empty_store empty_world.
Proof.
  unfold tls_owned, empty_store, empty_world, is_live. cbn.
  repeat split; intros; discriminate.
Qed.

Lemma tls_init_outcome_witness :
  let '(ok, err, st', w') :=
    tls_init_at (openssl := AgreeableOpenSSL) empty_store 0
                system_ca_options empty_world in
  tls_owned st' w'
  /\ isInitialized (st' 0%nat) = ok
  /\ (ok = true <-> err = EmptyString)
  /\ (forall i, i <> 0%nat -> st' i = empty_store i)
  /\ (forall c, _ctx (st' 0%nat) = Some c -> is_live c empty_world = false)
  /\ (forall c, is_live c w' = true
                <-> _ctx (st' 0%nat) = Some c
                    \/ (is_live c empty_world = true
                        /\ _ctx (empty_store 0%nat) <> Some c)).
Proof.
  apply (@tls_init_outcome AgreeableOpenSSL empty_store 0%nat
                           system_ca_options empty_world).
  exact tls_owned_empty.
Defined.

Lemma tls_init_success_trace_witness :
  exists c,
    _ctx (snd (fst (tls_init (openssl := AgreeableOpenSSL)
                             (mkTLSContext None) system_ca_options
                             empty_world))) = Some c
    /\ ssl_log (snd (tls_init (openssl := AgreeableOpenSSL)
                              (mkTLSContext None) system_ca_options
                              empty_world))
       = tls_init_success_calls system_ca_options c.
Proof.
  exact (@tls_init_success_trace AgreeableOpenSSL (mkTLSContext None)
                                 system_ca_options empty_world eq_refl).
Defined.

Lemma tls_owned_initialised : tls_owned initialised_store initialised_world.
Proof.
  assert (Hs : forall i, _ctx (initialised_store i)
                         = if Nat.eqb i 0 then Some 0%nat else None).
  { intros i. unfold initialised_store, tls_init_at.
    cbn. unfold store_set. destruct (Nat.eqb i 0); reflexivity. }
  unfold tls_owned. split; [reflexivity|]. split; [|split].
  - intros i c. rewrite Hs. destruct (Nat.eqb i 0); [|discriminate].
    intros E. inversion E; subst. reflexivity.
  - intros i j c. rewrite !Hs.
    destruct (Nat.eqb_spec i 0), (Nat.eqb_spec j 0); try discriminate.
    intros _ _. congruence.
  - intros c H. change (ssl_next initialised_world) with 1%nat.
    unfold is_live in H.
    change (existsb (Nat.eqb c) (ssl_live initialised_world))
      with (Nat.eqb c 0 || false) in H.
    destruct (Nat.eqb_spec c 0); [lia|discriminate].
Qed.

Lemma tls_move_keeps_ownership_witness :
  let '(st1, w1) := tls_move_assign initialised_store 1 0 initialised_world in
  let '(st2, w2) := tls_destroy st1 1 w1 in
  _ctx (initialised_store 0%nat) = Some 0%nat
  /\ _ctx (st1 1%nat) = Some 0%nat /\ _ctx (st1 0%nat) = None
  /\ is_live 0 w1 = true
  /\ tls_owned st2 w2
  /\ _ctx (st2 1%nat) = None
  /\ is_live 0 w2 = false.
Proof.
  destruct (@tls_move_keeps_ownership initialised_store 1%nat 0%nat
              initialised_world tls_owned_initialised)
    as (_ & (Own1 & _ & Mv) & _).
  destruct (Mv ltac:(discriminate)) as (M1 & M2 & M3).
  destruct (tls_move_assign initialised_store 1 0 initialised_world)
    as [st1 w1].
  cbn [fst snd] in *.
  destruct (@tls_move_keeps_ownership st1 1%nat 1%nat w1 Own1)
    as ((Own2 & D1 & D2) & _).
  destruct (tls_destroy st1 1 w1) as [st2 w2]. cbn [fst snd] in *.
  assert (H0 : _ctx (initialised_store 0%nat) = Some 0%nat) by reflexivity.
  rewrite H0 in M1.
  split; [exact H0|]. split; [exact M1|]. split; [exact M2|].
  split; [apply M3; split; [reflexivity|discriminate]|].
  split; [exact Own2|]. split; [exact D1|].
  destruct (is_live 0 w2) eqn:L; [|reflexivity].
  apply D2 in L. destruct L as [_ L]. contradiction.
Defined.
